(** * Aegis-Oxbow relayer: intent pool, batch executor and gas predictor

    A shallow embedding of [relayer/src/relayer.ts] (class [AegisRelayer]) and
    of [relayer/src/GasPredictor.ts] (classes [SimpleNeuralNetwork] and
    [AIGasPredictor]), followed by the properties of the specification that
    were checked against them.

    - JavaScript numbers are IEEE-754 binary64 values: Rocq's primitive
      floats, whose [+ - * /] and comparisons are the same operations.
    - [bigint] values are [Z]; counters and timestamps, which the code only
      ever increments by integers, are [Z] too.
    - The relayer is an event-driven object: each handler runs to completion,
      and [executeBatch] is suspended at its first [await] and resumed later.
      The embedding is a step function over events; a suspended activation of
      [executeBatch] is kept, with its local [batch], in [inFlight].
    - Arrays and object literals that [getStatus] hands out are kept in a
      store of allocated objects, addressed by references, so that sharing
      between the live state and a snapshot is visible. *)

From Stdlib Require Import Ascii String ZArith List Bool Lia Floats DecimalString.
From Stdlib Require Import Permutation.
Import ListNotations.

Set Warnings "-inexact-float,-register-all".

Local Open Scope Z_scope.

(* ------------------------------------------------------------------------- *)
(** ** JavaScript numbers                                                     *)
(* ------------------------------------------------------------------------- *)

Module Js.

Definition is_nan (x : float) : bool := negb (x =? x)%float.

Definition is_pos_zero (x : float) : bool :=
  match classify x with PZero => true | _ => false end.

Definition is_neg_zero (x : float) : bool :=
  match classify x with NZero => true | _ => false end.

(** A number is falsy when it is [0], [-0] or [NaN]. *)
Definition truthy (x : float) : bool := negb (is_nan x || (x =? 0)%float).

(** [x || d] on numbers. *)
Definition or (x d : float) : float := if truthy x then x else d.

(** [Math.max(...xs)]: [NaN] if any argument is, [-Infinity] without
    arguments, and [+0] counts as larger than [-0]. *)
Definition Math_max (xs : list float) : float :=
  if existsb is_nan xs then nan
  else fold_left
         (fun highest number =>
            if is_pos_zero number && is_neg_zero highest then number
            else if (highest <? number)%float then number else highest)
         xs neg_infinity.

(** [Math.min(...xs)], symmetrically. *)
Definition Math_min (xs : list float) : float :=
  if existsb is_nan xs then nan
  else fold_left
         (fun lowest number =>
            if is_neg_zero number && is_pos_zero lowest then number
            else if (number <? lowest)%float then number else lowest)
         xs infinity.

(** [xs[i]] used as a number: a missing element is [undefined], which
    arithmetic turns into [NaN]. *)
Definition idx (xs : list float) (i : nat) : float := nth i xs nan.

(** [m[i][j]] for the weight matrices, whose rows all exist. *)
Definition idx2 (m : list (list float)) (i j : nat) : float :=
  idx (nth i m []) j.

(** [xs.reduce((a, b) => a + b, 0)]. *)
Definition sum (xs : list float) : float :=
  fold_left (fun a b => (a + b)%float) xs 0%float.

End Js.

(** What the code takes from the JavaScript runtime and from the [ethers]
    library, neither of which belongs to the repository. *)
Record Runtime := {
  (** [Math.exp]: the language leaves its rounding to the implementation. *)
  Math_exp : float -> float;
  (** [parseFloat(ethers.formatUnits(wei, "gwei"))]. *)
  gweiOfWei : Z -> float;
  (** [x.toFixed(2)]. *)
  toFixed2 : float -> string;
  (** [ethers.formatEther(wei)]. *)
  formatEther : Z -> string
}.

(* ------------------------------------------------------------------------- *)
(** ** GasPredictor.ts                                                        *)
(* ------------------------------------------------------------------------- *)

Record SimpleNeuralNetwork := {
  weightsInputHidden : list (list float);
  weightsHiddenOutput : list (list float);
  biasHidden : list float;
  biasOutput : list float;
  inputSize : nat;
  hiddenSize : nat;
  outputSize : nat
}.

Definition learningRate : float := 0.1%float.

Record AIGasPredictor := {
  net : SimpleNeuralNetwork;
  isTrained : bool;
  historicalFees : list float
}.

Definition windowSize : nat := 10.

(** [new AIGasPredictor()]; the constructor of the network draws every weight
    and bias with [Math.random() * 2 - 1], so the initial network [net0] is an
    input of the model. *)
Definition newPredictor (net0 : SimpleNeuralNetwork) : AIGasPredictor :=
  {| net := net0; isTrained := false; historicalFees := [] |}.

Definition isReady (p : AIGasPredictor) : bool := isTrained p.

(** The first three lines of [trainModel] and of [shouldExecuteBatch]. *)
Definition feeRange (fees : list float) : float :=
  Js.or (Js.Math_max fees - Js.Math_min fees)%float 1%float.

Definition normalize (fees : list float) : list float :=
  map (fun f => ((f - Js.Math_min fees) / feeRange fees)%float) fees.

Definition windowAverage (fees : list float) : float :=
  (Js.sum fees / 10)%float.

(** The label [targetScore] that [trainModel] computes from the window. *)
Definition targetScore (fees : list float) : float :=
  let avg := windowAverage fees in
  let currentFee := Js.idx fees (windowSize - 1) in
  if (currentFee <? avg)%float then
    let dropRatio := ((avg - currentFee) / avg)%float in
    Js.Math_min [0.99%float; (0.5 + dropRatio * 2)%float]
  else
    let hikeRatio := ((currentFee - avg) / avg)%float in
    Js.Math_max [0.01%float; (0.5 - hikeRatio * 2)%float].

Section Predictor.

Variable rt : Runtime.

Definition sigmoid (x : float) : float :=
  (1 / (1 + Math_exp rt (- x)))%float.

Definition sigmoidDerivative (x : float) : float := (x * (1 - x))%float.

(** One layer of the forward pass: for each [j], start from the bias and
    add [inputs[i] * weights[i][j]] for [i] increasing. *)
Definition forward (nIn nOut : nat) (inputs : list float)
    (weights : list (list float)) (bias : list float) : list float :=
  map (fun j =>
         sigmoid (fold_left
                    (fun sum i => (sum + Js.idx inputs i * Js.idx2 weights i j)%float)
                    (seq 0 nIn) (Js.idx bias j)))
      (seq 0 nOut).

Definition run (n : SimpleNeuralNetwork) (inputs : list float) : list float :=
  let hiddenOutputs :=
    forward (inputSize n) (hiddenSize n) inputs (weightsInputHidden n) (biasHidden n) in
  forward (hiddenSize n) (outputSize n) hiddenOutputs (weightsHiddenOutput n) (biasOutput n).

Definition train (inputs expectedOutput : list float) (n : SimpleNeuralNetwork)
    : SimpleNeuralNetwork :=
  let hiddenOutputs :=
    forward (inputSize n) (hiddenSize n) inputs (weightsInputHidden n) (biasHidden n) in
  let finalOutputs :=
    forward (hiddenSize n) (outputSize n) hiddenOutputs (weightsHiddenOutput n) (biasOutput n) in
  let outputErrors :=
    map (fun k =>
           ((Js.idx expectedOutput k - Js.idx finalOutputs k)
            * sigmoidDerivative (Js.idx finalOutputs k))%float)
        (seq 0 (outputSize n)) in
  let hiddenErrors :=
    map (fun j =>
           (fold_left
              (fun error k =>
                 (error + Js.idx outputErrors k * Js.idx2 (weightsHiddenOutput n) j k)%float)
              (seq 0 (outputSize n)) 0
            * sigmoidDerivative (Js.idx hiddenOutputs j))%float)
        (seq 0 (hiddenSize n)) in
  {| weightsHiddenOutput :=
       map (fun j =>
              map (fun k =>
                     (Js.idx2 (weightsHiddenOutput n) j k
                      + learningRate * Js.idx outputErrors k * Js.idx hiddenOutputs j)%float)
                  (seq 0 (outputSize n)))
           (seq 0 (hiddenSize n));
     biasOutput :=
       map (fun k => (Js.idx (biasOutput n) k + learningRate * Js.idx outputErrors k)%float)
           (seq 0 (outputSize n));
     weightsInputHidden :=
       map (fun i =>
              map (fun j =>
                     (Js.idx2 (weightsInputHidden n) i j
                      + learningRate * Js.idx hiddenErrors j * Js.idx inputs i)%float)
                  (seq 0 (hiddenSize n)))
           (seq 0 (inputSize n));
     biasHidden :=
       map (fun j => (Js.idx (biasHidden n) j + learningRate * Js.idx hiddenErrors j)%float)
           (seq 0 (hiddenSize n));
     inputSize := inputSize n;
     hiddenSize := hiddenSize n;
     outputSize := outputSize n |}.

Definition trainModel (p : AIGasPredictor) : AIGasPredictor :=
  let fees := historicalFees p in
  {| net := Nat.iter 200 (train (normalize fees) [targetScore fees]) (net p);
     isTrained := true;
     historicalFees := fees |}.

Definition addBlockDataAndTrain (baseFeeWei : Z) (p : AIGasPredictor)
    : AIGasPredictor :=
  let pushed := historicalFees p ++ [gweiOfWei rt baseFeeWei] in
  let fees := if (windowSize <? length pushed)%nat then tl pushed else pushed in
  let p' := {| net := net p; isTrained := isTrained p; historicalFees := fees |} in
  if (length fees =? windowSize)%nat then trainModel p' else p'.

Definition shouldExecuteBatch (currentFeeWei : Z) (p : AIGasPredictor)
    : bool * float :=
  if negb (isTrained p) || (length (historicalFees p) <? windowSize)%nat
  then (false, 0%float)
  else
    let prediction := run (net p) (normalize (historicalFees p)) in
    let score := Js.or (Js.idx prediction 0) 0%float in
    ((0.7 <? score)%float, score).

(** The predictor after the block listener has fed it [samples] in order. *)
Definition absorbAll (samples : list Z) (p : AIGasPredictor) : AIGasPredictor :=
  fold_left (fun q w => addBlockDataAndTrain w q) samples p.

End Predictor.

(** Samples that fall, and samples that rise, from each one to the next. *)
Fixpoint strictlyDecreasing (samples : list Z) : bool :=
  match samples with
  | a :: (b :: _) as rest => (b <? a) && strictlyDecreasing rest
  | _ => true
  end.

Fixpoint strictlyIncreasing (samples : list Z) : bool :=
  match samples with
  | a :: (b :: _) as rest => (a <? b) && strictlyIncreasing rest
  | _ => true
  end.

(* ------------------------------------------------------------------------- *)
(** ** relayer.ts: types                                                      *)
(* ------------------------------------------------------------------------- *)

Module Intent.
Record t := {
  sender : string;
  receiver : string;
  amount : Z;
  intentIndex : Z;
  receivedAt : Z;
  txHash : string;
  blockNumber : Z
}.
End Intent.

Inductive BatchStatus := IDLE | POOLING | EXECUTING | EXECUTED | ERROR.

(** A reference to an array or object. [PoolRef] is the address of the array
    held in the private field [intentPool], the only array the relayer
    mutates in place; [ObjRef n] is the [n]-th object allocated otherwise. *)
Inductive Ref := PoolRef | ObjRef (n : nat).

Module LastBatch.
Record t := {
  txHash : option string;
  batchSize : Z;
  totalValue : string;
  executedAt : option Z
}.
End LastBatch.

Module AiState.
Record t := {
  isReady : bool;
  currentGasGwei : string;
  confidenceScore : float;
  threshold : float
}.
End AiState.

(** The objects that [RelayerState] points to. Intents are never written
    after their creation, so an array holds them by value. *)
Inductive Obj :=
| IntentArray (xs : list Intent.t)
| LastBatchObj (b : LastBatch.t)
| AiStateObj (a : AiState.t).

(** [RelayerState]: the object in the public field [state], and equally the
    shallow copy [{ ...this.state }] that [getStatus] returns. A threshold
    is what [parseInt] gave: an integer, or [None] for [NaN]. *)
Module RelayerState.
Record t := {
  status : BatchStatus;
  pooledIntents : Ref;
  batchSizeThreshold : option Z;
  lastBatch : Ref;
  aiState : Ref;
  totalBatchesExecuted : Z;
  totalIntentsProcessed : Z;
  uptime : Z;
  startedAt : Z
}.
End RelayerState.

Module Config.
Record t := { batchSizeThreshold : option Z }.
End Config.

(** The answers of the vault contract to one activation of [executeBatch],
    in the order of its [await]s; [None] or [false] is a rejected promise. *)
Module Ledger.
Record t := {
  vaultBalance : option Z;
  estimateGas : option Z;
  sendTransaction : option string;
  wait : bool
}.
End Ledger.

Record AegisRelayer := {
  (** objects allocated so far, [ObjRef n] being [nth_error store n] *)
  store : list Obj;
  (** the imported [config] *)
  config : Config.t;
  (** contents of the array at [PoolRef] *)
  intentPool : list Intent.t;
  isExecuting : bool;
  startedAt : Z;
  currentGasGwei : string;
  currentAiScore : float;
  gasAI : AIGasPredictor;
  state : RelayerState.t;
  (** the [batch] of every activation of [executeBatch] that is suspended
      at an [await], oldest first *)
  inFlight : list (list Intent.t);
  (** callbacks registered with [setTimeout] that have not run yet *)
  timers : nat
}.

Inductive Event :=
| IntentRegistered (intent : Intent.t) (now : Z)
| Block (baseFeePerGas : option Z) (now : Z)
| Settled (k : nat) (ledger : Ledger.t) (now : Z)
| Timeout
| StatusRequest (now : Z)
| Start.

(* ------------------------------------------------------------------------- *)
(** ** relayer.ts: field updates                                              *)
(* ------------------------------------------------------------------------- *)

Definition set_store (v : list Obj) (r : AegisRelayer) : AegisRelayer :=
  {| store := v; config := config r; intentPool := intentPool r;
     isExecuting := isExecuting r; startedAt := startedAt r;
     currentGasGwei := currentGasGwei r; currentAiScore := currentAiScore r;
     gasAI := gasAI r; state := state r; inFlight := inFlight r;
     timers := timers r |}.

Definition set_intentPool (v : list Intent.t) (r : AegisRelayer) : AegisRelayer :=
  {| store := store r; config := config r; intentPool := v;
     isExecuting := isExecuting r; startedAt := startedAt r;
     currentGasGwei := currentGasGwei r; currentAiScore := currentAiScore r;
     gasAI := gasAI r; state := state r; inFlight := inFlight r;
     timers := timers r |}.

Definition set_isExecuting (v : bool) (r : AegisRelayer) : AegisRelayer :=
  {| store := store r; config := config r; intentPool := intentPool r;
     isExecuting := v; startedAt := startedAt r;
     currentGasGwei := currentGasGwei r; currentAiScore := currentAiScore r;
     gasAI := gasAI r; state := state r; inFlight := inFlight r;
     timers := timers r |}.

Definition set_gas (gwei : string) (score : float) (ai : AIGasPredictor)
    (r : AegisRelayer) : AegisRelayer :=
  {| store := store r; config := config r; intentPool := intentPool r;
     isExecuting := isExecuting r; startedAt := startedAt r;
     currentGasGwei := gwei; currentAiScore := score;
     gasAI := ai; state := state r; inFlight := inFlight r;
     timers := timers r |}.

Definition set_state (v : RelayerState.t) (r : AegisRelayer) : AegisRelayer :=
  {| store := store r; config := config r; intentPool := intentPool r;
     isExecuting := isExecuting r; startedAt := startedAt r;
     currentGasGwei := currentGasGwei r; currentAiScore := currentAiScore r;
     gasAI := gasAI r; state := v; inFlight := inFlight r;
     timers := timers r |}.

Definition set_inFlight (v : list (list Intent.t)) (r : AegisRelayer) : AegisRelayer :=
  {| store := store r; config := config r; intentPool := intentPool r;
     isExecuting := isExecuting r; startedAt := startedAt r;
     currentGasGwei := currentGasGwei r; currentAiScore := currentAiScore r;
     gasAI := gasAI r; state := state r; inFlight := v;
     timers := timers r |}.

Definition set_timers (v : nat) (r : AegisRelayer) : AegisRelayer :=
  {| store := store r; config := config r; intentPool := intentPool r;
     isExecuting := isExecuting r; startedAt := startedAt r;
     currentGasGwei := currentGasGwei r; currentAiScore := currentAiScore r;
     gasAI := gasAI r; state := state r; inFlight := inFlight r;
     timers := v |}.

Definition set_status (v : BatchStatus) (s : RelayerState.t) : RelayerState.t :=
  {| RelayerState.status := v;
     RelayerState.pooledIntents := RelayerState.pooledIntents s;
     RelayerState.batchSizeThreshold := RelayerState.batchSizeThreshold s;
     RelayerState.lastBatch := RelayerState.lastBatch s;
     RelayerState.aiState := RelayerState.aiState s;
     RelayerState.totalBatchesExecuted := RelayerState.totalBatchesExecuted s;
     RelayerState.totalIntentsProcessed := RelayerState.totalIntentsProcessed s;
     RelayerState.uptime := RelayerState.uptime s;
     RelayerState.startedAt := RelayerState.startedAt s |}.

(** [new Obj]: the object is appended to the store and its address returned. *)
Definition alloc (o : Obj) (r : AegisRelayer) : Ref * AegisRelayer :=
  (ObjRef (length (store r)), set_store (store r ++ [o]) r).

(** What a reference points to in the relayer [r]. *)
Definition deref (r : AegisRelayer) (ref : Ref) : option Obj :=
  match ref with
  | PoolRef => Some (IntentArray (intentPool r))
  | ObjRef n => nth_error (store r) n
  end.

(* ------------------------------------------------------------------------- *)
(** ** relayer.ts: class AegisRelayer                                         *)
(* ------------------------------------------------------------------------- *)

(** The field initialisers and the constructor, run at time [now] with the
    freshly drawn network [net0]. The three object literals of [state] are
    the first three objects of the store. *)
Definition newRelayer (cfg : Config.t) (net0 : SimpleNeuralNetwork) (now : Z)
    : AegisRelayer :=
  {| store :=
       [ IntentArray [];
         LastBatchObj {| LastBatch.txHash := None; LastBatch.batchSize := 0;
                         LastBatch.totalValue := "0"; LastBatch.executedAt := None |};
         AiStateObj {| AiState.isReady := false; AiState.currentGasGwei := "0.0";
                       AiState.confidenceScore := 0; AiState.threshold := 0.7 |} ];
     config := cfg;
     intentPool := [];
     isExecuting := false;
     startedAt := now;
     currentGasGwei := "0.0";
     currentAiScore := 0;
     gasAI := newPredictor net0;
     state :=
       {| RelayerState.status := IDLE;
          RelayerState.pooledIntents := ObjRef 0;
          RelayerState.batchSizeThreshold := Config.batchSizeThreshold cfg;
          RelayerState.lastBatch := ObjRef 1;
          RelayerState.aiState := ObjRef 2;
          RelayerState.totalBatchesExecuted := 0;
          RelayerState.totalIntentsProcessed := 0;
          RelayerState.uptime := 0;
          RelayerState.startedAt := now |};
     inFlight := [];
     timers := 0 |}.

(** [EXECUTING] and [ERROR] are left alone by [syncState]. *)
Definition sticky (s : BatchStatus) : bool :=
  match s with EXECUTING | ERROR => true | _ => false end.

(** [this.intentPool.length > 0 ? "POOLING" : "IDLE"]. *)
Definition poolStatus (pool : list Intent.t) : BatchStatus :=
  match pool with [] => IDLE | _ :: _ => POOLING end.

Definition syncState (now : Z) (r : AegisRelayer) : AegisRelayer :=
  let (pooled, r1) := alloc (IntentArray (intentPool r)) r in
  let (ai, r2) :=
    alloc (AiStateObj {| AiState.isReady := isReady (gasAI r1);
                         AiState.currentGasGwei := currentGasGwei r1;
                         AiState.confidenceScore := currentAiScore r1;
                         AiState.threshold := 0.7 |}) r1 in
  let s := state r2 in
  set_state
    {| RelayerState.status :=
         if sticky (RelayerState.status s) then RelayerState.status s
         else poolStatus (intentPool r2);
       RelayerState.pooledIntents := pooled;
       RelayerState.batchSizeThreshold := RelayerState.batchSizeThreshold s;
       RelayerState.lastBatch := RelayerState.lastBatch s;
       RelayerState.aiState := ai;
       RelayerState.totalBatchesExecuted := RelayerState.totalBatchesExecuted s;
       RelayerState.totalIntentsProcessed := RelayerState.totalIntentsProcessed s;
       RelayerState.uptime := (now - startedAt r2) / 1000;
       RelayerState.startedAt := RelayerState.startedAt s |}
    r2.

(** [executeBatch] up to its first [await]: the guard, the drain and
    [syncState]; the activation is then suspended with its [batch]. *)
Definition executeBatch (now : Z) (r : AegisRelayer) : AegisRelayer :=
  if isExecuting r || (length (intentPool r) =? 0)%nat then r
  else
    let r1 := set_isExecuting true r in
    let r2 := set_state (set_status EXECUTING (state r1)) r1 in
    let batch := intentPool r2 in
    let r3 := syncState now (set_intentPool [] r2) in
    set_inFlight (inFlight r3 ++ [batch]) r3.

(** [this.intentPool.length >= config.batchSizeThreshold]. *)
Definition reachesThreshold (size : nat) (threshold : option Z) : bool :=
  match threshold with
  | Some t => t <=? Z.of_nat size
  | None => false
  end.

Definition handleIntent (intent : Intent.t) (now : Z) (r : AegisRelayer)
    : AegisRelayer :=
  let r1 := syncState now (set_intentPool (intentPool r ++ [intent]) r) in
  if reachesThreshold (length (intentPool r1)) (Config.batchSizeThreshold (config r1))
  then executeBatch now r1
  else r1.

(** [amounts.reduce((acc, v) => acc + v, 0n)]. *)
Definition totalValue (batch : list Intent.t) : Z :=
  fold_left Z.add (map Intent.amount batch) 0.

(** The [try] block of [executeBatch]: the hash of the transaction when every
    [await] resolved and the vault held enough, [None] when it threw. *)
Definition settlement (batch : list Intent.t) (l : Ledger.t) : option string :=
  match Ledger.vaultBalance l with
  | None => None
  | Some vaultBal =>
      if vaultBal <? totalValue batch then None
      else match Ledger.estimateGas l with
           | None => None
           | Some _ =>
               match Ledger.sendTransaction l with
               | None => None
               | Some hash => if Ledger.wait l then Some hash else None
               end
           end
  end.

Definition removeAt {A : Type} (k : nat) (l : list A) : list A :=
  firstn k l ++ skipn (S k) l.

(** The callback of [setTimeout]. *)
Definition onTimeout (r : AegisRelayer) : AegisRelayer :=
  match timers r with
  | O => r
  | S n => set_isExecuting false (set_timers n r)
  end.

(** The last statement of [start]. *)
Definition start (r : AegisRelayer) : AegisRelayer :=
  set_state (set_status POOLING (state r)) r.

(** [getStatus]: the snapshot handed to the caller, and the relayer after the
    call. The spread copies the fields of [state], references included. *)
Definition getStatus (now : Z) (r : AegisRelayer) : RelayerState.t * AegisRelayer :=
  let r1 := syncState now r in (state r1, r1).

Section Relayer.

Variable rt : Runtime.

(** The rest of the [k]-th suspended activation of [executeBatch], from its
    first [await] to the end of [finally], the vault having answered
    [ledger]. Nothing in it is interrupted once the last promise has
    settled, so it is one step. *)
Definition executeBatch_resume (k : nat) (ledger : Ledger.t) (now : Z)
    (r : AegisRelayer) : AegisRelayer :=
  match nth_error (inFlight r) k with
  | None => r
  | Some batch =>
      let r0 := set_inFlight (removeAt k (inFlight r)) r in
      let r1 :=
        match settlement batch ledger with
        | Some hash =>
            let (last, r') :=
              alloc (LastBatchObj
                       {| LastBatch.txHash := Some hash;
                          LastBatch.batchSize := Z.of_nat (length batch);
                          LastBatch.totalValue := formatEther rt (totalValue batch);
                          LastBatch.executedAt := Some now |}) r0 in
            let s := state r' in
            set_state
              {| RelayerState.status := poolStatus (intentPool r');
                 RelayerState.pooledIntents := RelayerState.pooledIntents s;
                 RelayerState.batchSizeThreshold := RelayerState.batchSizeThreshold s;
                 RelayerState.lastBatch := last;
                 RelayerState.aiState := RelayerState.aiState s;
                 RelayerState.totalBatchesExecuted :=
                   RelayerState.totalBatchesExecuted s + 1;
                 RelayerState.totalIntentsProcessed :=
                   RelayerState.totalIntentsProcessed s + Z.of_nat (length batch);
                 RelayerState.uptime := RelayerState.uptime s;
                 RelayerState.startedAt := RelayerState.startedAt s |}
              r'
        | None =>
            let r' := set_intentPool (batch ++ intentPool r0) r0 in
            set_state (set_status ERROR (state r')) r'
        end in
      let r2 := syncState now (set_isExecuting false r1) in
      match intentPool r2 with
      | [] => r2
      | _ :: _ => set_timers (S (timers r2)) r2
      end
  end.

(** The listener of ["block"], after [getBlock] has resolved. A missing
    base fee and [0n] are both falsy. *)
Definition onBlock (baseFeePerGas : option Z) (now : Z) (r : AegisRelayer)
    : AegisRelayer :=
  match baseFeePerGas with
  | None => r
  | Some baseFee =>
      if baseFee =? 0 then r
      else
        let ai := addBlockDataAndTrain rt baseFee (gasAI r) in
        let (executeAI, score) := shouldExecuteBatch rt baseFee ai in
        let r1 := set_gas (toFixed2 rt (gweiOfWei rt baseFee)) score ai r in
        if isReady ai then
          if executeAI && negb (length (intentPool r1) =? 0)%nat
          then executeBatch now r1
          else r1
        else r1
  end.

Definition step (r : AegisRelayer) (e : Event) : AegisRelayer :=
  match e with
  | IntentRegistered intent now => handleIntent intent now r
  | Block baseFeePerGas now => onBlock baseFeePerGas now r
  | Settled k ledger now => executeBatch_resume k ledger now r
  | Timeout => onTimeout r
  | StatusRequest now => snd (getStatus now r)
  | Start => start r
  end.

(** The relayer after the event loop has dispatched [events] in order. *)
Definition dispatch (events : list Event) (r : AegisRelayer) : AegisRelayer :=
  fold_left step events r.

End Relayer.

(* ------------------------------------------------------------------------- *)
(** ** Snapshots and reachable states                                         *)
(* ------------------------------------------------------------------------- *)

(** What a caller holding the snapshot [snap] reads when the relayer is in
    state [r]: the fields copied by the spread, and, for the three fields
    that are references, the object found behind them at that time. *)
Module Snapshot.
Record t := {
  status : BatchStatus;
  pooledIntents : option Obj;
  batchSizeThreshold : option Z;
  lastBatch : option Obj;
  aiState : option Obj;
  totalBatchesExecuted : Z;
  totalIntentsProcessed : Z;
  uptime : Z;
  startedAt : Z
}.
End Snapshot.

Definition contents (r : AegisRelayer) (snap : RelayerState.t) : Snapshot.t :=
  {| Snapshot.status := RelayerState.status snap;
     Snapshot.pooledIntents := deref r (RelayerState.pooledIntents snap);
     Snapshot.batchSizeThreshold := RelayerState.batchSizeThreshold snap;
     Snapshot.lastBatch := deref r (RelayerState.lastBatch snap);
     Snapshot.aiState := deref r (RelayerState.aiState snap);
     Snapshot.totalBatchesExecuted := RelayerState.totalBatchesExecuted snap;
     Snapshot.totalIntentsProcessed := RelayerState.totalIntentsProcessed snap;
     Snapshot.uptime := RelayerState.uptime snap;
     Snapshot.startedAt := RelayerState.startedAt snap |}.

(** [ref] is an object of the store [objs], and not the pool array. *)
Definition allocatedIn (objs : list Obj) (ref : Ref) : Prop :=
  match ref with
  | PoolRef => False
  | ObjRef n => (n < length objs)%nat
  end.

(** The three references of [s] are objects of the store [objs]. *)
Definition refsAllocated (objs : list Obj) (s : RelayerState.t) : Prop :=
  allocatedIn objs (RelayerState.pooledIntents s)
  /\ allocatedIn objs (RelayerState.lastBatch s)
  /\ allocatedIn objs (RelayerState.aiState s).

(** The store of [r'] is the store of [r] with objects added at the end. *)
Definition extends (r r' : AegisRelayer) : Prop :=
  exists added, store r' = store r ++ added.

(** The invariant: the live [state] only points to allocated objects. *)
Definition wellFormed (r : AegisRelayer) : Prop := refsAllocated (store r) (state r).

(** The states a relayer goes through: constructed, then driven by events. *)
Definition reachable (rt : Runtime) (r : AegisRelayer) : Prop :=
  exists cfg net0 t0 events, r = dispatch rt events (newRelayer cfg net0 t0).

(** The intents announced by [events], in order. *)
Definition arrived (events : list Event) : list Intent.t :=
  flat_map (fun e => match e with
                     | IntentRegistered intent _ => [intent]
                     | _ => []
                     end) events.

(** Events other than the end of an activation and the firing of a timer. *)
Definition quiet (e : Event) : bool :=
  match e with
  | Settled _ _ _ | Timeout => false
  | _ => true
  end.

(* ------------------------------------------------------------------------- *)
(** ** Bookkeeping of intents                                                 *)
(* ------------------------------------------------------------------------- *)

(** The intents the relayer holds: pooled, or in the batch of a suspended
    activation. *)
Definition held (r : AegisRelayer) : list Intent.t :=
  intentPool r ++ concat (inFlight r).

(** The batch that the event [e], handled in state [r], settles for good:
    that of an activation whose [try] block gets to its end. *)
Definition settledBy (r : AegisRelayer) (e : Event) : list Intent.t :=
  match e with
  | Settled k ledger _ =>
      match nth_error (inFlight r) k with
      | Some batch =>
          match settlement batch ledger with
          | Some _ => batch
          | None => []
          end
      | None => []
      end
  | _ => []
  end.

(** One if the event [e], handled in state [r], ends an activation with
    success, zero otherwise. *)
Definition confirmedBy (r : AegisRelayer) (e : Event) : Z :=
  match e with
  | Settled k ledger _ =>
      match nth_error (inFlight r) k with
      | Some batch =>
          match settlement batch ledger with
          | Some _ => 1
          | None => 0
          end
      | None => 0
      end
  | _ => 0
  end.

Section Bookkeeping.

Variable rt : Runtime.

Fixpoint settledDuring (events : list Event) (r : AegisRelayer) : list Intent.t :=
  match events with
  | [] => []
  | e :: rest => settledBy r e ++ settledDuring rest (step rt r e)
  end.

Fixpoint confirmedDuring (events : list Event) (r : AegisRelayer) : Z :=
  match events with
  | [] => 0
  | e :: rest => confirmedBy r e + confirmedDuring rest (step rt r e)
  end.

End Bookkeeping.

(** The base fees that the block listener hands to the predictor: a block
    without base fee and a base fee of [0n] are skipped. *)
Definition baseFees (events : list Event) : list Z :=
  flat_map (fun e => match e with
                     | Block (Some baseFee) _ => if baseFee =? 0 then [] else [baseFee]
                     | _ => []
                     end) events.

(** The events of intents announced one after the other. *)
Definition arrivals (intents : list (Intent.t * Z)) : list Event :=
  map (fun i => IntentRegistered (fst i) (snd i)) intents.

(** A network whose first output bias is [NaN]. *)
Definition poisoned (n : SimpleNeuralNetwork) : Prop :=
  (1 <= outputSize n)%nat /\ Js.is_nan (Js.idx (biasOutput n) 0) = true.

(* ------------------------------------------------------------------------- *)
(** ** Invariants of the reachable states                                     *)
(* ------------------------------------------------------------------------- *)

(** [state.pooledIntents] is an array with the contents of the pool. *)
Definition mirrored (r : AegisRelayer) : Prop :=
  deref r (RelayerState.pooledIntents (state r)) = Some (IntentArray (intentPool r)).

(** No suspended activation holds an empty batch. *)
Definition batchesNonEmpty (r : AegisRelayer) : Prop :=
  Forall (fun batch : list Intent.t => batch <> []) (inFlight r).

(** The status is one that the code assigns, and [IDLE] goes with an empty
    pool. *)
Definition statusSound (r : AegisRelayer) : Prop :=
  RelayerState.status (state r) <> EXECUTED
  /\ (RelayerState.status (state r) = IDLE -> intentPool r = []).

(** The summary of the field initialiser: no batch yet. *)
Definition noBatchYet : LastBatch.t :=
  {| LastBatch.txHash := None; LastBatch.batchSize := 0;
     LastBatch.totalValue := "0"; LastBatch.executedAt := None |}.

(** [state.lastBatch] is the initial summary as long as no batch was
    confirmed, and afterwards a summary with a hash, a time and a positive
    size. *)
Definition lastBatchSound (r : AegisRelayer) : Prop :=
  exists b : LastBatch.t,
    deref r (RelayerState.lastBatch (state r)) = Some (LastBatchObj b)
    /\ ((RelayerState.totalBatchesExecuted (state r) = 0 /\ b = noBatchYet)
        \/ (0 < RelayerState.totalBatchesExecuted (state r)
            /\ LastBatch.txHash b <> None
            /\ LastBatch.executedAt b <> None
            /\ 0 < LastBatch.batchSize b)).

(** The part of [state] that only a confirmed batch changes. *)
Definition books (r : AegisRelayer) : Ref * Z * Z :=
  (RelayerState.lastBatch (state r),
   RelayerState.totalBatchesExecuted (state r),
   RelayerState.totalIntentsProcessed (state r)).

(** The counters are in order. *)
Definition countersSound (r : AegisRelayer) : Prop :=
  0 <= RelayerState.totalBatchesExecuted (state r)
       <= RelayerState.totalIntentsProcessed (state r).

(* ------------------------------------------------------------------------- *)
(** ** config.ts                                                              *)
(* ------------------------------------------------------------------------- *)

(** [process.env]: a variable is absent or holds a string. *)
Definition Env := string -> option string.

(** [a ?? b] on a string that may be [undefined]. *)
Definition nullish (a : option string) (b : option string) : option string :=
  match a with Some v => Some v | None => b end.

(** [!val] on a string that may be [undefined]: true without a value and
    for the empty string. *)
Definition falsy (val : option string) : bool :=
  match val with
  | None => true
  | Some v => (String.length v =? 0)%nat
  end.

(** [requireEnv]; [None] is the thrown [Error]. *)
Definition requireEnv (env : Env) (name : string) (fallback : option string)
    : option string :=
  let val := nullish (env name) fallback in
  if falsy val then None else val.

Module Settings.
Record t := {
  rpcUrl : string;
  relayerPrivateKey : string;
  vaultAddress : string;
  port : option Z;
  batchSizeThreshold : option Z;
  batchTimeoutMs : option Z;
  startBlock : option Z;
  corsOrigin : string
}.
End Settings.

Definition orDefault (a : option string) (d : string) : string :=
  match a with Some v => v | None => d end.

Section ConfigFile.

Local Open Scope string_scope.

(** [parseInt(s, 10)], with [None] for [NaN]. *)
Variable parseInt : string -> option Z.

(** The object literal [config], its properties evaluated in order; [None]
    when one of the calls of [requireEnv] throws, which ends the loading of
    the module. *)
Definition loadConfig (env : Env) : option Settings.t :=
  match requireEnv env "RPC_URL" (Some "http://localhost:8545") with
  | None => None
  | Some rpc =>
      match requireEnv env "RELAYER_PRIVATE_KEY"
              (Some "0x59c6995e998f97a5a0044966f0945389dc9e86dae88c7a8412f4603b6b78690d") with
      | None => None
      | Some key =>
          match requireEnv env "VAULT_ADDRESS"
                  (Some "0x0000000000000000000000000000000000000000") with
          | None => None
          | Some vault =>
              Some {| Settings.rpcUrl := rpc;
                      Settings.relayerPrivateKey := key;
                      Settings.vaultAddress := vault;
                      Settings.port := parseInt (orDefault (env "PORT") "4000");
                      Settings.batchSizeThreshold :=
                        parseInt (orDefault (env "BATCH_SIZE_THRESHOLD") "5");
                      Settings.batchTimeoutMs :=
                        parseInt (orDefault (env "BATCH_TIMEOUT_MS") "15000");
                      Settings.startBlock :=
                        parseInt (orDefault (env "START_BLOCK") "0");
                      Settings.corsOrigin :=
                        orDefault (env "CORS_ORIGIN") "http://localhost:3000" |}
          end
      end
  end.

(** What the relayer reads of [config]. *)
Definition relayerConfig (c : Settings.t) : Config.t :=
  {| Config.batchSizeThreshold := Settings.batchSizeThreshold c |}.

End ConfigFile.

(* ------------------------------------------------------------------------- *)
(** ** server.ts                                                              *)
(* ------------------------------------------------------------------------- *)

(** The objects behind the three references of a state handed out by
    [getStatus]. A reference of a state always points to an object of its
    kind; the last case of each function is never taken on such a state. *)
Definition pooledOf (r : AegisRelayer) (s : RelayerState.t) : list Intent.t :=
  match deref r (RelayerState.pooledIntents s) with
  | Some (IntentArray xs) => xs
  | _ => []
  end.

Definition lastBatchOf (r : AegisRelayer) (s : RelayerState.t) : LastBatch.t :=
  match deref r (RelayerState.lastBatch s) with
  | Some (LastBatchObj b) => b
  | _ => noBatchYet
  end.

Definition aiStateOf (r : AegisRelayer) (s : RelayerState.t) : AiState.t :=
  match deref r (RelayerState.aiState s) with
  | Some (AiStateObj a) => a
  | _ => {| AiState.isReady := false; AiState.currentGasGwei := "0.0";
            AiState.confidenceScore := 0; AiState.threshold := 0.7 |}
  end.

(** One element of [intents] in the answer of [/api/status]. *)
Module IntentView.
Record t := {
  intentIndex : Z;
  sender : string;
  receiver : string;
  amount : string;
  amountWei : string;
  receivedAt : Z;
  txHash : string;
  blockNumber : Z
}.
End IntentView.

Module Stats.
Record t := {
  totalBatchesExecuted : Z;
  totalIntentsProcessed : Z;
  uptimeSec : Z
}.
End Stats.

(** The body of the answer of [/api/status]. *)
Module StatusReply.
Record t := {
  status : BatchStatus;
  pooledIntents : nat;
  batchSizeThreshold : option Z;
  aiReady : bool;
  currentGasGwei : string;
  aiConfidence : float;
  summary : string;
  intents : list IntentView.t;
  lastBatch : LastBatch.t;
  stats : Stats.t
}.
End StatusReply.

(** A value that [express.json()] leaves in [req.body]: what [JSON.parse]
    gives, or [undefined]. The fields of an object are in the order of the
    text; of two fields with the same name the later one counts. The cast
    [req.body as { sender?: string; ... }] checks nothing, so the handler
    can receive any of these. *)
Inductive JsValue :=
| JUndefined
| JNull
| JBool (b : bool)
| JNumber (x : float)
| JString (s : string)
| JArray (items : list JsValue)
| JObject (fields : list (string * JsValue)).

Fixpoint lookupLast (name : string) (fields : list (string * JsValue)) : JsValue :=
  match fields with
  | [] => JUndefined
  | (k, v) :: rest =>
      match lookupLast name rest with
      | JUndefined => if String.eqb k name then v else JUndefined
      | w => w
      end
  end.

(** [v[name]], for a value that is neither [undefined] nor [null] and a
    name that no prototype defines. *)
Definition property (name : string) (v : JsValue) : JsValue :=
  match v with
  | JObject fields => lookupLast name fields
  | _ => JUndefined
  end.

(** [!!v]. *)
Definition jsTruthy (v : JsValue) : bool :=
  match v with
  | JUndefined | JNull => false
  | JBool b => b
  | JNumber x => Js.truthy x
  | JString s => negb (String.eqb s "")
  | JArray _ | JObject _ => true
  end.

(** [v ?? d]. *)
Definition nullishOr (v d : JsValue) : JsValue :=
  match v with
  | JUndefined | JNull => d
  | _ => v
  end.

(** Whether [v.slice(0, 8)] returns: strings and arrays have the method;
    on a number, a boolean or an object of [JSON.parse] the call throws a
    [TypeError]. *)
Definition hasSlice (v : JsValue) : bool :=
  match v with
  | JString _ | JArray _ => true
  | _ => false
  end.

(** The three properties read of the body of [POST /api/simulate-intent]. *)
Module SimulateRequest.
Record t := {
  sender : JsValue;
  receiver : JsValue;
  amount : JsValue
}.
End SimulateRequest.

(** [const { sender, receiver, amount } = req.body]; [None] when the body
    is [undefined] or [null] and the destructuring throws. *)
Definition destructure (body : JsValue) : option SimulateRequest.t :=
  match body with
  | JUndefined | JNull => None
  | _ =>
      Some {| SimulateRequest.sender := property "sender" body;
              SimulateRequest.receiver := property "receiver" body;
              SimulateRequest.amount := property "amount" body |}
  end.

(** The object that the handler passes to [handleIntent]. The compiler
    takes it for an [Intent]; its sender and receiver are whatever the body
    held. *)
Module RawIntent.
Record t := {
  sender : JsValue;
  receiver : JsValue;
  amount : Z;
  intentIndex : Z;
  receivedAt : Z;
  txHash : string;
  blockNumber : Z
}.
End RawIntent.

(** The [Intent] that a raw object is, when its sender and receiver are
    strings. *)
Definition typedIntent (o : RawIntent.t) : option Intent.t :=
  match RawIntent.sender o, RawIntent.receiver o with
  | JString from, JString to =>
      Some {| Intent.sender := from;
              Intent.receiver := to;
              Intent.amount := RawIntent.amount o;
              Intent.intentIndex := RawIntent.intentIndex o;
              Intent.receivedAt := RawIntent.receivedAt o;
              Intent.txHash := RawIntent.txHash o;
              Intent.blockNumber := RawIntent.blockNumber o |}
  | _, _ => None
  end.

(** Whether the log line of [handleIntent], which calls [.slice] on the
    sender and on the receiver, throws. *)
Definition logThrows (o : RawIntent.t) : bool :=
  negb (hasSlice (RawIntent.sender o) && hasSlice (RawIntent.receiver o)).

(** The answer to [POST /api/simulate-intent]: [res.json({ ok: true,
    message })], or a status code with [{ error }]. *)
Inductive SimulateReply :=
| Injected (message : string)
| Refused (code : Z) (error : string).

(** What a request to [POST /api/simulate-intent] does.
    [Handled reply after]: the answer and the relayer after the request.
    [Untyped reply before pushed]: [handleIntent] has pushed [pushed], which
    is no [Intent], onto the pool of [before] and has synced the state.
    With the answer 500 its log line has thrown after that, and the size
    trigger has not been evaluated; with [ok: true] the log line has
    returned and the size trigger has been evaluated on the pool with the
    object in it. The relayer above holds [Intent]s only and does not
    follow the object further. *)
Inductive SimulateOutcome :=
| Handled (reply : SimulateReply) (after : AegisRelayer)
| Untyped (reply : SimulateReply) (before : AegisRelayer) (pushed : RawIntent.t).


(** [i.amount.toString()] on a bigint, and a length put in a template. *)
Definition bigintToString (z : Z) : string := NilZero.string_of_int (Z.to_int z).

Definition lengthToString (n : nat) : string := NilZero.string_of_uint (Nat.to_uint n).

(** ["0x" + "0".repeat(64)]. *)
Definition zeroHash : string := "0x" ++ String.concat "" (repeat "0"%string 64).

Definition demoSender : string := "0xDEMO000000000000000000000000000000000001".

Section Server.

Variable rt : Runtime.

(** [ethers.parseEther], on whatever the body held as amount, with [None]
    when it throws; [x.toFixed(1)]; and a number put in a template. *)
Variable parseEther : JsValue -> option Z.
Variable toFixed1 : float -> string.
Variable numberToString : option Z -> string.

Definition intentView (i : Intent.t) : IntentView.t :=
  {| IntentView.intentIndex := Intent.intentIndex i;
     IntentView.sender := Intent.sender i;
     IntentView.receiver := Intent.receiver i;
     IntentView.amount := formatEther rt (Intent.amount i);
     IntentView.amountWei := bigintToString (Intent.amount i);
     IntentView.receivedAt := Intent.receivedAt i;
     IntentView.txHash := Intent.txHash i;
     IntentView.blockNumber := Intent.blockNumber i |}.

Definition statusSummary (status : BatchStatus) (poolSize : nat)
    (threshold : option Z) (confidence : float) : string :=
  match status with
  | EXECUTING => "🚀 Executing batch transaction..."
  | ERROR => "❌ Batch execution failed. Retrying..."
  | _ =>
      if (poolSize =? 0)%nat then "⏳ Waiting for intents..."
      else ("💡 " ++ lengthToString poolSize ++ "/" ++ numberToString threshold
            ++ " intents pooled — AI Gas Confidence: "
            ++ toFixed1 (confidence * 100)%float ++ "%")%string
  end.

(** The handler of [GET /api/status]: the answer and the relayer after the
    call of [getStatus]. *)
Definition apiStatus (now : Z) (r : AegisRelayer) : StatusReply.t * AegisRelayer :=
  let (st, r1) := getStatus now r in
  let poolSize := length (pooledOf r1 st) in
  let threshold := RelayerState.batchSizeThreshold st in
  let aiState := aiStateOf r1 st in
  ({| StatusReply.status := RelayerState.status st;
      StatusReply.pooledIntents := poolSize;
      StatusReply.batchSizeThreshold := threshold;
      StatusReply.aiReady := AiState.isReady aiState;
      StatusReply.currentGasGwei := AiState.currentGasGwei aiState;
      StatusReply.aiConfidence := AiState.confidenceScore aiState;
      StatusReply.summary :=
        statusSummary (RelayerState.status st) poolSize threshold
          (AiState.confidenceScore aiState);
      StatusReply.intents := map intentView (pooledOf r1 st);
      StatusReply.lastBatch := lastBatchOf r1 st;
      StatusReply.stats :=
        {| Stats.totalBatchesExecuted := RelayerState.totalBatchesExecuted st;
           Stats.totalIntentsProcessed := RelayerState.totalIntentsProcessed st;
           Stats.uptimeSec := RelayerState.uptime st |} |},
   r1).

(** The object literal of the handler, once [parseEther] has returned. *)
Definition simulatedIntent (req : SimulateRequest.t) (wei : Z)
    (st : RelayerState.t) (r1 : AegisRelayer) (tReceived : Z) : RawIntent.t :=
  {| RawIntent.sender := nullishOr (SimulateRequest.sender req) (JString demoSender);
     RawIntent.receiver := SimulateRequest.receiver req;
     RawIntent.amount := wei;
     RawIntent.intentIndex :=
       RelayerState.totalIntentsProcessed st + Z.of_nat (length (pooledOf r1 st));
     RawIntent.receivedAt := tReceived;
     RawIntent.txHash := zeroHash;
     RawIntent.blockNumber := 0 |}.

(** The handler of [POST /api/simulate-intent]. The clock is read three
    times: by [getStatus], for [receivedAt], and by [handleIntent]. An
    error thrown in the handler reaches the error handler at the end of the
    file, which answers 500. The destructuring throws on a body that is
    [undefined] or [null], before anything else; [parseEther] throws after
    [getStatus] has run; and the log line of [handleIntent] throws after the
    push and [syncState], when the sender or the receiver has no [slice]. *)
Definition simulateIntent (body : JsValue) (tStatus tReceived tHandled : Z)
    (r : AegisRelayer) : SimulateOutcome :=
  match destructure body with
  | None => Handled (Refused 500 "Internal server error") r
  | Some req =>
      if negb (jsTruthy (SimulateRequest.receiver req))
         || negb (jsTruthy (SimulateRequest.amount req))
      then Handled (Refused 400 "receiver and amount are required") r
      else
        let (st, r1) := getStatus tStatus r in
        match parseEther (SimulateRequest.amount req) with
        | None => Handled (Refused 500 "Internal server error") r1
        | Some wei =>
            let object := simulatedIntent req wei st r1 tReceived in
            match typedIntent object with
            | Some intent =>
                Handled (Injected "Intent injected into pool")
                  (handleIntent intent tHandled r1)
            | None =>
                Untyped
                  (if logThrows object
                   then Refused 500 "Internal server error"
                   else Injected "Intent injected into pool")
                  r1 object
            end
        end
  end.

End Server.

(* ------------------------------------------------------------------------- *)
(** ** Sample data                                                            *)
(* ------------------------------------------------------------------------- *)

(** One runtime, to run the model on concrete inputs. The conversions follow
    the library functions on the values used below; [Math_exp] is the limit
    formula cut at 2^20, close to the real function and not equal to it. *)
Module Sample.

Definition floatOfZ (z : Z) : float :=
  SF2Prim (binary_normalize prec emax z 0 false).

Definition zOfFloat (x : float) : Z :=
  match Prim2SF x with
  | S754_finite s m e =>
      let v := if 0 <=? e then Z.pos m * 2 ^ e else Z.pos m / 2 ^ (- e) in
      if s then - v else v
  | _ => 0
  end.

Definition decimal (z : Z) : string := NilZero.string_of_int (Z.to_int z).

Fixpoint stripZeros (s : string) : string :=
  match s with
  | EmptyString => EmptyString
  | String c rest =>
      match stripZeros rest with
      | EmptyString => if Ascii.eqb c "0"%char then EmptyString else String c EmptyString
      | t => String c t
      end
  end.

Definition formatUnits (decimals : nat) (wei : Z) : string :=
  let unit := 10 ^ Z.of_nat decimals in
  let a := Z.abs wei in
  let frac := stripZeros (substring 1 decimals (decimal (unit + a mod unit))) in
  String.concat ""
    [ (if wei <? 0 then "-"%string else ""%string); decimal (a / unit); "."%string;
      (if String.eqb frac ""%string then "0"%string else frac) ].

Definition toFixed (x : float) : string :=
  let n := zOfFloat (abs x * 100 + 0.5)%float in
  String.concat ""
    [ (if (x <? 0)%float then "-"%string else ""%string); decimal (n / 100); "."%string;
      substring 1 2 (decimal (100 + n mod 100)) ].

Definition exp (x : float) : float :=
  Nat.iter 20 (fun y => (y * y)%float) (1 + x / 1048576)%float.

Definition runtime : Runtime :=
  {| Math_exp := exp;
     gweiOfWei := fun wei => (floatOfZ wei / 1000000000)%float;
     toFixed2 := toFixed;
     formatEther := formatUnits 18 |}.

(** A network of the shape the constructor builds (10, 5, 1), every draw
    of [Math.random() * 2 - 1] being [0]. *)
Definition net0 : SimpleNeuralNetwork :=
  {| weightsInputHidden := repeat (repeat 0%float 5) 10;
     weightsHiddenOutput := repeat [0%float] 5;
     biasHidden := repeat 0%float 5;
     biasOutput := [0%float];
     inputSize := 10; hiddenSize := 5; outputSize := 1 |}.

(** Another network of that shape, within the range of the draws: the
    hidden units weigh the five oldest samples by [-0.9] and the five newest
    by [0.9]. *)
Definition skewedNet : SimpleNeuralNetwork :=
  {| weightsInputHidden :=
       map (fun i => repeat (if (i <? 5)%nat then (-0.9)%float else 0.9%float) 5)
           (seq 0 10);
     weightsHiddenOutput := repeat [0.9%float] 5;
     biasHidden := repeat 0%float 5;
     biasOutput := [(-0.9)%float];
     inputSize := 10; hiddenSize := 5; outputSize := 1 |}.

(** A deposit of [units] ether to receiver [to], the [index]-th intent. *)
Definition intent (index : Z) (to : string) (units : Z) : Intent.t :=
  {| Intent.sender := "0xDEMO000000000000000000000000000000000001";
     Intent.receiver := to;
     Intent.amount := units * 10 ^ 18;
     Intent.intentIndex := index;
     Intent.receivedAt := 1000 + index;
     Intent.txHash := "0x00";
     Intent.blockNumber := 0 |}.

Definition a := intent 0 "0xA" 1.
Definition b := intent 1 "0xB" 1.
Definition c := intent 2 "0xC" 1.
Definition d := intent 3 "0xD" 1.
Definition e := intent 4 "0xE" 1.

Definition relayer (threshold : Z) : AegisRelayer :=
  newRelayer {| Config.batchSizeThreshold := Some threshold |} net0 1000.

(** The vault confirms the batch with transaction [hash]. *)
Definition confirmed (hash : string) : Ledger.t :=
  {| Ledger.vaultBalance := Some (100 * 10 ^ 18);
     Ledger.estimateGas := Some 21000;
     Ledger.sendTransaction := Some hash;
     Ledger.wait := true |}.

(** The vault holds nothing: the balance check throws. *)
Definition emptyVault : Ledger.t :=
  {| Ledger.vaultBalance := Some 0;
     Ledger.estimateGas := None;
     Ledger.sendTransaction := None;
     Ledger.wait := false |}.

(** The submission is rejected. *)
Definition rejected : Ledger.t :=
  {| Ledger.vaultBalance := Some (100 * 10 ^ 18);
     Ledger.estimateGas := Some 21000;
     Ledger.sendTransaction := None;
     Ledger.wait := false |}.

(** The event of the vault announcing [i]. *)
Definition arrive (i : Intent.t) : Event :=
  IntentRegistered i (Intent.receivedAt i).

(** A batch of two is drained and fails against an empty vault. *)
Definition firstFailure : list Event :=
  [arrive a; arrive b; Settled 0 emptyVault 1010].

(** Ten samples in wei, from 10 gwei down to 1 gwei. *)
Definition fallingFees : list Z :=
  map (fun gwei => gwei * 10 ^ 9) [10; 9; 8; 7; 6; 5; 4; 3; 2; 1].

(** Ten samples in wei, one wei apart, from [2^30] gwei and 9 wei down to
    [2^30] gwei: the doubles around [2^30] are [2^-22] apart, so all ten
    are the same number of gwei. *)
Definition indistinctFees : list Z :=
  map (fun k => 2 ^ 30 * 10 ^ 9 + k) [9; 8; 7; 6; 5; 4; 3; 2; 1; 0].

(** Ten samples in wei, from 1009 gwei down to 1000 gwei. *)
Definition slowlyFallingFees : list Z :=
  map (fun gwei => gwei * 10 ^ 9)
      [1009; 1008; 1007; 1006; 1005; 1004; 1003; 1002; 1001; 1000].

End Sample.

(* ------------------------------------------------------------------------- *)
(** ** binary64 arithmetic                                                    *)
(* ------------------------------------------------------------------------- *)

(** Facts about the operations of primitive floats, derived from their
    specification in [SpecFloat]: the sign of a rounded result, and how far
    rounding can move a sum or a difference with one half. *)
Module Binary64.

Lemma digits2_pos_bounds (p : positive) :
  2 ^ (Zpos (digits2_pos p) - 1) <= Zpos p < 2 ^ Zpos (digits2_pos p).
Proof.
  induction p as [p IH|p IH|]; simpl digits2_pos.
  - rewrite Pos2Z.inj_succ, Z.pow_succ_r by lia.
    replace (Z.succ (Zpos (digits2_pos p)) - 1) with (Z.succ (Zpos (digits2_pos p) - 1)) by lia.
    rewrite Z.pow_succ_r by lia. lia.
  - rewrite Pos2Z.inj_succ, Z.pow_succ_r by lia.
    replace (Z.succ (Zpos (digits2_pos p)) - 1) with (Z.succ (Zpos (digits2_pos p) - 1)) by lia.
    rewrite Z.pow_succ_r by lia. lia.
  - simpl. lia.
Qed.

Lemma shr_1_m (mrs : shr_record) :
  0 <= shr_m mrs -> shr_m (shr_1 mrs) = shr_m mrs / 2.
Proof.
  destruct mrs as [m r s]. simpl. intros Hm.
  rewrite <- Z.div2_div.
  destruct m as [|[p|p|]|p]; try reflexivity. lia.
Qed.

Lemma iter_shr_1_m (p : positive) (mrs : shr_record) :
  0 <= shr_m mrs -> shr_m (iter_pos shr_1 p mrs) = shr_m mrs / 2 ^ Zpos p.
Proof.
  revert mrs. induction p as [p IH|p IH|]; intros mrs Hm; simpl iter_pos.
  - assert (H1 : 0 <= shr_m (shr_1 mrs))
      by (rewrite shr_1_m by exact Hm; apply Z.div_pos; lia).
    assert (H2 : 0 <= shr_m (iter_pos shr_1 p (shr_1 mrs)))
      by (rewrite IH by exact H1; apply Z.div_pos; [exact H1 | lia]).
    rewrite IH by exact H2. rewrite IH by exact H1. rewrite shr_1_m by exact Hm.
    rewrite !Z.div_div by lia.
    f_equal.
    replace (Zpos p~1) with (1 + Zpos p + Zpos p) by lia.
    rewrite !Z.pow_add_r by lia. change (2 ^ 1) with 2. ring.
  - assert (H2 : 0 <= shr_m (iter_pos shr_1 p mrs))
      by (rewrite IH by exact Hm; apply Z.div_pos; [exact Hm | lia]).
    rewrite IH by exact H2. rewrite IH by exact Hm.
    rewrite Z.div_div by lia.
    f_equal.
    replace (Zpos p~0) with (Zpos p + Zpos p) by lia.
    rewrite Z.pow_add_r by lia. reflexivity.
  - rewrite shr_1_m by exact Hm. reflexivity.
Qed.

Lemma shr_spec (mrs : shr_record) (e n : Z) :
  0 <= shr_m mrs ->
  snd (shr mrs e n) = e + Z.max 0 n
  /\ shr_m (fst (shr mrs e n)) = shr_m mrs / 2 ^ Z.max 0 n.
Proof.
  intros Hm. destruct n as [|p|p]; simpl.
  - rewrite Z.div_1_r. split; lia.
  - split; [reflexivity|]. apply iter_shr_1_m. exact Hm.
  - rewrite Z.div_1_r. split; lia.
Qed.

Lemma shr_record_of_loc_m (m : Z) (l : location) :
  shr_m (shr_record_of_loc m l) = m.
Proof. destruct l as [|[]]; reflexivity. Qed.

Lemma round_nearest_even_bounds (m : Z) (l : location) :
  m <= round_nearest_even m l <= m + 1.
Proof. destruct l as [|[]]; simpl; try destruct (Z.even m); lia. Qed.

Definition round_core (m e : Z) (l : location) : Z * Z :=
  let '(mrs', e') := shr_fexp prec emax m e l in
  let '(mrs'', e'') :=
    shr_fexp prec emax
      (round_nearest_even (shr_m mrs') (loc_of_shr_record mrs')) e' loc_Exact in
  (shr_m mrs'', e'').

Lemma binary_round_aux_core (s : bool) (m e : Z) (l : location) :
  binary_round_aux prec emax s m e l =
  match fst (round_core m e l) with
  | Z0 => S754_zero s
  | Zpos p =>
      if snd (round_core m e l) <=? emax - prec
      then S754_finite s p (snd (round_core m e l))
      else S754_infinity s
  | Zneg _ => S754_nan
  end.
Proof.
  unfold binary_round_aux, round_core.
  destruct (shr_fexp prec emax m e l) as [mrs' e'].
  destruct (shr_fexp prec emax _ e' loc_Exact) as [mrs'' e''].
  reflexivity.
Qed.

Lemma round_core_spec (m e : Z) (l : location) :
  0 <= m ->
  let n := Z.max 0 (fexp prec emax (Zdigits2 m + e) - e) in
  exists mr : Z,
    m / 2 ^ n <= mr <= m / 2 ^ n + 1
    /\ let n2 := Z.max 0 (fexp prec emax (Zdigits2 mr + (e + n)) - (e + n)) in
       fst (round_core m e l) = mr / 2 ^ n2
       /\ snd (round_core m e l) = e + n + n2.
Proof.
  intros Hm. cbv zeta. unfold round_core, shr_fexp.
  destruct (shr_spec (shr_record_of_loc m l) e
              (fexp prec emax (Zdigits2 m + e) - e)) as [He' Hm'].
  { rewrite shr_record_of_loc_m. exact Hm. }
  rewrite shr_record_of_loc_m in Hm'.
  destruct (shr (shr_record_of_loc m l) e _) as [mrs' e']. simpl in He', Hm'.
  set (mr := round_nearest_even (shr_m mrs') (loc_of_shr_record mrs')).
  assert (Hmr : shr_m mrs' <= mr <= shr_m mrs' + 1)
    by apply round_nearest_even_bounds.
  assert (Hm'0 : 0 <= shr_m mrs')
    by (rewrite Hm'; apply Z.div_pos; [exact Hm | apply Z.pow_pos_nonneg; lia]).
  destruct (shr_spec (shr_record_of_loc mr loc_Exact) e'
              (fexp prec emax (Zdigits2 mr + e') - e')) as [He'' Hm''].
  { simpl. lia. }
  simpl shr_record_of_loc in *.
  destruct (shr _ e' _) as [mrs'' e'']. simpl in He'', Hm''. simpl fst. simpl snd.
  exists mr. rewrite <- Hm', <- He'. repeat split; try lia.
Qed.

Lemma fexp_shift_le (d e : Z) :
  emin <= e -> 1 <= d ->
  Z.max 0 (fexp prec emax (d + e) - e) <= d - 1.
Proof. unfold fexp, SpecFloat.emin, prec, emax. lia. Qed.

Lemma Zdigits2_bounds (m : Z) :
  0 < m -> 1 <= Zdigits2 m /\ 2 ^ (Zdigits2 m - 1) <= m < 2 ^ Zdigits2 m.
Proof.
  destruct m as [|p|p]; try lia. intros _. simpl Zdigits2.
  split; [lia | apply digits2_pos_bounds].
Qed.

Lemma div_pow2_ge_1 (m n d : Z) :
  0 <= n <= d - 1 -> 2 ^ (d - 1) <= m -> 1 <= m / 2 ^ n.
Proof.
  intros Hn Hm.
  apply Z.div_le_lower_bound; [apply Z.pow_pos_nonneg; lia|].
  rewrite Z.mul_1_r.
  apply Z.le_trans with (2 ^ (d - 1)); [|exact Hm].
  apply Z.pow_le_mono_r; lia.
Qed.

(** Rounding a non-negative integer never gives a negative mantissa. *)
Lemma round_core_nonneg (m e : Z) (l : location) :
  0 <= m -> 0 <= fst (round_core m e l).
Proof.
  intros Hm. destruct (round_core_spec m e l Hm) as (mr & Hmr & Hfst & _).
  rewrite Hfst. apply Z.div_pos; [|apply Z.pow_pos_nonneg; lia].
  assert (0 <= m / 2 ^ Z.max 0 (fexp prec emax (Zdigits2 m + e) - e))
    by (apply Z.div_pos; [exact Hm | apply Z.pow_pos_nonneg; lia]).
  lia.
Qed.

(** Above the smallest exponent, rounding a positive integer does not give
    zero, and the exponent does not go below the canonical one. *)
Lemma round_core_positive (m e : Z) (l : location) :
  0 < m -> emin <= e ->
  1 <= fst (round_core m e l)
  /\ fexp prec emax (Zdigits2 m + e) <= snd (round_core m e l).
Proof.
  intros Hm He.
  destruct (round_core_spec m e l) as (mr & Hmr & Hfst & Hsnd); [lia|].
  cbv zeta in Hfst, Hsnd.
  destruct (Zdigits2_bounds m Hm) as [Hd Hdm].
  pose proof (fexp_shift_le (Zdigits2 m) e He Hd) as Hn.
  set (n := Z.max 0 (fexp prec emax (Zdigits2 m + e) - e)) in *.
  assert (Hq : 1 <= m / 2 ^ n)
    by (apply (div_pow2_ge_1 m n (Zdigits2 m)); lia).
  assert (Hmr1 : 0 < mr) by lia.
  destruct (Zdigits2_bounds mr Hmr1) as [Hdr Hdmr].
  assert (He' : emin <= e + n) by lia.
  pose proof (fexp_shift_le (Zdigits2 mr) (e + n) He' Hdr) as Hn2.
  set (n2 := Z.max 0 (fexp prec emax (Zdigits2 mr + (e + n)) - (e + n))) in *.
  split.
  - rewrite Hfst. apply (div_pow2_ge_1 mr n2 (Zdigits2 mr)); lia.
  - rewrite Hsnd. lia.
Qed.

(** The rounded value does not exceed the power of two above the integer. *)
Lemma round_core_upper (m e : Z) (l : location) :
  0 < m -> emin <= e ->
  e <= snd (round_core m e l)
  /\ fst (round_core m e l) * 2 ^ (snd (round_core m e l) - e) <= 2 ^ Zdigits2 m.
Proof.
  intros Hm He.
  destruct (round_core_spec m e l) as (mr & Hmr & Hfst & Hsnd); [lia|].
  cbv zeta in Hfst, Hsnd.
  destruct (Zdigits2_bounds m Hm) as [Hd Hdm].
  pose proof (fexp_shift_le (Zdigits2 m) e He Hd) as Hn.
  set (n := Z.max 0 (fexp prec emax (Zdigits2 m + e) - e)) in *.
  set (n2 := Z.max 0 (fexp prec emax (Zdigits2 mr + (e + n)) - (e + n))) in *.
  assert (Hn0 : 0 <= n) by (unfold n; lia).
  assert (Hn20 : 0 <= n2) by (unfold n2; lia).
  split; [lia|].
  rewrite Hfst, Hsnd.
  replace (e + n + n2 - e) with (n2 + n) by lia.
  rewrite Z.pow_add_r by lia.
  assert (Hpn : 0 < 2 ^ n) by (apply Z.pow_pos_nonneg; lia).
  assert (Hpn2 : 0 < 2 ^ n2) by (apply Z.pow_pos_nonneg; lia).
  assert (H1 : mr / 2 ^ n2 * 2 ^ n2 <= mr)
    by (rewrite Z.mul_comm; apply Z.mul_div_le; lia).
  assert (H2 : m / 2 ^ n + 1 <= 2 ^ (Zdigits2 m - n)).
  { assert (m / 2 ^ n < 2 ^ (Zdigits2 m - n)); [|lia].
    apply Z.div_lt_upper_bound; [lia|].
    rewrite <- Z.pow_add_r by lia.
    replace (n + (Zdigits2 m - n)) with (Zdigits2 m) by lia. lia. }
  assert (H3 : 2 ^ Zdigits2 m = 2 ^ (Zdigits2 m - n) * 2 ^ n).
  { rewrite <- Z.pow_add_r by lia. f_equal. lia. }
  rewrite H3, Z.mul_assoc.
  apply Z.mul_le_mono_nonneg_r; [lia|]. lia.
Qed.

(** A spec float that is not [NaN], not negative and not [-0]. *)
Definition nonneg (x : spec_float) : Prop :=
  match x with
  | S754_zero false | S754_infinity false | S754_finite false _ _ => True
  | _ => False
  end.

(** A spec float that is not [NaN] and carries the sign [s]. *)
Definition signed (s : bool) (x : spec_float) : Prop :=
  match x with
  | S754_zero s' | S754_infinity s' | S754_finite s' _ _ => s' = s
  | S754_nan => False
  end.

Lemma signed_false_nonneg (x : spec_float) : signed false x -> nonneg x.
Proof. destruct x as [[]|[]| |[] m e]; simpl; intros H; try discriminate; auto. Qed.

Lemma binary_round_aux_signed (s : bool) (m e : Z) (l : location) :
  0 <= m -> signed s (binary_round_aux prec emax s m e l).
Proof.
  intros Hm. rewrite binary_round_aux_core.
  pose proof (round_core_nonneg m e l Hm) as Hfst.
  destruct (fst (round_core m e l)) as [|p|p]; simpl.
  - reflexivity.
  - destruct (_ <=? _); reflexivity.
  - lia.
Qed.

Lemma Pos_iter_xO (m d : positive) :
  Zpos (Pos.iter xO m d) = Zpos m * 2 ^ Zpos d
  /\ Zpos (digits2_pos (Pos.iter xO m d)) = Zpos (digits2_pos m) + Zpos d.
Proof.
  induction d as [|d IH] using Pos.peano_ind.
  - simpl. split; lia.
  - rewrite Pos.iter_succ. destruct IH as [IHv IHd].
    simpl digits2_pos. rewrite Pos2Z.inj_xO, IHv, !Pos2Z.inj_succ, IHd.
    rewrite Z.pow_succ_r by lia. split; lia.
Qed.

Lemma shl_align_spec (m : positive) (e e' : Z) :
  let '(mz, ez) := shl_align m e e' in
  ez = Z.min e e'
  /\ Zpos mz = Zpos m * 2 ^ (e - ez)
  /\ Zpos (digits2_pos mz) + ez = Zpos (digits2_pos m) + e.
Proof.
  unfold shl_align. destruct (e' - e) as [|d|d] eqn:Hd.
  - replace (Z.min e e') with e by lia. rewrite Z.sub_diag. simpl. lia.
  - replace (Z.min e e') with e by lia. rewrite Z.sub_diag. simpl. lia.
  - destruct (Pos_iter_xO m d) as [Hv Hdig].
    replace (Z.min e e') with e' by lia.
    replace (e - e') with (Zpos d) by lia. lia.
Qed.

Lemma bounded_facts (m : positive) (e : Z) :
  bounded prec emax m e = true ->
  emin <= e
  /\ Zpos (digits2_pos m) <= prec
  /\ (emin < e -> Zpos (digits2_pos m) = prec).
Proof.
  unfold bounded, canonical_mantissa. intros H.
  apply andb_true_iff in H as [Hc _]. apply Z.eqb_eq in Hc.
  revert Hc. unfold fexp, SpecFloat.emin, prec, emax. lia.
Qed.

(** [binary_round] of a positive integer whose exponent is not below the
    smallest one: the sign is kept, zero is not reached, the exponent is at
    least the canonical one, the value is at most the next power of two,
    and infinity is reached only from above the largest exponent. *)
Lemma binary_round_positive (s : bool) (p : positive) (e : Z) :
  emin <= e ->
  let D := Zpos (digits2_pos p) + e in
  match binary_round prec emax s p e with
  | S754_infinity s' => s' = s /\ emax - prec < D
  | S754_finite s' m' e' =>
      s' = s /\ fexp prec emax D <= e'
      /\ exists ez, ez <= e' /\ Zpos m' * 2 ^ (e' - ez) <= 2 ^ (D - ez)
  | _ => False
  end.
Proof.
  intros He. cbv zeta. unfold binary_round.
  pose proof (shl_align_spec p e (fexp prec emax (Zpos (digits2_pos p) + e))) as Hal.
  destruct (shl_align p e _) as [mz ez]. destruct Hal as (Hez & Hmz & Hdig).
  assert (Hezmin : emin <= ez).
  { rewrite Hez. revert He. unfold fexp, SpecFloat.emin, prec, emax. lia. }
  rewrite binary_round_aux_core.
  destruct (round_core_positive (Zpos mz) ez loc_Exact) as [Hfst Hsnd]; [lia|exact Hezmin|].
  destruct (round_core_upper (Zpos mz) ez loc_Exact) as [Hle Hup]; [lia|exact Hezmin|].
  simpl Zdigits2 in Hsnd, Hup. rewrite Hdig in Hsnd.
  destruct (fst (round_core (Zpos mz) ez loc_Exact)) as [|m'|m']; try lia.
  set (e'' := snd (round_core (Zpos mz) ez loc_Exact)) in *.
  destruct (Z.leb_spec e'' (emax - prec)) as [Hfin|Hover].
  - split; [reflexivity|]. split; [exact Hsnd|].
    exists ez. split; [exact Hle|].
    replace (Zpos (digits2_pos p) + e - ez) with (Zpos (digits2_pos mz)) by lia.
    exact Hup.
  - split; [reflexivity|].
    assert (Hpow : 2 ^ (e'' - ez) <= 2 ^ Zpos (digits2_pos mz)).
    { apply Z.le_trans with (Zpos m' * 2 ^ (e'' - ez)); [|exact Hup].
      assert (0 < 2 ^ (e'' - ez)) by (apply Z.pow_pos_nonneg; lia). nia. }
    apply Z.pow_le_mono_r_iff in Hpow; lia.
Qed.

Lemma binary_normalize_sign (m e : Z) :
  match m with
  | Z0 => binary_normalize prec emax m e false = S754_zero false
  | Zpos _ => signed false (binary_normalize prec emax m e false)
  | Zneg _ => signed true (binary_normalize prec emax m e false)
  end.
Proof.
  destruct m as [|p|p]; simpl; [reflexivity| |];
    unfold binary_round; destruct (shl_align p e _) as [mz ez];
    apply binary_round_aux_signed; lia.
Qed.

(** The integers that [SFadd] and [SFsub] combine compare like the floats. *)
Lemma aligned_compare (m1 m2 : positive) (e1 e2 : Z) :
  bounded prec emax m1 e1 = true -> bounded prec emax m2 e2 = true ->
  let ez := Z.min e1 e2 in
  SFcompare (S754_finite false m1 e1) (S754_finite false m2 e2)
  = Some (Zpos (fst (shl_align m1 e1 ez)) ?= Zpos (fst (shl_align m2 e2 ez))).
Proof.
  intros Hb1 Hb2. cbv zeta.
  destruct (bounded_facts m1 e1 Hb1) as (Hmin1 & Hd1 & Hn1).
  destruct (bounded_facts m2 e2 Hb2) as (Hmin2 & Hd2 & Hn2).
  destruct (digits2_pos_bounds m1) as [Hlo1 Hhi1].
  destruct (digits2_pos_bounds m2) as [Hlo2 Hhi2].
  pose proof (shl_align_spec m1 e1 (Z.min e1 e2)) as H1.
  pose proof (shl_align_spec m2 e2 (Z.min e1 e2)) as H2.
  destruct (shl_align m1 e1 _) as [v1 z1]. destruct (shl_align m2 e2 _) as [v2 z2].
  destruct H1 as (Hz1 & Hv1 & _). destruct H2 as (Hz2 & Hv2 & _).
  simpl fst. simpl SFcompare. f_equal.
  assert (Hp53 : 2 ^ prec = 2 * 2 ^ (prec - 1)) by reflexivity.
  destruct (Z.compare_spec e1 e2) as [Heq|Hlt|Hgt].
  - subst e2. rewrite Hv1, Hv2, Hz1, Hz2.
    replace (e1 - Z.min e1 (Z.min e1 e1)) with 0 by lia.
    rewrite !Z.mul_1_r. reflexivity.
  - symmetry. apply Z.compare_lt_iff. rewrite Hv1, Hv2, Hz1, Hz2.
    replace (e1 - Z.min e1 (Z.min e1 e2)) with 0 by lia.
    replace (e2 - Z.min e2 (Z.min e1 e2)) with (e2 - e1) by lia.
    rewrite Z.mul_1_r.
    assert (Hd : Zpos (digits2_pos m2) = prec) by (apply Hn2; lia).
    rewrite Hd in Hlo2.
    assert (Hm1 : Zpos m1 < 2 ^ prec).
    { apply Z.lt_le_trans with (2 ^ Zpos (digits2_pos m1)); [exact Hhi1|].
      apply Z.pow_le_mono_r; lia. }
    assert (Hpow : 2 ^ 1 <= 2 ^ (e2 - e1)) by (apply Z.pow_le_mono_r; lia).
    change (2 ^ 1) with 2 in Hpow. nia.
  - symmetry. apply Z.compare_gt_iff. rewrite Hv1, Hv2, Hz1, Hz2.
    replace (e2 - Z.min e2 (Z.min e1 e2)) with 0 by lia.
    replace (e1 - Z.min e1 (Z.min e1 e2)) with (e1 - e2) by lia.
    rewrite Z.mul_1_r.
    assert (Hd : Zpos (digits2_pos m1) = prec) by (apply Hn1; lia).
    rewrite Hd in Hlo1.
    assert (Hm2 : Zpos m2 < 2 ^ prec).
    { apply Z.lt_le_trans with (2 ^ Zpos (digits2_pos m2)); [exact Hhi2|].
      apply Z.pow_le_mono_r; lia. }
    assert (Hpow : 2 ^ 1 <= 2 ^ (e1 - e2)) by (apply Z.pow_le_mono_r; lia).
    change (2 ^ 1) with 2 in Hpow. nia.
Qed.

Definition finite_positive (x : spec_float) : Prop :=
  match x with S754_finite false _ _ => True | _ => False end.

Lemma SFsub_lt_nonneg (a c : spec_float) :
  valid_binary a = true -> valid_binary c = true ->
  finite_positive a -> SFltb c a = true ->
  nonneg (SFsub prec emax a c).
Proof.
  intros Hva Hvc Ha Hlt.
  destruct a as [| | |[] ma ea]; try contradiction.
  destruct c as [sc|[]| |[] mc ec]; try discriminate Hlt; try exact I.
  - unfold SFsub. simpl cond_Zopp.
    apply signed_false_nonneg.
    apply (binary_normalize_sign (Zpos _) _).
  - unfold SFsub, SFltb in *. simpl cond_Zopp.
    rewrite (aligned_compare mc ma ec ea Hvc Hva) in Hlt. cbv zeta in Hlt.
    rewrite (Z.min_comm ea ec).
    set (A := Zpos (fst (shl_align ma ea (Z.min ec ea)))) in *.
    set (C := Zpos (fst (shl_align mc ec (Z.min ec ea)))) in *.
    destruct (Z.compare_spec C A) as [|Hca|]; try discriminate Hlt.
    pose proof (binary_normalize_sign (A - C) (Z.min ec ea)) as Hsign.
    destruct (A - C) eqn:Hd; try lia.
    apply signed_false_nonneg. exact Hsign.
Qed.

Lemma SFsub_ge_nonneg (a c : spec_float) :
  valid_binary a = true -> valid_binary c = true ->
  finite_positive a -> c <> S754_nan -> SFltb c a = false ->
  nonneg (SFsub prec emax c a).
Proof.
  intros Hva Hvc Ha Hnan Hge.
  destruct a as [| | |[] ma ea]; try contradiction.
  destruct c as [sc|[]| |[] mc ec]; try discriminate Hge; try exact I;
    try congruence.
  unfold SFsub, SFltb in *. simpl cond_Zopp.
  rewrite (aligned_compare mc ma ec ea Hvc Hva) in Hge. cbv zeta in Hge.
  set (A := Zpos (fst (shl_align ma ea (Z.min ec ea)))) in *.
  set (C := Zpos (fst (shl_align mc ec (Z.min ec ea)))) in *.
  pose proof (binary_normalize_sign (C - A) (Z.min ec ea)) as Hsign.
  destruct (Z.compare_spec C A) as [Heq|Hlt|Hgt]; try discriminate Hge.
  - replace (C - A) with 0 in * by lia. rewrite Hsign. exact I.
  - destruct (C - A) eqn:Hd; try lia.
    apply signed_false_nonneg. exact Hsign.
Qed.

Lemma SFdiv_nonneg (d a : spec_float) :
  nonneg d -> finite_positive a -> nonneg (SFdiv prec emax d a).
Proof.
  intros Hd Ha.
  destruct a as [| | |[] ma ea]; try contradiction.
  destruct d as [[]|[]| |[] md ed]; try contradiction; try exact I.
  unfold SFdiv, SFdiv_core_binary. cbv zeta.
  set (s := ed - ea - _).
  set (m' := match s with Zpos _ => Z.shiftl (Zpos md) s | Z0 => Zpos md | Zneg _ => 0 end).
  assert (Hm' : 0 <= m').
  { unfold m'. destruct s; try lia. apply Z.shiftl_nonneg. lia. }
  pose proof (Z.div_pos m' (Zpos ma) Hm' ltac:(lia)) as Hq.
  unfold Z.div in Hq.
  destruct (Z.div_eucl m' (Zpos ma)) as [q r]. simpl in Hq.
  apply signed_false_nonneg.
  apply (binary_round_aux_signed false). exact Hq.
Qed.

Lemma SFmul_nonneg (q t : spec_float) :
  nonneg q -> finite_positive t -> nonneg (SFmul prec emax q t).
Proof.
  intros Hq Ht.
  destruct t as [| | |[] mt et]; try contradiction.
  destruct q as [[]|[]| |[] mq eq]; try contradiction; try exact I.
  unfold SFmul. apply signed_false_nonneg.
  apply (binary_round_aux_signed false). lia.
Qed.

Definition half : spec_float := S754_finite false 4503599627370496 (-53).

(** At least one half: [+Infinity], or positive with exponent from [-53]. *)
Definition ge_half (x : spec_float) : Prop :=
  match x with
  | S754_infinity false => True
  | S754_finite false _ e => -53 <= e
  | _ => False
  end.

(** At most one half: negative, a zero, or positive and not above [2^52 *
    2^-53]. *)
Definition le_half (x : spec_float) : Prop :=
  match x with
  | S754_nan => False
  | S754_zero _ => True
  | S754_infinity s => s = true
  | S754_finite s m e => s = true \/ e < -53 \/ (e = -53 /\ Zpos m <= 2 ^ 52)
  end.

Lemma SFadd_half_ge (y : spec_float) :
  valid_binary y = true -> nonneg y ->
  ge_half (SFadd prec emax half y).
Proof.
  intros Hv Hy.
  destruct y as [[]|[]| |[] my ey]; try contradiction.
  - simpl. lia.
  - exact I.
  - simpl.
    destruct (bounded_facts my ey Hv) as (Hmin & _ & _).
    pose proof (shl_align_spec 4503599627370496 (-53) (Z.min (-53) ey)) as Hh.
    pose proof (shl_align_spec my ey (Z.min (-53) ey)) as Hm.
    destruct (shl_align 4503599627370496 (-53) _) as [vh zh].
    destruct (shl_align my ey _) as [vm zm].
    destruct Hh as (Hzh & Hvh & _). destruct Hm as (Hzm & Hvm & _).
    simpl fst. simpl Z.add.
    set (ez := Z.min (-53) ey) in *.
    pose proof (binary_round_positive false (vh + vm) ez) as Hround.
    cbv zeta in Hround.
    assert (Hez : emin <= ez)
      by (revert Hmin; unfold ez, SpecFloat.emin, prec, emax; lia).
    specialize (Hround Hez).
    assert (HD : 0 <= Zpos (digits2_pos (vh + vm)) + ez).
    { destruct (digits2_pos_bounds (vh + vm)) as [_ Hhi].
      assert (Hlow : 2 ^ (-1 - ez) <= Zpos (vh + vm)).
      { rewrite Pos2Z.inj_add, Hvh.
        replace (Z.min (-53) ez) with ez in Hzh by (unfold ez; lia).
        rewrite Hzh.
        change 4503599627370496 with (2 ^ 52).
        rewrite <- Z.pow_add_r by (unfold ez; lia).
        replace (52 + (-53 - ez)) with (-1 - ez) by lia. lia. }
      assert (Hlt : 2 ^ (-1 - ez) < 2 ^ Zpos (digits2_pos (vh + vm))) by lia.
      apply Z.pow_lt_mono_r_iff in Hlt; lia. }
    destruct (binary_round prec emax false (vh + vm) ez) as [| | |s m' e'];
      try contradiction.
    + destruct Hround as [-> _]. exact I.
    + destruct Hround as (-> & Hexp & _).
      simpl. revert Hexp HD. unfold fexp, SpecFloat.emin, prec, emax. lia.
Qed.

Lemma signed_true_le_half (x : spec_float) : signed true x -> le_half x.
Proof.
  destruct x as [s|s| |s m e]; simpl; intros H; try contradiction; auto.
Qed.

Lemma SFsub_half_le (y : spec_float) :
  valid_binary y = true -> nonneg y ->
  valid_binary (SFsub prec emax half y) = true ->
  le_half (SFsub prec emax half y).
Proof.
  intros Hv Hy Hres.
  destruct y as [[]|[]| |[] my ey]; try contradiction.
  - simpl. right. right. split; [reflexivity|]. change (2 ^ 52) with 4503599627370496. lia.
  - reflexivity.
  - unfold SFsub, half in Hres |- *. cbv zeta in Hres |- *.
    unfold cond_Zopp in Hres |- *.
    destruct (bounded_facts my ey Hv) as (Hmin & _ & _).
    pose proof (shl_align_spec 4503599627370496 (-53) (Z.min (-53) ey)) as Hh.
    destruct (shl_align 4503599627370496 (-53) _) as [vh zh].
    destruct (shl_align my ey _) as [vm zm].
    destruct Hh as (Hzh & Hvh & _).
    simpl fst in *.
    set (ez := Z.min (-53) ey) in *.
    assert (Hez : emin <= ez)
      by (revert Hmin; unfold ez, SpecFloat.emin, prec, emax; lia).
    assert (Hvh' : Zpos vh = 2 ^ (-1 - ez)).
    { rewrite Hvh. replace (Z.min (-53) ez) with ez in Hzh by (unfold ez; lia).
      rewrite Hzh. change 4503599627370496 with (2 ^ 52).
      rewrite <- Z.pow_add_r by (unfold ez; lia). f_equal. lia. }
    pose proof (binary_normalize_sign (Zpos vh - Zpos vm) ez) as Hsign.
    destruct (Zpos vh - Zpos vm) as [|p|p] eqn:Hdiff.
    + rewrite Hsign. exact I.
    + clear Hsign. unfold binary_normalize in Hres |- *.
      pose proof (binary_round_positive false p ez Hez) as Hround.
      cbv zeta in Hround.
      assert (HD : Zpos (digits2_pos p) + ez <= -1).
      { destruct (digits2_pos_bounds p) as [Hlo _].
        assert (Hlt : 2 ^ (Zpos (digits2_pos p) - 1) < 2 ^ (-1 - ez)) by lia.
        apply Z.pow_lt_mono_r_iff in Hlt; unfold ez in *; lia. }
      destruct (binary_round prec emax false p ez) as [| | |s m' e'];
        try contradiction.
      * destruct Hround as [_ Hover]. unfold prec, emax in Hover. lia.
      * destruct Hround as (-> & _ & ez0 & Hle & Hup).
        simpl. right.
        destruct (bounded_facts m' e' Hres) as (_ & _ & Hnormal).
        destruct (Z.le_gt_cases e' emin) as [Hsub|Hnorm].
        { left. revert Hsub. unfold SpecFloat.emin, prec, emax. lia. }
        specialize (Hnormal Hnorm).
        destruct (digits2_pos_bounds m') as [Hlo' _].
        rewrite Hnormal in Hlo'. change (2 ^ (prec - 1)) with (2 ^ 52) in Hlo'.
        set (D := Zpos (digits2_pos p) + ez) in *.
        assert (Hpos : 0 < 2 ^ (e' - ez0)) by (apply Z.pow_pos_nonneg; lia).
        assert (HDz : 0 <= D - ez0).
        { destruct (Z.le_gt_cases 0 (D - ez0)) as [|Hneg]; [assumption|].
          rewrite (Z.pow_neg_r 2 (D - ez0)) in Hup by lia. nia. }
        assert (H52 : 2 ^ (52 + (e' - ez0)) <= 2 ^ (D - ez0)).
        { rewrite Z.pow_add_r by lia. nia. }
        apply Z.pow_le_mono_r_iff in H52; try lia.
        destruct (Z.eq_dec e' (-53)) as [He53|]; [|left; lia].
        right. split; [exact He53|].
        assert (HD1 : D = -1) by lia.
        rewrite HD1 in Hup. subst e'.
        replace (-1 - ez0) with (52 + (-53 - ez0)) in Hup by lia.
        rewrite Z.pow_add_r in Hup by lia. nia.
    + apply signed_true_le_half. exact Hsign.
Qed.

(** What the three shapes mean for the comparisons of [targetScore]. *)
Lemma nonneg_not_nan (x : spec_float) : nonneg x -> SFeqb x x = true.
Proof.
  destruct x as [[]|[]| |[] m e]; try contradiction; intros _; try reflexivity.
  unfold SFeqb, SFcompare. rewrite Z.compare_refl.
  fold (Pos.compare m m). rewrite Pos.compare_refl. reflexivity.
Qed.

Lemma ge_half_not_nan (x : spec_float) : ge_half x -> SFeqb x x = true.
Proof.
  destruct x as [[]|[]| |[] m e]; try contradiction; intros _; try reflexivity.
  unfold SFeqb, SFcompare. rewrite Z.compare_refl.
  fold (Pos.compare m m). rewrite Pos.compare_refl. reflexivity.
Qed.

Lemma le_half_not_nan (x : spec_float) : le_half x -> SFeqb x x = true.
Proof.
  destruct x as [[]|[]| |[] m e]; try contradiction; intros _; try reflexivity;
    unfold SFeqb, SFcompare; rewrite Z.compare_refl;
    fold (Pos.compare m m); rewrite Pos.compare_refl; reflexivity.
Qed.

Lemma SFltb_SFleb (x y : spec_float) : SFltb x y = true -> SFleb x y = true.
Proof.
  unfold SFltb, SFleb. destruct (SFcompare x y) as [[]|]; try discriminate.
  reflexivity.
Qed.

Definition floorSF : spec_float := S754_finite false 5764607523034235 (-59).
Definition ceilingSF : spec_float := S754_finite false 8917127262193582 (-53).
Definition twoSF : spec_float := S754_finite false 4503599627370496 (-51).

Lemma Prim2SF_constants :
  Prim2SF 0.01 = floorSF /\ Prim2SF 0.99 = ceilingSF
  /\ Prim2SF 0.5 = half /\ Prim2SF 2 = twoSF.
Proof. vm_compute. repeat split. Qed.

Lemma SFleb_same_exponent (m1 m2 : positive) (e : Z) :
  Zpos m1 <= Zpos m2 ->
  SFleb (S754_finite false m1 e) (S754_finite false m2 e) = true.
Proof.
  intros Hle. unfold SFleb, SFcompare. rewrite Z.compare_refl.
  change (Pos.compare_cont Eq m1 m2) with (Pos.compare m1 m2).
  destruct (Pos.compare_spec m1 m2); try reflexivity. lia.
Qed.

Lemma SFleb_lower_exponent (m1 m2 : positive) (e1 e2 : Z) :
  e1 < e2 ->
  SFleb (S754_finite false m1 e1) (S754_finite false m2 e2) = true.
Proof.
  intros Hlt. unfold SFleb, SFcompare.
  destruct (Z.compare_spec e1 e2); try lia; reflexivity.
Qed.

Lemma ge_half_above_floor (x : spec_float) :
  ge_half x -> SFleb floorSF x = true.
Proof.
  destruct x as [[]|[]| |[] m e]; try contradiction; intros He; try reflexivity.
  simpl in He. apply SFleb_lower_exponent. lia.
Qed.

Lemma le_half_below_ceiling (x : spec_float) :
  le_half x -> SFleb x ceilingSF = true.
Proof.
  destruct x as [[]|[]| |[] m e]; intros He; try contradiction;
    try discriminate He; try reflexivity.
  destruct He as [He|[He|[He Hm]]]; [discriminate| |].
  - apply SFleb_lower_exponent. exact He.
  - subst e. apply SFleb_same_exponent.
    apply Z.le_trans with (2 ^ 52); [exact Hm|].
    apply Z.leb_le. vm_compute. reflexivity.
Qed.

End Binary64.

(* ------------------------------------------------------------------------- *)
(** ** The predictor window                                                   *)
(* ------------------------------------------------------------------------- *)

(** Dropping the head after appending, on a suffix of a list. *)
Lemma tl_skipn_snoc {A : Type} (l : list A) (n : nat) (x : A) :
  (n < length l)%nat ->
  tl (skipn n l ++ [x]) = skipn (S n) (l ++ [x]).
Proof.
  revert n. induction l as [|y l IH]; intros n Hn.
  - simpl in Hn. lia.
  - destruct n as [|n].
    + reflexivity.
    + simpl in Hn. change (skipn (S n) (y :: l)) with (skipn n l).
      change (skipn (S (S n)) ((y :: l) ++ [x])) with (skipn (S n) (l ++ [x])).
      apply IH. lia.
Qed.

Section PredictorProperties.

Variable rt : Runtime.

Lemma trainModel_window (p : AIGasPredictor) :
  historicalFees (trainModel rt p) = historicalFees p.
Proof. reflexivity. Qed.

(** The window after one sample, whatever the training did. *)
Lemma addBlockDataAndTrain_window (w : Z) (p : AIGasPredictor) :
  historicalFees (addBlockDataAndTrain rt w p) =
  let pushed := historicalFees p ++ [gweiOfWei rt w] in
  if (windowSize <? length pushed)%nat then tl pushed else pushed.
Proof.
  unfold addBlockDataAndTrain; cbv zeta.
  destruct (Nat.eqb _ windowSize); reflexivity.
Qed.

(** Below capacity a sample is only appended, and nothing is trained. *)
Lemma addBlockDataAndTrain_cold (w : Z) (p : AIGasPredictor) :
  (S (length (historicalFees p)) < windowSize)%nat ->
  addBlockDataAndTrain rt w p =
  {| net := net p; isTrained := isTrained p;
     historicalFees := historicalFees p ++ [gweiOfWei rt w] |}.
Proof.
  intros Hlen. unfold addBlockDataAndTrain; cbv zeta.
  assert (Hpushed : length (historicalFees p ++ [gweiOfWei rt w])
                    = S (length (historicalFees p)))
    by (rewrite length_app; simpl; lia).
  rewrite Hpushed.
  destruct (Nat.ltb_spec windowSize (S (length (historicalFees p)))); [lia|].
  rewrite Hpushed.
  destruct (Nat.eqb_spec (S (length (historicalFees p))) windowSize); [lia|].
  reflexivity.
Qed.

(** The sample that fills the window triggers [trainModel]. *)
Lemma addBlockDataAndTrain_fills (w : Z) (p : AIGasPredictor) :
  S (length (historicalFees p)) = windowSize ->
  addBlockDataAndTrain rt w p =
  trainModel rt {| net := net p; isTrained := isTrained p;
                   historicalFees := historicalFees p ++ [gweiOfWei rt w] |}.
Proof.
  intros Hlen. unfold addBlockDataAndTrain; cbv zeta.
  assert (Hpushed : length (historicalFees p ++ [gweiOfWei rt w]) = windowSize)
    by (rewrite length_app; simpl; lia).
  rewrite Hpushed, Nat.ltb_irrefl, Hpushed, Nat.eqb_refl.
  reflexivity.
Qed.

(** At capacity the oldest sample leaves and the model is trained again. *)
Lemma addBlockDataAndTrain_full (w : Z) (p : AIGasPredictor) :
  length (historicalFees p) = windowSize ->
  addBlockDataAndTrain rt w p =
  trainModel rt {| net := net p; isTrained := isTrained p;
                   historicalFees := tl (historicalFees p) ++ [gweiOfWei rt w] |}.
Proof.
  intros Hlen. unfold addBlockDataAndTrain; cbv zeta.
  assert (Hpushed : length (historicalFees p ++ [gweiOfWei rt w]) = S windowSize)
    by (rewrite length_app; simpl; lia).
  rewrite Hpushed.
  destruct (Nat.ltb_spec windowSize (S windowSize)); [|lia].
  destruct (historicalFees p) as [|oldest rest] eqn:Hfees; [discriminate|].
  simpl tl.
  assert (Hrest : length (rest ++ [gweiOfWei rt w]) = windowSize)
    by (rewrite length_app; simpl in *; lia).
  rewrite Hrest, Nat.eqb_refl. reflexivity.
Qed.

Lemma absorbAll_app (xs ys : list Z) (p : AIGasPredictor) :
  absorbAll rt (xs ++ ys) p = absorbAll rt ys (absorbAll rt xs p).
Proof. apply fold_left_app. Qed.

(** Before the window is full the predictor is exactly as constructed,
    but for the samples it holds. *)
Lemma absorbAll_cold (net0 : SimpleNeuralNetwork) (samples : list Z) :
  (length samples < windowSize)%nat ->
  absorbAll rt samples (newPredictor net0) =
  {| net := net0; isTrained := false;
     historicalFees := map (gweiOfWei rt) samples |}.
Proof.
  induction samples as [|w samples IH] using rev_ind; intros Hlen.
  - reflexivity.
  - rewrite length_app in Hlen; simpl in Hlen.
    rewrite absorbAll_app, IH by lia. simpl absorbAll.
    rewrite addBlockDataAndTrain_cold
      by (simpl; rewrite length_map; lia).
    simpl. rewrite map_app. reflexivity.
Qed.

(** The tenth sample runs the first training pass, on the ten samples. *)
Lemma absorbAll_first_training (net0 : SimpleNeuralNetwork) (samples : list Z) :
  length samples = windowSize ->
  absorbAll rt samples (newPredictor net0) =
  trainModel rt {| net := net0; isTrained := false;
                   historicalFees := map (gweiOfWei rt) samples |}.
Proof.
  destruct samples as [|w samples _] using rev_ind; intros Hlen.
  - discriminate.
  - rewrite length_app in Hlen; simpl in Hlen.
    rewrite absorbAll_app, absorbAll_cold by lia. simpl absorbAll.
    rewrite addBlockDataAndTrain_fills
      by (simpl; rewrite length_map; lia).
    simpl. rewrite map_app. reflexivity.
Qed.

(** From the first full window on, the predictor is trained and its window
    stays full. *)
Lemma absorbAll_ready (net0 : SimpleNeuralNetwork) (samples : list Z) :
  (windowSize <= length samples)%nat ->
  isTrained (absorbAll rt samples (newPredictor net0)) = true /\
  length (historicalFees (absorbAll rt samples (newPredictor net0))) = windowSize.
Proof.
  induction samples as [|w samples IH] using rev_ind; intros Hlen.
  - simpl in Hlen. unfold windowSize in Hlen. lia.
  - rewrite length_app in Hlen; simpl in Hlen.
    rewrite absorbAll_app. simpl absorbAll.
    destruct (Nat.eq_dec (S (length samples)) windowSize) as [Hfill|Hmore].
    + rewrite absorbAll_cold by lia.
      rewrite addBlockDataAndTrain_fills
        by (simpl; rewrite length_map; lia).
      simpl. rewrite length_app, length_map. simpl. split; [reflexivity|lia].
    + destruct IH as [_ Hfull]; [unfold windowSize in *; lia|].
      rewrite addBlockDataAndTrain_full by exact Hfull.
      simpl. split; [reflexivity|].
      rewrite length_app. simpl.
      destruct (historicalFees (absorbAll rt samples (newPredictor net0)));
        simpl in *; [discriminate | lia].
Qed.

(** The window holds the last [windowSize] samples, oldest first. *)
Lemma absorbAll_window (net0 : SimpleNeuralNetwork) (samples : list Z) :
  historicalFees (absorbAll rt samples (newPredictor net0)) =
  skipn (length samples - windowSize) (map (gweiOfWei rt) samples).
Proof.
  assert (Hw : windowSize = 10%nat) by reflexivity.
  induction samples as [|w samples IH] using rev_ind.
  - reflexivity.
  - rewrite absorbAll_app. simpl absorbAll.
    rewrite addBlockDataAndTrain_window, IH. cbv zeta.
    set (fees := map (gweiOfWei rt) samples).
    assert (Hfees : length fees = length samples) by apply length_map.
    replace (map (gweiOfWei rt) (samples ++ [w])) with (fees ++ [gweiOfWei rt w])
      by (unfold fees; rewrite map_app; reflexivity).
    replace (length (samples ++ [w])) with (S (length samples))
      by (rewrite length_app; simpl; lia).
    rewrite <- Hfees.
    destruct (Nat.le_gt_cases windowSize (length fees)) as [Hfull|Hcold].
    + assert (Hlen : length (skipn (length fees - windowSize) fees ++ [gweiOfWei rt w])
                     = S windowSize)
        by (rewrite length_app, length_skipn; simpl; lia).
      rewrite Hlen.
      destruct (Nat.ltb_spec windowSize (S windowSize)); [|lia].
      replace (S (length fees) - windowSize)%nat
        with (S (length fees - windowSize)) by lia.
      apply tl_skipn_snoc. lia.
    + replace (length fees - windowSize)%nat with O by lia.
      replace (S (length fees) - windowSize)%nat with O by lia.
      simpl skipn.
      destruct (Nat.ltb_spec windowSize (length (fees ++ [gweiOfWei rt w])))
        as [Hover|_]; [|reflexivity].
      rewrite length_app in Hover; simpl in Hover. lia.
Qed.

Lemma isReady_absorbAll (net0 : SimpleNeuralNetwork) (samples : list Z) :
  isReady (absorbAll rt samples (newPredictor net0)) =
  (windowSize <=? length samples)%nat.
Proof.
  unfold isReady.
  destruct (Nat.leb_spec windowSize (length samples)) as [Hfull|Hshort].
  - apply absorbAll_ready. exact Hfull.
  - rewrite absorbAll_cold by exact Hshort. reflexivity.
Qed.

(** C5: while fewer than [windowSize] = 10 samples have been absorbed,
    [shouldExecuteBatch] returns [(false, 0)] for every argument; the
    predictor is ready exactly from the tenth sample on, and the sample
    that first fills the window runs [trainModel] on the ten samples, from
    the network as constructed. *)
Theorem predictor_cold_until_window_full
    (net0 : SimpleNeuralNetwork) (samples : list Z)
    (Hshort : (length samples < windowSize)%nat) :
  (forall fee : Z,
      shouldExecuteBatch rt fee (absorbAll rt samples (newPredictor net0))
      = (false, 0%float))
  /\ (forall more : list Z,
        isReady (absorbAll rt (samples ++ more) (newPredictor net0))
        = (windowSize <=? length (samples ++ more))%nat)
  /\ (forall more : list Z,
        length (samples ++ more) = windowSize ->
        absorbAll rt (samples ++ more) (newPredictor net0)
        = trainModel rt {| net := net0; isTrained := false;
                           historicalFees :=
                             map (gweiOfWei rt) (samples ++ more) |}).
Proof.
  split; [|split].
  - intros fee. rewrite absorbAll_cold by exact Hshort. reflexivity.
  - intros more. apply isReady_absorbAll.
  - intros more Hfull. apply absorbAll_first_training. exact Hfull.
Qed.

(** C8: after any sequence of samples the window holds at most
    [windowSize] = 10 of them, namely the last ones in arrival order; and a
    sample absorbed by a full window takes the place of the oldest one. *)
Theorem window_bounded_and_fifo
    (net0 : SimpleNeuralNetwork) (samples : list Z) (w : Z) :
  let p := absorbAll rt samples (newPredictor net0) in
  (length (historicalFees p) <= windowSize)%nat
  /\ historicalFees p
     = skipn (length samples - windowSize) (map (gweiOfWei rt) samples)
  /\ (length (historicalFees p) = windowSize ->
      historicalFees (addBlockDataAndTrain rt w p)
      = tl (historicalFees p) ++ [gweiOfWei rt w]).
Proof.
  cbv zeta. split; [|split].
  - rewrite absorbAll_window, length_skipn, length_map.
    unfold windowSize. lia.
  - apply absorbAll_window.
  - intros Hfull. rewrite addBlockDataAndTrain_full by exact Hfull.
    reflexivity.
Qed.

(** C10: [shouldExecuteBatch] does not read its argument: for a given
    predictor the answer is the same for any two fee values. *)
Theorem shouldExecuteBatch_ignores_fee (p : AIGasPredictor) (fee1 fee2 : Z) :
  shouldExecuteBatch rt fee1 p = shouldExecuteBatch rt fee2 p.
Proof.
  unfold shouldExecuteBatch.
  destruct (negb (isTrained p) || (length (historicalFees p) <? windowSize)%nat);
    reflexivity.
Qed.

End PredictorProperties.

(* ------------------------------------------------------------------------- *)
(** ** The training label                                                     *)
(* ------------------------------------------------------------------------- *)


(** When the largest and the smallest sample differ by [0], the range is [1]. *)
Lemma feeRange_degenerate (fees : list float) :
  (Js.Math_max fees - Js.Math_min fees =? 0)%float = true ->
  feeRange fees = 1%float.
Proof.
  intros Hzero. unfold feeRange, Js.or, Js.truthy.
  rewrite Hzero, orb_true_r. reflexivity.
Qed.

(** A window of ten equal samples: range [1], every normalised sample [0],
    label [0.5]. *)
Example uniform_window :
  let fees := repeat 5%float 10 in
  feeRange fees = 1%float
  /\ normalize fees = repeat 0%float 10
  /\ targetScore fees = 0.5%float.
Proof. vm_compute. repeat split. Qed.

(** Falling and rising windows: the label moves away from [0.5] by twice
    the relative distance of the last sample to the mean, and is cut at
    [0.99] and at [0.01]. *)
Example falling_and_rising_windows :
  targetScore [9; 8; 8; 8; 8; 8; 8; 8; 8; 7]%float = 0.75%float
  /\ targetScore [7; 8; 8; 8; 8; 8; 8; 8; 8; 9]%float = 0.25%float
  /\ targetScore [10; 9; 8; 7; 6; 5; 4; 3; 2; 1]%float = 0.99%float
  /\ targetScore [1; 2; 3; 4; 5; 6; 7; 8; 9; 10]%float = 0.01%float.
Proof. vm_compute. repeat split. Qed.

Lemma is_nan_false_iff (x : float) :
  Js.is_nan x = false <-> SFeqb (Prim2SF x) (Prim2SF x) = true.
Proof.
  unfold Js.is_nan. rewrite eqb_spec.
  destruct (SFeqb (Prim2SF x) (Prim2SF x)); simpl; split; congruence.
Qed.

Lemma Math_min_ceiling (y : float) :
  Js.is_nan y = false ->
  Js.Math_min [0.99%float; y] = if (y <? 0.99)%float then y else 0.99%float.
Proof.
  intros Hnan. unfold Js.Math_min. simpl existsb. rewrite Hnan.
  change (Js.is_nan 0.99) with false. simpl orb. simpl fold_left.
  change (Js.is_neg_zero 0.99) with false.
  change (Js.is_pos_zero infinity) with false.
  change (0.99 <? infinity)%float with true. cbv iota. simpl andb.
  change (Js.is_pos_zero 0.99) with false.
  rewrite andb_false_r. reflexivity.
Qed.

Lemma Math_max_floor (y : float) :
  Js.is_nan y = false ->
  Js.Math_max [0.01%float; y] = if (0.01 <? y)%float then y else 0.01%float.
Proof.
  intros Hnan. unfold Js.Math_max. simpl existsb. rewrite Hnan.
  change (Js.is_nan 0.01) with false. simpl orb. simpl fold_left.
  change (Js.is_pos_zero 0.01) with false.
  change (neg_infinity <? 0.01)%float with true. cbv iota. simpl andb.
  change (Js.is_neg_zero 0.01) with false.
  rewrite andb_false_r. reflexivity.
Qed.

Lemma Prim2SF_zero_infinity :
  Prim2SF 0 = S754_zero false /\ Prim2SF infinity = S754_infinity false.
Proof. vm_compute. split; reflexivity. Qed.

(** X20: on a window whose mean is positive and finite and whose last sample is
    a number, the label lies between [0.01] and [0.99]. *)
Theorem targetScore_in_range (fees : list float) :
  (0 <? windowAverage fees)%float = true ->
  (windowAverage fees <? infinity)%float = true ->
  Js.is_nan (Js.idx fees (windowSize - 1)) = false ->
  (0.01 <=? targetScore fees)%float = true
  /\ (targetScore fees <=? 0.99)%float = true.
Proof.
  intros Hpos Hfin Hnan. unfold targetScore. cbv zeta.
  set (avg := windowAverage fees) in *.
  set (cur := Js.idx fees (windowSize - 1)) in *.
  destruct Binary64.Prim2SF_constants as (H01 & H99 & H05 & H2).
  destruct Prim2SF_zero_infinity as (H0 & Hinf).
  assert (Ha : Binary64.finite_positive (Prim2SF avg)).
  { rewrite ltb_spec in Hpos, Hfin. rewrite H0 in Hpos. rewrite Hinf in Hfin.
    destruct (Prim2SF avg) as [s|[]| |[] m e]; try discriminate; exact I. }
  assert (Hc : Prim2SF cur <> S754_nan).
  { apply is_nan_false_iff in Hnan. intros Heq. rewrite Heq in Hnan. discriminate. }
  assert (Htwo : Binary64.finite_positive (Prim2SF 2)) by (rewrite H2; exact I).
  destruct (cur <? avg)%float eqn:Hlt; rewrite ltb_spec in Hlt.
  - set (y := (0.5 + (avg - cur) / avg * 2)%float).
    assert (Hy : Binary64.ge_half (Prim2SF y)).
    { unfold y. rewrite add_spec, mul_spec, div_spec, sub_spec, H05.
      apply Binary64.SFadd_half_ge.
      - rewrite <- sub_spec, <- div_spec, <- mul_spec. apply Prim2SF_valid.
      - apply Binary64.SFmul_nonneg; [|exact Htwo].
        apply Binary64.SFdiv_nonneg; [|exact Ha].
        apply Binary64.SFsub_lt_nonneg; try apply Prim2SF_valid; assumption. }
    assert (Hynan : Js.is_nan y = false)
      by (apply is_nan_false_iff, Binary64.ge_half_not_nan, Hy).
    rewrite (Math_min_ceiling y Hynan).
    destruct (y <? 0.99)%float eqn:Hcut.
    + split.
      * rewrite leb_spec, H01. apply Binary64.ge_half_above_floor, Hy.
      * rewrite leb_spec. apply Binary64.SFltb_SFleb. rewrite <- ltb_spec. exact Hcut.
    + split; reflexivity.
  - set (y := (0.5 - (cur - avg) / avg * 2)%float).
    assert (Hy : Binary64.le_half (Prim2SF y)).
    { unfold y. rewrite sub_spec, mul_spec, div_spec, sub_spec, H05.
      apply Binary64.SFsub_half_le.
      - rewrite <- sub_spec, <- div_spec, <- mul_spec. apply Prim2SF_valid.
      - apply Binary64.SFmul_nonneg; [|exact Htwo].
        apply Binary64.SFdiv_nonneg; [|exact Ha].
        apply Binary64.SFsub_ge_nonneg; try apply Prim2SF_valid; assumption.
      - rewrite <- H05, <- sub_spec, <- div_spec, <- mul_spec, <- sub_spec.
        apply Prim2SF_valid. }
    assert (Hynan : Js.is_nan y = false)
      by (apply is_nan_false_iff, Binary64.le_half_not_nan, Hy).
    rewrite (Math_max_floor y Hynan).
    destruct (0.01 <? y)%float eqn:Hcut.
    + split.
      * rewrite leb_spec. apply Binary64.SFltb_SFleb. rewrite <- ltb_spec. exact Hcut.
      * rewrite leb_spec, H99. apply Binary64.le_half_below_ceiling, Hy.
    + split; reflexivity.
Qed.


(** What follows on the sample runtime: 200 training steps towards [NaN]
    leave [NaN] in the network, the score is [0] from then on, and ten
    ordinary samples later it still is. *)
Example zero_window_poisons_network :
  let p := absorbAll Sample.runtime (repeat 0 10) (newPredictor Sample.net0) in
  let q := absorbAll Sample.runtime Sample.fallingFees p in
  biasOutput (net p) = [nan]
  /\ shouldExecuteBatch Sample.runtime 0 p = (false, 0%float)
  /\ historicalFees q = [10; 9; 8; 7; 6; 5; 4; 3; 2; 1]%float
  /\ shouldExecuteBatch Sample.runtime 0 q = (false, 0%float).
Proof. vm_compute. repeat split. Qed.

(** The label on the windows that the block listener can produce, and the
    range that normalises a window. *)
Lemma ge_half_above_half (x : spec_float) :
  valid_binary x = true -> Binary64.ge_half x -> SFleb Binary64.half x = true.
Proof.
  intros Hv Hx. destruct x as [[]|[]| |[] m e]; try contradiction; [reflexivity|].
  simpl in Hx. destruct (Z.eq_dec e (-53)) as [->|Hne].
  - apply Binary64.SFleb_same_exponent.
    destruct (Binary64.bounded_facts m (-53) Hv) as (_ & _ & Hnormal).
    destruct (Binary64.digits2_pos_bounds m) as [Hlo _].
    rewrite Hnormal in Hlo by (unfold SpecFloat.emin, prec, emax; lia).
    change (2 ^ (prec - 1)) with (Zpos 4503599627370496) in Hlo. exact Hlo.
  - apply Binary64.SFleb_lower_exponent. lia.
Qed.

Lemma le_half_below_half (x : spec_float) :
  Binary64.le_half x -> SFleb x Binary64.half = true.
Proof.
  destruct x as [[]|[]| |[] m e]; intros Hx; try contradiction;
    try discriminate Hx; try reflexivity.
  destruct Hx as [Hs|[He|[-> Hm]]]; [discriminate| |].
  - apply Binary64.SFleb_lower_exponent. exact He.
  - apply Binary64.SFleb_same_exponent. exact Hm.
Qed.

(** On a window whose mean is positive and finite and whose last sample is
    a number, the label lies between [0.01] and [0.99]: at [0.5] or above
    when the last sample is below the mean, at [0.5] or below when it is
    not. *)
Lemma targetScore_direction (fees : list float) :
  (0 <? windowAverage fees)%float = true ->
  (windowAverage fees <? infinity)%float = true ->
  Js.is_nan (Js.idx fees (windowSize - 1)) = false ->
  (0.01 <=? targetScore fees)%float = true
  /\ (targetScore fees <=? 0.99)%float = true
  /\ if (Js.idx fees (windowSize - 1) <? windowAverage fees)%float
     then (0.5 <=? targetScore fees)%float = true
     else (targetScore fees <=? 0.5)%float = true.
Proof.
  intros Hpos Hfin Hnan. unfold targetScore. cbv zeta.
  set (avg := windowAverage fees) in *.
  set (cur := Js.idx fees (windowSize - 1)) in *.
  destruct Binary64.Prim2SF_constants as (H01 & H99 & H05 & H2).
  destruct Prim2SF_zero_infinity as (H0 & Hinf).
  assert (Ha : Binary64.finite_positive (Prim2SF avg)).
  { rewrite ltb_spec in Hpos, Hfin. rewrite H0 in Hpos. rewrite Hinf in Hfin.
    destruct (Prim2SF avg) as [s|[]| |[] m e]; try discriminate; exact I. }
  assert (Hc : Prim2SF cur <> S754_nan).
  { apply is_nan_false_iff in Hnan. intros Heq. rewrite Heq in Hnan. discriminate. }
  assert (Htwo : Binary64.finite_positive (Prim2SF 2)) by (rewrite H2; exact I).
  destruct (cur <? avg)%float eqn:Hlt; rewrite ltb_spec in Hlt.
  - set (y := (0.5 + (avg - cur) / avg * 2)%float).
    assert (Hy : Binary64.ge_half (Prim2SF y)).
    { unfold y. rewrite add_spec, mul_spec, div_spec, sub_spec, H05.
      apply Binary64.SFadd_half_ge.
      - rewrite <- sub_spec, <- div_spec, <- mul_spec. apply Prim2SF_valid.
      - apply Binary64.SFmul_nonneg; [|exact Htwo].
        apply Binary64.SFdiv_nonneg; [|exact Ha].
        apply Binary64.SFsub_lt_nonneg; try apply Prim2SF_valid; assumption. }
    assert (Hynan : Js.is_nan y = false)
      by (apply is_nan_false_iff, Binary64.ge_half_not_nan, Hy).
    rewrite (Math_min_ceiling y Hynan).
    destruct (y <? 0.99)%float eqn:Hcut.
    + split; [|split].
      * rewrite leb_spec, H01. apply Binary64.ge_half_above_floor, Hy.
      * rewrite leb_spec. apply Binary64.SFltb_SFleb. rewrite <- ltb_spec. exact Hcut.
      * rewrite leb_spec, H05. apply ge_half_above_half; [apply Prim2SF_valid|exact Hy].
    + repeat split.
  - set (y := (0.5 - (cur - avg) / avg * 2)%float).
    assert (Hy : Binary64.le_half (Prim2SF y)).
    { unfold y. rewrite sub_spec, mul_spec, div_spec, sub_spec, H05.
      apply Binary64.SFsub_half_le.
      - rewrite <- sub_spec, <- div_spec, <- mul_spec. apply Prim2SF_valid.
      - apply Binary64.SFmul_nonneg; [|exact Htwo].
        apply Binary64.SFdiv_nonneg; [|exact Ha].
        apply Binary64.SFsub_ge_nonneg; try apply Prim2SF_valid; assumption.
      - rewrite <- H05, <- sub_spec, <- div_spec, <- mul_spec, <- sub_spec.
        apply Prim2SF_valid. }
    assert (Hynan : Js.is_nan y = false)
      by (apply is_nan_false_iff, Binary64.le_half_not_nan, Hy).
    rewrite (Math_max_floor y Hynan).
    destruct (0.01 <? y)%float eqn:Hcut.
    + split; [|split].
      * rewrite leb_spec. apply Binary64.SFltb_SFleb. rewrite <- ltb_spec. exact Hcut.
      * rewrite leb_spec, H99. apply Binary64.le_half_below_ceiling, Hy.
      * rewrite leb_spec, H05. apply le_half_below_half, Hy.
    + repeat split.
Qed.





(* ------------------------------------------------------------------------- *)
(** ** Scores on the sample runtime                                           *)
(* ------------------------------------------------------------------------- *)

(** With [Sample.exp] standing in for [Math.exp] and the network drawn as
    all zeros, a falling window scores higher than the same window rising. *)
Example sample_scores_follow_trend :
  let falling := absorbAll Sample.runtime Sample.fallingFees (newPredictor Sample.net0) in
  let rising := absorbAll Sample.runtime (rev Sample.fallingFees) (newPredictor Sample.net0) in
  (snd (shouldExecuteBatch Sample.runtime 0 rising)
   <? snd (shouldExecuteBatch Sample.runtime 0 falling))%float = true.
Proof. vm_compute. reflexivity. Qed.

(** With the same stand-in and the network drawn as [Sample.skewedNet], a
    slowly falling window scores lower than the same window rising: the 200
    steps move both scores towards labels close to [0.5] and do not make
    them cross. This is a fact about [Sample.exp], not about [Math.exp]. *)
Example sample_scores_against_trend :
  let falling :=
    absorbAll Sample.runtime Sample.slowlyFallingFees (newPredictor Sample.skewedNet) in
  let rising :=
    absorbAll Sample.runtime (rev Sample.slowlyFallingFees)
      (newPredictor Sample.skewedNet) in
  (snd (shouldExecuteBatch Sample.runtime 0 falling) <? 0.48)%float = true
  /\ (0.52 <? snd (shouldExecuteBatch Sample.runtime 0 rising))%float = true.
Proof. vm_compute. repeat split. Qed.

(** Samples that differ by less than the spacing of the doubles fill the
    same window whether they fall or rise, and the predictor, which only
    sees the window, ends in the same state. *)
Example indistinct_samples_same_predictor :
  map (gweiOfWei Sample.runtime) Sample.indistinctFees = repeat 1073741824%float 10
  /\ absorbAll Sample.runtime Sample.indistinctFees (newPredictor Sample.skewedNet)
     = absorbAll Sample.runtime (rev Sample.indistinctFees)
         (newPredictor Sample.skewedNet).
Proof. vm_compute. split; reflexivity. Qed.

(* ------------------------------------------------------------------------- *)
(** ** The score and the trend of the samples                                 *)
(* ------------------------------------------------------------------------- *)

Lemma ltb_irrefl (x : float) : (x <? x)%float = false.
Proof.
  rewrite ltb_spec. unfold SFltb.
  destruct (Prim2SF x) as [s|s| |s m e]; try reflexivity.
  - destruct s; reflexivity.
  - unfold SFcompare. destruct s; rewrite Z.compare_refl;
      fold (Pos.compare m m); rewrite Pos.compare_refl; reflexivity.
Qed.

Section SameWindow.

Variable rt : Runtime.

Lemma addBlockDataAndTrain_conversion (w w' : Z) (p : AIGasPredictor) :
  gweiOfWei rt w = gweiOfWei rt w' ->
  addBlockDataAndTrain rt w p = addBlockDataAndTrain rt w' p.
Proof. intros Heq. unfold addBlockDataAndTrain. rewrite Heq. reflexivity. Qed.

(** The predictor only sees the samples as converted to gwei. *)
Lemma absorbAll_conversion (xs ys : list Z) (p : AIGasPredictor) :
  map (gweiOfWei rt) xs = map (gweiOfWei rt) ys ->
  absorbAll rt xs p = absorbAll rt ys p.
Proof.
  revert ys p. induction xs as [|x xs IH]; intros [|y ys] p Heq;
    try discriminate Heq; [reflexivity|].
  simpl in Heq. injection Heq as Hhead Htail.
  simpl. rewrite (addBlockDataAndTrain_conversion x y p Hhead).
  apply IH. exact Htail.
Qed.

End SameWindow.

Section TrendProperties.

Variable rt : Runtime.

(** C6, as the code has it. From the same initial parameters, the
    predictor after a sequence of samples is determined by the samples as
    converted to gwei: two sequences with the same conversions give the
    same predictor and the same answer, whatever their trend. The first
    full window trains the initial network 200 times towards the label of
    that window, and it is the label that follows the trend: for windows
    with a positive finite mean and a last sample that is a number, a
    window whose last sample is below its mean is trained towards [0.5] or
    more, one whose last sample is not below its mean towards [0.5] or
    less. Nothing is stated about the order of the scores. *)
Theorem label_follows_trend (net0 : SimpleNeuralNetwork) :
  (forall (xs ys : list Z) (fee : Z),
      map (gweiOfWei rt) xs = map (gweiOfWei rt) ys ->
      absorbAll rt xs (newPredictor net0) = absorbAll rt ys (newPredictor net0)
      /\ shouldExecuteBatch rt fee (absorbAll rt xs (newPredictor net0))
         = shouldExecuteBatch rt fee (absorbAll rt ys (newPredictor net0)))
  /\ (forall samples : list Z,
        length samples = windowSize ->
        let window := map (gweiOfWei rt) samples in
        net (absorbAll rt samples (newPredictor net0))
        = Nat.iter 200 (train rt (normalize window) [targetScore window]) net0)
  /\ (forall below above : list float,
        (0 <? windowAverage below)%float = true ->
        (windowAverage below <? infinity)%float = true ->
        (0 <? windowAverage above)%float = true ->
        (windowAverage above <? infinity)%float = true ->
        (Js.idx below (windowSize - 1) <? windowAverage below)%float = true ->
        Js.is_nan (Js.idx above (windowSize - 1)) = false ->
        (Js.idx above (windowSize - 1) <? windowAverage above)%float = false ->
        (targetScore above <=? 0.5)%float = true
        /\ (0.5 <=? targetScore below)%float = true).
Proof.
  split; [|split].
  - intros xs ys fee Heq.
    rewrite (absorbAll_conversion rt xs ys (newPredictor net0) Heq).
    split; reflexivity.
  - intros samples Hfull. cbv zeta.
    rewrite (absorbAll_first_training rt net0 samples Hfull).
    unfold trainModel. cbn [net historicalFees]. reflexivity.
  - intros below above Hbpos Hbfin Hapos Hafin Hblt Hanan Hage.
    assert (Hbnan : Js.is_nan (Js.idx below (windowSize - 1)) = false).
    { apply is_nan_false_iff. rewrite ltb_spec in Hblt.
      destruct (Prim2SF (Js.idx below (windowSize - 1))) as [s|s| |s m e];
        try discriminate Hblt; try reflexivity.
      all: unfold SFeqb, SFcompare; destruct s; try reflexivity;
        rewrite Z.compare_refl, ?Pos.compare_cont_refl; reflexivity. }
    pose proof (targetScore_direction below Hbpos Hbfin Hbnan) as (_ & _ & Hb).
    pose proof (targetScore_direction above Hapos Hafin Hanan) as (_ & _ & Ha).
    rewrite Hblt in Hb. rewrite Hage in Ha. split; assumption.
Qed.

End TrendProperties.

(** C6 as stated does not hold. The ten samples of [Sample.indistinctFees]
    fall by one wei each from [2^30] gwei and 9 wei; reversed, they rise.
    Both sequences convert to ten times the same number of gwei, [2^30]:
    the doubles next to it are further away than 9 wei. On the sample
    runtime, and for any runtime that converts them so, any [Math.exp] and
    any initial network, the score after the decreasing sequence is not
    higher than the score after the increasing one: the two predictors are
    the same. *)
Lemma decreasing_and_increasing_samples_score_alike :
  strictlyDecreasing Sample.indistinctFees = true
  /\ strictlyIncreasing (rev Sample.indistinctFees) = true
  /\ length Sample.indistinctFees = windowSize
  /\ length (rev Sample.indistinctFees) = windowSize
  /\ map (gweiOfWei Sample.runtime) Sample.indistinctFees
     = map (gweiOfWei Sample.runtime) (rev Sample.indistinctFees)
  /\ (snd (shouldExecuteBatch Sample.runtime 0
              (absorbAll Sample.runtime (rev Sample.indistinctFees)
                 (newPredictor Sample.skewedNet)))
      <? snd (shouldExecuteBatch Sample.runtime 0
                (absorbAll Sample.runtime Sample.indistinctFees
                   (newPredictor Sample.skewedNet))))%float = false
  /\ forall (rt : Runtime) (net0 : SimpleNeuralNetwork) (fee : Z),
       map (gweiOfWei rt) Sample.indistinctFees
       = map (gweiOfWei rt) (rev Sample.indistinctFees) ->
       let decreasing := absorbAll rt Sample.indistinctFees (newPredictor net0) in
       let increasing :=
         absorbAll rt (rev Sample.indistinctFees) (newPredictor net0) in
       isReady decreasing = true
       /\ isReady increasing = true
       /\ (snd (shouldExecuteBatch rt fee increasing)
           <? snd (shouldExecuteBatch rt fee decreasing))%float = false.
Proof.
  split; [vm_compute; reflexivity|]. split; [vm_compute; reflexivity|].
  split; [reflexivity|]. split; [reflexivity|].
  split; [vm_compute; reflexivity|].
  split; [vm_compute; reflexivity|].
  intros rt net0 fee Hsame. cbv zeta.
  rewrite <- (absorbAll_conversion rt _ _ (newPredictor net0) Hsame).
  split; [|split].
  - rewrite isReady_absorbAll. reflexivity.
  - rewrite isReady_absorbAll. reflexivity.
  - apply ltb_irrefl.
Qed.

(* ------------------------------------------------------------------------- *)
(** ** Enqueueing and the size trigger                                        *)
(* ------------------------------------------------------------------------- *)

(** [syncState] writes [state] and allocates; every private field is left
    as it was. *)
Lemma syncState_private (now : Z) (r : AegisRelayer) :
  intentPool (syncState now r) = intentPool r
  /\ isExecuting (syncState now r) = isExecuting r
  /\ inFlight (syncState now r) = inFlight r
  /\ timers (syncState now r) = timers r
  /\ config (syncState now r) = config r
  /\ gasAI (syncState now r) = gasAI r.
Proof. repeat split. Qed.

Lemma syncState_status (now : Z) (r : AegisRelayer) :
  RelayerState.status (state (syncState now r)) =
  if sticky (RelayerState.status (state r)) then RelayerState.status (state r)
  else poolStatus (intentPool r).
Proof. reflexivity. Qed.

(** The array that [syncState] stores in [state.pooledIntents] is a copy of
    the pool. *)
Lemma syncState_pooledIntents (now : Z) (r : AegisRelayer) :
  deref (syncState now r) (RelayerState.pooledIntents (state (syncState now r)))
  = Some (IntentArray (intentPool r)).
Proof.
  unfold syncState, alloc, deref; simpl.
  rewrite <- app_assoc, nth_error_app2, Nat.sub_diag by lia. reflexivity.
Qed.

(** The guard of [executeBatch] when an activation holds the flag. *)
Lemma executeBatch_busy (now : Z) (r : AegisRelayer) :
  isExecuting r = true -> executeBatch now r = r.
Proof. intros Hbusy. unfold executeBatch. rewrite Hbusy. reflexivity. Qed.

(** [executeBatch] on a free flag and a non-empty pool: the whole pool
    becomes the batch of a new suspended activation. *)
Lemma executeBatch_drains (now : Z) (r : AegisRelayer) :
  isExecuting r = false -> intentPool r <> [] ->
  intentPool (executeBatch now r) = []
  /\ inFlight (executeBatch now r) = inFlight r ++ [intentPool r]
  /\ isExecuting (executeBatch now r) = true
  /\ RelayerState.status (state (executeBatch now r)) = EXECUTING
  /\ timers (executeBatch now r) = timers r.
Proof.
  intros Hfree Hpool. unfold executeBatch. rewrite Hfree.
  destruct (intentPool r) as [|i pool] eqn:Hp; [contradiction|].
  simpl. rewrite Hp. repeat split.
Qed.

(** C1, as the code has it: when the pool, after the append, has reached the
    configured threshold, [handleIntent] calls [executeBatch] whatever the
    predictor holds. If no activation holds the [isExecuting] flag, the call
    drains the pool into one batch that ends with the new intent, leaves the
    pool empty and sets the status to [EXECUTING]. If an activation holds
    the flag, the call returns at once and the intent stays in the pool. *)
Theorem threshold_trigger (r : AegisRelayer) (intent : Intent.t) (now : Z)
    (Hfull : reachesThreshold (length (intentPool r ++ [intent]))
               (Config.batchSizeThreshold (config r)) = true) :
  let r' := handleIntent intent now r in
  if isExecuting r
  then intentPool r' = intentPool r ++ [intent]
       /\ inFlight r' = inFlight r
       /\ isExecuting r' = true
  else intentPool r' = []
       /\ inFlight r' = inFlight r ++ [intentPool r ++ [intent]]
       /\ isExecuting r' = true
       /\ RelayerState.status (state r') = EXECUTING.
Proof.
  cbv zeta. unfold handleIntent.
  set (r1 := syncState now (set_intentPool (intentPool r ++ [intent]) r)).
  assert (Hpool : intentPool r1 = intentPool r ++ [intent]) by reflexivity.
  assert (Hexec : isExecuting r1 = isExecuting r) by reflexivity.
  assert (Hcfg : config r1 = config r) by reflexivity.
  assert (Hfl : inFlight r1 = inFlight r) by reflexivity.
  rewrite Hpool, Hcfg, Hfull.
  destruct (isExecuting r) eqn:Hbusy.
  - rewrite executeBatch_busy by (rewrite Hexec; reflexivity).
    rewrite Hpool, Hfl, Hexec. repeat split.
  - destruct (executeBatch_drains now r1) as (Hp & Hf & He & Hs & _).
    + rewrite Hexec. reflexivity.
    + rewrite Hpool. destruct (intentPool r); discriminate.
    + rewrite Hp, Hf, He, Hs, Hfl, Hpool. repeat split.
Qed.

(** Below the threshold the intent is only appended. *)
Lemma handleIntent_below_threshold (r : AegisRelayer) (intent : Intent.t) (now : Z) :
  reachesThreshold (length (intentPool r ++ [intent]))
    (Config.batchSizeThreshold (config r)) = false ->
  intentPool (handleIntent intent now r) = intentPool r ++ [intent]
  /\ inFlight (handleIntent intent now r) = inFlight r
  /\ isExecuting (handleIntent intent now r) = isExecuting r.
Proof.
  intros Hbelow. unfold handleIntent.
  change (intentPool (syncState now (set_intentPool (intentPool r ++ [intent]) r)))
    with (intentPool r ++ [intent]).
  change (config (syncState now (set_intentPool (intentPool r ++ [intent]) r)))
    with (config r).
  rewrite Hbelow. repeat split.
Qed.

(* ------------------------------------------------------------------------- *)
(** ** The end of an execution                                                *)
(* ------------------------------------------------------------------------- *)

Lemma arrived_app (xs ys : list Event) :
  arrived (xs ++ ys) = arrived xs ++ arrived ys.
Proof. apply flat_map_app. Qed.

Section ExecutionProperties.

Variable rt : Runtime.

(** C4: when the resumed activation gets through its [try] block with the
    transaction [hash], [totalBatchesExecuted] grows by one,
    [totalIntentsProcessed] by the size of the batch, [state.lastBatch]
    points to a new summary holding the hash, the size, the formatted sum
    of the amounts and the time, and the status is [POOLING] if the pool
    holds an intent at that moment and [IDLE] if not. The pool itself is
    not touched. *)
Theorem successful_batch_accounting
    (r : AegisRelayer) (k : nat) (batch : list Intent.t)
    (ledger : Ledger.t) (now : Z) (hash : string)
    (Hbatch : nth_error (inFlight r) k = Some batch)
    (Hok : settlement batch ledger = Some hash) :
  let r' := executeBatch_resume rt k ledger now r in
  RelayerState.totalBatchesExecuted (state r')
  = RelayerState.totalBatchesExecuted (state r) + 1
  /\ RelayerState.totalIntentsProcessed (state r')
     = RelayerState.totalIntentsProcessed (state r) + Z.of_nat (length batch)
  /\ deref r' (RelayerState.lastBatch (state r'))
     = Some (LastBatchObj
               {| LastBatch.txHash := Some hash;
                  LastBatch.batchSize := Z.of_nat (length batch);
                  LastBatch.totalValue := formatEther rt (totalValue batch);
                  LastBatch.executedAt := Some now |})
  /\ RelayerState.status (state r')
     = match intentPool r with [] => IDLE | _ :: _ => POOLING end
  /\ intentPool r' = intentPool r.
Proof.
  cbv zeta. unfold executeBatch_resume. rewrite Hbatch, Hok.
  unfold alloc, syncState, deref.
  destruct (intentPool r) as [|i pool] eqn:Hpool; simpl; rewrite Hpool; simpl;
    repeat split; try exact Hpool;
    rewrite <- !app_assoc, nth_error_app2, Nat.sub_diag by lia; reflexivity.
Qed.

(** What the [catch] and [finally] blocks do, for any activation that
    fails: the batch goes back in front of whatever the pool holds at that
    moment, in its order, the status becomes [ERROR], the flag is cleared
    at once and a timer is set. *)
Lemma failed_batch_returns_to_pool
    (r : AegisRelayer) (k : nat) (batch : list Intent.t)
    (ledger : Ledger.t) (now : Z) :
  nth_error (inFlight r) k = Some batch ->
  settlement batch ledger = None ->
  let r' := executeBatch_resume rt k ledger now r in
  intentPool r' = batch ++ intentPool r
  /\ RelayerState.status (state r') = ERROR
  /\ isExecuting r' = false
  /\ inFlight r' = removeAt k (inFlight r)
  /\ timers r' = match batch ++ intentPool r with
                 | [] => timers r
                 | _ :: _ => S (timers r)
                 end.
Proof.
  intros Hbatch Hfail. cbv zeta. unfold executeBatch_resume.
  rewrite Hbatch, Hfail. simpl.
  destruct (batch ++ intentPool r); repeat split.
Qed.

(** Whatever the outcome, the flag is cleared when the activation ends. *)
Lemma resume_clears_flag
    (r : AegisRelayer) (k : nat) (batch : list Intent.t)
    (ledger : Ledger.t) (now : Z) :
  nth_error (inFlight r) k = Some batch ->
  isExecuting (executeBatch_resume rt k ledger now r) = false.
Proof.
  intros Hbatch. unfold executeBatch_resume. rewrite Hbatch.
  destruct (settlement batch ledger); unfold alloc; simpl.
  - destruct (intentPool r); reflexivity.
  - destruct (batch ++ intentPool r); reflexivity.
Qed.

(** While one activation holds the flag and neither it nor a timer
    completes, every event leaves the flag and the suspended activations
    alone, and the pool only grows by the intents that arrive. *)
Lemma quiet_step (r : AegisRelayer) (e : Event) :
  isExecuting r = true -> quiet e = true ->
  intentPool (step rt r e) = intentPool r ++ arrived [e]
  /\ inFlight (step rt r e) = inFlight r
  /\ isExecuting (step rt r e) = true.
Proof.
  intros Hbusy Hquiet. destruct e as [intent now|fee now| | |now|];
    try discriminate Hquiet; simpl.
  - destruct (reachesThreshold (length (intentPool r ++ [intent]))
                (Config.batchSizeThreshold (config r))) eqn:Hth.
    + unfold handleIntent.
      change (intentPool (syncState now (set_intentPool (intentPool r ++ [intent]) r)))
        with (intentPool r ++ [intent]).
      change (config (syncState now (set_intentPool (intentPool r ++ [intent]) r)))
        with (config r).
      rewrite Hth, executeBatch_busy by exact Hbusy.
      repeat split. exact Hbusy.
    + destruct (handleIntent_below_threshold r intent now Hth) as (Hp & Hf & He).
      rewrite Hp, Hf, He. repeat split. exact Hbusy.
  - rewrite app_nil_r. unfold onBlock.
    destruct fee as [baseFee|]; [|repeat split; exact Hbusy].
    destruct (baseFee =? 0); [repeat split; exact Hbusy|].
    destruct (shouldExecuteBatch rt baseFee _) as [executeAI score].
    set (r1 := set_gas _ _ _ r).
    assert (H1 : intentPool r1 = intentPool r /\ inFlight r1 = inFlight r
                 /\ isExecuting r1 = true) by (repeat split; exact Hbusy).
    destruct (isReady _); [|exact H1].
    destruct (executeAI && _); [|exact H1].
    rewrite executeBatch_busy by apply H1. exact H1.
  - rewrite app_nil_r. repeat split. exact Hbusy.
  - rewrite app_nil_r. repeat split. exact Hbusy.
Qed.

Lemma quiet_events (events : list Event) (r : AegisRelayer) :
  isExecuting r = true -> forallb quiet events = true ->
  intentPool (dispatch rt events r) = intentPool r ++ arrived events
  /\ inFlight (dispatch rt events r) = inFlight r
  /\ isExecuting (dispatch rt events r) = true.
Proof.
  revert r. induction events as [|e events IH]; intros r Hbusy Hquiet.
  - simpl. rewrite app_nil_r. repeat split. exact Hbusy.
  - simpl in Hquiet. apply andb_true_iff in Hquiet as [He Hrest].
    destruct (quiet_step r e Hbusy He) as (Hp & Hf & Hx).
    destruct (IH (step rt r e) Hx Hrest) as (Hp' & Hf' & Hx').
    change (dispatch rt (e :: events) r) with (dispatch rt events (step rt r e)).
    rewrite Hp', Hf', Hx', Hp, Hf, <- app_assoc.
    change (e :: events) with ([e] ++ events).
    rewrite arrived_app. repeat split.
Qed.

(** X14: an attempt that no other activation overlaps: from a free flag, no
    suspended activation and a non-empty pool, [executeBatch] drains; the
    events [during] are handled while the attempt is in flight, none of them
    a timer; the attempt fails. The pool is then the drained sequence
    followed by the intents that arrived during the attempt, and the status
    is [ERROR]. *)
Lemma failed_attempt_restores_pool
    (r : AegisRelayer) (t0 t1 : Z) (during : list Event) (ledger : Ledger.t) :
  isExecuting r = false -> inFlight r = [] -> intentPool r <> [] ->
  forallb quiet during = true ->
  settlement (intentPool r) ledger = None ->
  let r' := dispatch rt (during ++ [Settled 0 ledger t1]) (executeBatch t0 r) in
  intentPool r' = intentPool r ++ arrived during
  /\ RelayerState.status (state r') = ERROR.
Proof.
  intros Hfree Hnone Hpool Hquiet Hfail. cbv zeta.
  destruct (executeBatch_drains t0 r Hfree Hpool) as (Hp & Hf & He & _).
  unfold dispatch. rewrite fold_left_app. simpl fold_left.
  fold (dispatch rt during (executeBatch t0 r)).
  destruct (quiet_events during (executeBatch t0 r) He Hquiet) as (Hp' & Hf' & _).
  set (r1 := dispatch rt during (executeBatch t0 r)) in *.
  assert (Hk : nth_error (inFlight r1) 0 = Some (intentPool r))
    by (rewrite Hf', Hf, Hnone; reflexivity).
  destruct (failed_batch_returns_to_pool r1 0 (intentPool r) ledger t1 Hk Hfail)
    as (Hq & Hs & _).
  rewrite Hq, Hs, Hp', Hp. repeat split.
Qed.

End ExecutionProperties.

(* ------------------------------------------------------------------------- *)
(** ** Snapshots                                                              *)
(* ------------------------------------------------------------------------- *)

Lemma extends_refl (r : AegisRelayer) : extends r r.
Proof. exists []. symmetry. apply app_nil_r. Qed.

Lemma extends_trans (r1 r2 r3 : AegisRelayer) :
  extends r1 r2 -> extends r2 r3 -> extends r1 r3.
Proof.
  intros [xs Hxs] [ys Hys]. exists (xs ++ ys).
  rewrite Hys, Hxs, app_assoc. reflexivity.
Qed.

Lemma allocatedIn_app (objs added : list Obj) (ref : Ref) :
  allocatedIn objs ref -> allocatedIn (objs ++ added) ref.
Proof. destruct ref; simpl; [tauto|]. rewrite length_app. lia. Qed.

Lemma refsAllocated_app (objs added : list Obj) (s : RelayerState.t) :
  refsAllocated objs s -> refsAllocated (objs ++ added) s.
Proof. intros (Hp & Hl & Ha). repeat split; apply allocatedIn_app; assumption. Qed.

(** An allocated object is found unchanged in any extension of the store. *)
Lemma deref_extends (r r' : AegisRelayer) (ref : Ref) :
  extends r r' -> allocatedIn (store r) ref -> deref r' ref = deref r ref.
Proof.
  intros [added Hadded] Halloc. destruct ref as [|n]; [contradiction|].
  simpl in *. rewrite Hadded. apply nth_error_app1. exact Halloc.
Qed.

Lemma contents_extends (r r' : AegisRelayer) (snap : RelayerState.t) :
  extends r r' -> refsAllocated (store r) snap ->
  contents r' snap = contents r snap.
Proof.
  intros Hext (Hp & Hl & Ha). unfold contents.
  rewrite !(deref_extends r r') by assumption. reflexivity.
Qed.

Lemma syncState_extends (now : Z) (r : AegisRelayer) : extends r (syncState now r).
Proof.
  eexists. unfold syncState, alloc; simpl. rewrite <- app_assoc. reflexivity.
Qed.

Lemma syncState_wellFormed (now : Z) (r : AegisRelayer) :
  allocatedIn (store r) (RelayerState.lastBatch (state r)) ->
  wellFormed (syncState now r).
Proof.
  intros Hl. unfold wellFormed, refsAllocated, syncState, alloc; simpl.
  rewrite !length_app; simpl. repeat split; try lia.
  rewrite <- app_assoc. apply allocatedIn_app. exact Hl.
Qed.

Lemma executeBatch_extends (now : Z) (r : AegisRelayer) :
  extends r (executeBatch now r).
Proof.
  unfold executeBatch.
  destruct (isExecuting r || (length (intentPool r) =? 0)%nat).
  - apply extends_refl.
  - eexists. unfold syncState, alloc; simpl. rewrite <- app_assoc. reflexivity.
Qed.

Lemma executeBatch_wellFormed (now : Z) (r : AegisRelayer) :
  wellFormed r -> wellFormed (executeBatch now r).
Proof.
  intros Hwf. unfold executeBatch.
  destruct (isExecuting r || (length (intentPool r) =? 0)%nat); [exact Hwf|].
  destruct Hwf as (_ & Hl & _).
  unfold wellFormed, refsAllocated, syncState, alloc; simpl.
  rewrite !length_app; simpl. repeat split; try lia.
  rewrite <- app_assoc. apply allocatedIn_app. exact Hl.
Qed.

Lemma handleIntent_extends (intent : Intent.t) (now : Z) (r : AegisRelayer) :
  extends r (handleIntent intent now r).
Proof.
  unfold handleIntent.
  set (r1 := syncState now (set_intentPool (intentPool r ++ [intent]) r)).
  assert (H1 : extends r r1).
  { eexists. unfold r1, syncState, alloc; simpl. rewrite <- app_assoc. reflexivity. }
  destruct (reachesThreshold _ _); [|exact H1].
  eapply extends_trans; [exact H1 | apply executeBatch_extends].
Qed.

Lemma handleIntent_wellFormed (intent : Intent.t) (now : Z) (r : AegisRelayer) :
  wellFormed r -> wellFormed (handleIntent intent now r).
Proof.
  intros (_ & Hl & _). unfold handleIntent.
  set (r1 := syncState now (set_intentPool (intentPool r ++ [intent]) r)).
  assert (H1 : wellFormed r1) by (apply syncState_wellFormed; exact Hl).
  destruct (reachesThreshold _ _); [|exact H1].
  apply executeBatch_wellFormed. exact H1.
Qed.

Section SnapshotProperties.

Variable rt : Runtime.

Lemma resume_extends (k : nat) (ledger : Ledger.t) (now : Z) (r : AegisRelayer) :
  extends r (executeBatch_resume rt k ledger now r).
Proof.
  unfold executeBatch_resume.
  destruct (nth_error (inFlight r) k) as [batch|]; [|apply extends_refl].
  destruct (settlement batch ledger); unfold alloc, syncState; simpl.
  - destruct (intentPool r); eexists; simpl; rewrite <- !app_assoc; reflexivity.
  - destruct (batch ++ intentPool r); eexists; simpl; rewrite <- !app_assoc;
      reflexivity.
Qed.

Lemma resume_wellFormed (k : nat) (ledger : Ledger.t) (now : Z) (r : AegisRelayer) :
  wellFormed r -> wellFormed (executeBatch_resume rt k ledger now r).
Proof.
  intros Hwf. unfold executeBatch_resume.
  destruct (nth_error (inFlight r) k) as [batch|]; [|exact Hwf].
  destruct Hwf as (_ & Hl & _).
  unfold wellFormed, refsAllocated.
  destruct (settlement batch ledger); unfold alloc, syncState; simpl.
  - destruct (intentPool r); simpl; rewrite !length_app; simpl;
      repeat split; lia.
  - destruct (batch ++ intentPool r); simpl; rewrite !length_app; simpl;
      (repeat split; try lia);
      rewrite <- app_assoc; apply allocatedIn_app; exact Hl.
Qed.

Lemma onBlock_extends (fee : option Z) (now : Z) (r : AegisRelayer) :
  extends r (onBlock rt fee now r).
Proof.
  unfold onBlock. destruct fee as [baseFee|]; [|apply extends_refl].
  destruct (baseFee =? 0); [apply extends_refl|].
  destruct (shouldExecuteBatch rt baseFee _) as [executeAI score].
  set (r1 := set_gas _ _ _ r).
  assert (H1 : extends r r1) by (exists []; symmetry; apply app_nil_r).
  destruct (isReady _); [|exact H1].
  destruct (executeAI && _); [|exact H1].
  eapply extends_trans; [exact H1 | apply executeBatch_extends].
Qed.

Lemma onBlock_wellFormed (fee : option Z) (now : Z) (r : AegisRelayer) :
  wellFormed r -> wellFormed (onBlock rt fee now r).
Proof.
  intros Hwf. unfold onBlock. destruct fee as [baseFee|]; [|exact Hwf].
  destruct (baseFee =? 0); [exact Hwf|].
  destruct (shouldExecuteBatch rt baseFee _) as [executeAI score].
  set (r1 := set_gas _ _ _ r).
  assert (H1 : wellFormed r1) by exact Hwf.
  destruct (isReady _); [|exact H1].
  destruct (executeAI && _); [|exact H1].
  apply executeBatch_wellFormed. exact H1.
Qed.

Lemma step_extends (r : AegisRelayer) (e : Event) : extends r (step rt r e).
Proof.
  destruct e; simpl.
  - apply handleIntent_extends.
  - apply onBlock_extends.
  - apply resume_extends.
  - unfold onTimeout.
    destruct (timers r); exists []; symmetry; apply app_nil_r.
  - apply syncState_extends.
  - exists []. symmetry. apply app_nil_r.
Qed.

Lemma step_wellFormed (r : AegisRelayer) (e : Event) :
  wellFormed r -> wellFormed (step rt r e).
Proof.
  intros Hwf. destruct e; simpl.
  - apply handleIntent_wellFormed. exact Hwf.
  - apply onBlock_wellFormed. exact Hwf.
  - apply resume_wellFormed. exact Hwf.
  - unfold onTimeout. destruct (timers r); exact Hwf.
  - apply syncState_wellFormed. apply Hwf.
  - exact Hwf.
Qed.

Lemma dispatch_extends (events : list Event) (r : AegisRelayer) :
  extends r (dispatch rt events r).
Proof.
  revert r. induction events as [|e events IH]; intros r.
  - apply extends_refl.
  - simpl. eapply extends_trans; [apply step_extends | apply IH].
Qed.

Lemma dispatch_wellFormed (events : list Event) (r : AegisRelayer) :
  wellFormed r -> wellFormed (dispatch rt events r).
Proof.
  revert r. induction events as [|e events IH]; intros r Hwf.
  - exact Hwf.
  - simpl. apply IH, step_wellFormed, Hwf.
Qed.

Lemma reachable_wellFormed (r : AegisRelayer) : reachable rt r -> wellFormed r.
Proof.
  intros (cfg & net0 & t0 & events & ->).
  apply dispatch_wellFormed.
  unfold wellFormed, refsAllocated; simpl. lia.
Qed.

(** C9: the snapshot returned by [getStatus] reports [EXECUTING] or
    [ERROR] when that is the current status, and otherwise [POOLING] for a
    non-empty pool and [IDLE] for an empty one; its [pooledIntents] is an
    array other than the pool, holding the pool of that moment; and
    whatever events the relayer handles afterwards, the caller reads through
    the snapshot exactly what it read when it received it. *)
Theorem snapshot_is_point_in_time (r : AegisRelayer) (now : Z)
    (Hreach : reachable rt r) :
  let snap := fst (getStatus now r) in
  let r1 := snd (getStatus now r) in
  RelayerState.status snap
  = (if sticky (RelayerState.status (state r)) then RelayerState.status (state r)
     else match intentPool r with [] => IDLE | _ :: _ => POOLING end)
  /\ RelayerState.pooledIntents snap <> PoolRef
  /\ Snapshot.pooledIntents (contents r1 snap) = Some (IntentArray (intentPool r))
  /\ forall events : list Event,
       contents (dispatch rt events r1) snap = contents r1 snap.
Proof.
  cbv zeta. unfold getStatus. simpl fst. simpl snd.
  split; [reflexivity|]. split; [discriminate|].
  split; [apply syncState_pooledIntents|].
  intros events. apply contents_extends.
  - apply dispatch_extends.
  - apply syncState_wellFormed.
    apply (reachable_wellFormed r Hreach).
Qed.

End SnapshotProperties.

(* ------------------------------------------------------------------------- *)
(** ** Conservation of intents                                               *)
(* ------------------------------------------------------------------------- *)

Lemma concat_removeAt {A : Type} (l : list (list A)) (k : nat) (x : list A) :
  nth_error l k = Some x ->
  Permutation (concat l) (x ++ concat (removeAt k l)).
Proof.
  revert k. induction l as [|y l IH]; intros k Hk.
  - destruct k; discriminate.
  - destruct k as [|k]; simpl in Hk.
    + injection Hk as ->. reflexivity.
    + unfold removeAt. simpl. fold (removeAt k l).
      rewrite (IH k Hk). rewrite !app_assoc.
      apply Permutation_app_tail, Permutation_app_comm.
Qed.

(** What [executeBatch] does to the pool and to the suspended activations:
    nothing, or the pool becomes one more batch. *)
Lemma executeBatch_cases (now : Z) (r : AegisRelayer) :
  (intentPool (executeBatch now r) = intentPool r
   /\ inFlight (executeBatch now r) = inFlight r)
  \/ (intentPool r <> []
      /\ intentPool (executeBatch now r) = []
      /\ inFlight (executeBatch now r) = inFlight r ++ [intentPool r]).
Proof.
  unfold executeBatch. destruct (isExecuting r); [left; split; reflexivity|].
  destruct (intentPool r) as [|i pool] eqn:Hpool; simpl.
  - left. rewrite Hpool. split; reflexivity.
  - right. rewrite Hpool. repeat split. discriminate.
Qed.

Lemma executeBatch_held (now : Z) (r : AegisRelayer) :
  Permutation (held (executeBatch now r)) (held r).
Proof.
  unfold held.
  destruct (executeBatch_cases now r) as [[-> ->]|(_ & -> & ->)].
  - reflexivity.
  - rewrite concat_app. simpl. rewrite app_nil_r. apply Permutation_app_comm.
Qed.

Lemma handleIntent_held (intent : Intent.t) (now : Z) (r : AegisRelayer) :
  Permutation (held (handleIntent intent now r)) (held r ++ [intent]).
Proof.
  unfold handleIntent.
  set (r1 := syncState now (set_intentPool (intentPool r ++ [intent]) r)).
  assert (H1 : Permutation (held r1) (held r ++ [intent])).
  { unfold held. change (intentPool r1) with (intentPool r ++ [intent]).
    change (inFlight r1) with (inFlight r).
    rewrite <- !app_assoc. apply Permutation_app_head, Permutation_app_comm. }
  destruct (reachesThreshold _ _); [|exact H1].
  rewrite executeBatch_held. exact H1.
Qed.

Section Conservation.

Variable rt : Runtime.

(** What the end of an activation does to the pool and to the suspended
    activations. *)
Lemma resume_cases (k : nat) (ledger : Ledger.t) (now : Z) (r : AegisRelayer)
    (batch : list Intent.t) :
  nth_error (inFlight r) k = Some batch ->
  inFlight (executeBatch_resume rt k ledger now r) = removeAt k (inFlight r)
  /\ intentPool (executeBatch_resume rt k ledger now r)
     = match settlement batch ledger with
       | Some _ => intentPool r
       | None => batch ++ intentPool r
       end.
Proof.
  intros Hk. unfold executeBatch_resume. rewrite Hk.
  destruct (settlement batch ledger) as [hash|]; unfold alloc; simpl.
  - destruct (intentPool r) eqn:Hp; simpl; rewrite ?Hp; split; reflexivity.
  - destruct (batch ++ intentPool r) eqn:Hp; simpl; rewrite ?Hp; split;
      reflexivity.
Qed.

Lemma resume_none (k : nat) (ledger : Ledger.t) (now : Z) (r : AegisRelayer) :
  nth_error (inFlight r) k = None ->
  executeBatch_resume rt k ledger now r = r.
Proof. intros Hk. unfold executeBatch_resume. rewrite Hk. reflexivity. Qed.

Lemma resume_held (k : nat) (ledger : Ledger.t) (now : Z) (r : AegisRelayer) :
  Permutation (held r)
    (held (executeBatch_resume rt k ledger now r)
     ++ settledBy r (Settled k ledger now)).
Proof.
  unfold settledBy, held.
  destruct (nth_error (inFlight r) k) as [batch|] eqn:Hk.
  - destruct (resume_cases k ledger now r batch Hk) as [-> ->].
    rewrite (concat_removeAt (inFlight r) k batch Hk).
    destruct (settlement batch ledger) as [hash|].
    + rewrite <- app_assoc. apply Permutation_app_head, Permutation_app_comm.
    + rewrite app_nil_r, !app_assoc.
      apply Permutation_app_tail, Permutation_app_comm.
  - rewrite (resume_none k ledger now r Hk), app_nil_r. reflexivity.
Qed.

Lemma onBlock_held (fee : option Z) (now : Z) (r : AegisRelayer) :
  Permutation (held (onBlock rt fee now r)) (held r).
Proof.
  unfold onBlock. destruct fee as [baseFee|]; [|reflexivity].
  destruct (baseFee =? 0); [reflexivity|].
  destruct (shouldExecuteBatch rt baseFee _) as [executeAI score].
  set (r1 := set_gas _ _ _ r).
  destruct (isReady _); [|reflexivity].
  destruct (executeAI && _); [|reflexivity].
  rewrite executeBatch_held. reflexivity.
Qed.

Lemma step_held (r : AegisRelayer) (e : Event) :
  Permutation (held r ++ arrived [e]) (held (step rt r e) ++ settledBy r e).
Proof.
  destruct e as [intent now|fee now|k ledger now| |now|];
    unfold arrived; simpl flat_map; simpl step;
    try (simpl settledBy; rewrite !app_nil_r).
  - symmetry. apply handleIntent_held.
  - symmetry. apply onBlock_held.
  - apply resume_held.
  - unfold onTimeout. destruct (timers r); reflexivity.
  - reflexivity.
  - reflexivity.
Qed.

(** X1: no intent is lost and none is duplicated: whatever the events, the
    intents held before together with those that arrive are, up to order,
    the intents held afterwards together with those of the batches that
    were settled. *)
Theorem intents_are_conserved (events : list Event) (r : AegisRelayer) :
  Permutation (held r ++ arrived events)
    (held (dispatch rt events r) ++ settledDuring rt events r).
Proof.
  revert r. induction events as [|e events IH]; intros r.
  - simpl. reflexivity.
  - change (e :: events) with ([e] ++ events) at 1.
    rewrite arrived_app, app_assoc, (step_held r e).
    change (dispatch rt (e :: events) r) with (dispatch rt events (step rt r e)).
    simpl settledDuring.
    rewrite <- app_assoc.
    rewrite (Permutation_app_comm (settledBy r e) (arrived events)).
    rewrite app_assoc, (IH (step rt r e)), <- app_assoc.
    apply Permutation_app_head, Permutation_app_comm.
Qed.

End Conservation.

(* ------------------------------------------------------------------------- *)
(** ** Invariants of the reachable states                                    *)
(* ------------------------------------------------------------------------- *)

Lemma syncState_mirrored (now : Z) (r : AegisRelayer) : mirrored (syncState now r).
Proof. exact (syncState_pooledIntents now r). Qed.

Lemma syncState_statusSound (now : Z) (r : AegisRelayer) :
  statusSound (syncState now r).
Proof.
  unfold statusSound. rewrite syncState_status.
  change (intentPool (syncState now r)) with (intentPool r).
  destruct (RelayerState.status (state r)); simpl;
    destruct (intentPool r); simpl; split; congruence.
Qed.

Lemma executeBatch_mirrored (now : Z) (r : AegisRelayer) :
  mirrored r -> mirrored (executeBatch now r).
Proof.
  intros Hm. unfold executeBatch.
  destruct (isExecuting r || _); [exact Hm|].
  exact (syncState_mirrored now _).
Qed.

Lemma executeBatch_statusSound (now : Z) (r : AegisRelayer) :
  statusSound r -> statusSound (executeBatch now r).
Proof.
  intros Hs. unfold executeBatch.
  destruct (isExecuting r || _); [exact Hs|].
  exact (syncState_statusSound now _).
Qed.

Lemma executeBatch_batchesNonEmpty (now : Z) (r : AegisRelayer) :
  batchesNonEmpty r -> batchesNonEmpty (executeBatch now r).
Proof.
  unfold batchesNonEmpty. intros Hb.
  destruct (executeBatch_cases now r) as [[_ ->]|(Hpool & _ & ->)].
  - exact Hb.
  - apply Forall_app. split; [exact Hb|]. constructor; [exact Hpool|constructor].
Qed.

Lemma executeBatch_books (now : Z) (r : AegisRelayer) :
  books (executeBatch now r) = books r.
Proof.
  unfold executeBatch. destruct (isExecuting r || _); reflexivity.
Qed.

Lemma handleIntent_books (intent : Intent.t) (now : Z) (r : AegisRelayer) :
  books (handleIntent intent now r) = books r.
Proof.
  unfold handleIntent. destruct (reachesThreshold _ _); [|reflexivity].
  rewrite executeBatch_books. reflexivity.
Qed.

Lemma removeAt_Forall {A : Type} (P : A -> Prop) (k : nat) (l : list A) :
  Forall P l -> Forall P (removeAt k l).
Proof.
  intros Hl. revert k. induction Hl as [|x l Hx Hl IH]; intros k.
  - unfold removeAt. destruct k; constructor.
  - destruct k as [|k].
    + exact Hl.
    + unfold removeAt. simpl. constructor; [exact Hx|]. apply (IH k).
Qed.

Lemma lastBatchSound_frame (r r' : AegisRelayer) :
  extends r r' -> books r' = books r -> lastBatchSound r -> lastBatchSound r'.
Proof.
  intros Hext Hbooks (b & Hderef & Hcases). unfold books in Hbooks.
  injection Hbooks as Hl Hb Hp. exists b. rewrite Hl, Hb. split; [|exact Hcases].
  destruct (RelayerState.lastBatch (state r)) as [|n]; [discriminate|].
  rewrite (deref_extends r r' (ObjRef n) Hext); [exact Hderef|].
  simpl in *. apply nth_error_Some. congruence.
Qed.

Section Invariants.

Variable rt : Runtime.

Lemma handleIntent_sound (intent : Intent.t) (now : Z) (r : AegisRelayer) :
  batchesNonEmpty r ->
  mirrored (handleIntent intent now r)
  /\ statusSound (handleIntent intent now r)
  /\ batchesNonEmpty (handleIntent intent now r).
Proof.
  intros Hb. unfold handleIntent.
  set (r1 := syncState now (set_intentPool (intentPool r ++ [intent]) r)).
  assert (H1 : mirrored r1 /\ statusSound r1 /\ batchesNonEmpty r1).
  { split; [apply syncState_mirrored|]. split; [apply syncState_statusSound|].
    exact Hb. }
  destruct (reachesThreshold _ _); [|exact H1].
  destruct H1 as (Hm & Hs & Hn).
  split; [apply executeBatch_mirrored, Hm|].
  split; [apply executeBatch_statusSound, Hs|].
  apply executeBatch_batchesNonEmpty, Hn.
Qed.

Lemma set_timers_mirrored (n : nat) (r : AegisRelayer) :
  mirrored r -> mirrored (set_timers n r).
Proof. intros Hm. exact Hm. Qed.

Lemma set_timers_statusSound (n : nat) (r : AegisRelayer) :
  statusSound r -> statusSound (set_timers n r).
Proof. intros Hs. exact Hs. Qed.

Lemma finally_timer (P : AegisRelayer -> Prop) (r : AegisRelayer) :
  P r -> (forall n : nat, P (set_timers n r)) ->
  P (match intentPool r with [] => r | _ :: _ => set_timers (S (timers r)) r end).
Proof. intros Hr Ht. destruct (intentPool r); [exact Hr|apply Ht]. Qed.

Lemma resume_sound (k : nat) (ledger : Ledger.t) (now : Z) (r : AegisRelayer) :
  mirrored r -> statusSound r -> batchesNonEmpty r ->
  mirrored (executeBatch_resume rt k ledger now r)
  /\ statusSound (executeBatch_resume rt k ledger now r)
  /\ batchesNonEmpty (executeBatch_resume rt k ledger now r).
Proof.
  intros Hm Hs Hb.
  destruct (nth_error (inFlight r) k) as [batch|] eqn:Hk.
  - split; [|split].
    + unfold executeBatch_resume. rewrite Hk.
      apply (finally_timer mirrored).
      * apply syncState_mirrored.
      * intros n. apply set_timers_mirrored, syncState_mirrored.
    + unfold executeBatch_resume. rewrite Hk.
      apply (finally_timer statusSound).
      * apply syncState_statusSound.
      * intros n. apply set_timers_statusSound, syncState_statusSound.
    + unfold batchesNonEmpty.
      destruct (resume_cases rt k ledger now r batch Hk) as [-> _].
      apply removeAt_Forall. exact Hb.
  - rewrite (resume_none rt k ledger now r Hk). split; [|split]; assumption.
Qed.

Lemma onBlock_sound (fee : option Z) (now : Z) (r : AegisRelayer) :
  mirrored r -> statusSound r -> batchesNonEmpty r ->
  mirrored (onBlock rt fee now r)
  /\ statusSound (onBlock rt fee now r)
  /\ batchesNonEmpty (onBlock rt fee now r).
Proof.
  intros Hm Hs Hb. unfold onBlock.
  destruct fee as [baseFee|]; [|split; [|split]; assumption].
  destruct (baseFee =? 0); [split; [|split]; assumption|].
  destruct (shouldExecuteBatch rt baseFee _) as [executeAI score].
  set (r1 := set_gas _ _ _ r).
  assert (H1 : mirrored r1 /\ statusSound r1 /\ batchesNonEmpty r1)
    by (split; [|split]; assumption).
  destruct (isReady _); [|exact H1].
  destruct (executeAI && _); [|exact H1].
  destruct H1 as (Hm1 & Hs1 & Hb1).
  split; [apply executeBatch_mirrored, Hm1|].
  split; [apply executeBatch_statusSound, Hs1|].
  apply executeBatch_batchesNonEmpty, Hb1.
Qed.

Lemma onBlock_books (fee : option Z) (now : Z) (r : AegisRelayer) :
  books (onBlock rt fee now r) = books r.
Proof.
  unfold onBlock. destruct fee as [baseFee|]; [|reflexivity].
  destruct (baseFee =? 0); [reflexivity|].
  destruct (shouldExecuteBatch rt baseFee _) as [executeAI score].
  destruct (isReady _); [|reflexivity].
  destruct (executeAI && _); [|reflexivity].
  rewrite executeBatch_books. reflexivity.
Qed.

Lemma step_sound (r : AegisRelayer) (e : Event) :
  mirrored r -> statusSound r -> batchesNonEmpty r ->
  mirrored (step rt r e) /\ statusSound (step rt r e)
  /\ batchesNonEmpty (step rt r e).
Proof.
  intros Hm Hs Hb. destruct e as [intent now|fee now|k ledger now| |now|]; unfold step.
  - apply handleIntent_sound, Hb.
  - apply onBlock_sound; assumption.
  - apply resume_sound; assumption.
  - unfold onTimeout. destruct (timers r); (split; [|split]; assumption).
  - unfold getStatus, snd.
    split; [apply syncState_mirrored|]. split; [apply syncState_statusSound|].
    exact Hb.
  - split; [exact Hm|]. split; [|exact Hb].
    split; simpl; discriminate.
Qed.

Lemma reachable_sound (r : AegisRelayer) :
  reachable rt r -> mirrored r /\ statusSound r /\ batchesNonEmpty r.
Proof.
  intros (cfg & net0 & t0 & events & ->).
  assert (H0 : mirrored (newRelayer cfg net0 t0)
               /\ statusSound (newRelayer cfg net0 t0)
               /\ batchesNonEmpty (newRelayer cfg net0 t0)).
  { split; [reflexivity|]. split; [split; [discriminate|reflexivity]|].
    constructor. }
  revert H0. generalize (newRelayer cfg net0 t0).
  induction events as [|e events IH]; intros r (Hm & Hs & Hb).
  - split; [|split]; assumption.
  - simpl. apply IH. apply step_sound; assumption.
Qed.

(** X3: in every reachable state, [state.pooledIntents] is a copy of the pool:
    what the state reports as pooled is what the pool holds. *)
Theorem reported_pool_is_the_pool (r : AegisRelayer) (Hreach : reachable rt r) :
  deref r (RelayerState.pooledIntents (state r)) = Some (IntentArray (intentPool r)).
Proof. apply (reachable_sound r Hreach). Qed.

(** X4: in every reachable state the status is never [EXECUTED], and [IDLE]
    is only reported with an empty pool. *)
Theorem status_is_sound (r : AegisRelayer) (Hreach : reachable rt r) :
  RelayerState.status (state r) <> EXECUTED
  /\ (RelayerState.status (state r) = IDLE -> intentPool r = []).
Proof. apply (reachable_sound r Hreach). Qed.

(** X5: in every reachable state no activation is suspended on an empty batch:
    the vault is never asked to settle nothing. *)
Theorem no_empty_batch_in_flight (r : AegisRelayer) (Hreach : reachable rt r) :
  forall batch : list Intent.t, In batch (inFlight r) -> batch <> [].
Proof.
  destruct (reachable_sound r Hreach) as (_ & _ & Hb).
  apply Forall_forall. exact Hb.
Qed.

End Invariants.

(* ------------------------------------------------------------------------- *)
(** ** The counters and the summary of the last batch                        *)
(* ------------------------------------------------------------------------- *)

Section Counters.

Variable rt : Runtime.

Lemma resume_books (k : nat) (ledger : Ledger.t) (now : Z) (r : AegisRelayer)
    (batch : list Intent.t) :
  nth_error (inFlight r) k = Some batch ->
  let r' := executeBatch_resume rt k ledger now r in
  match settlement batch ledger with
  | Some hash =>
      RelayerState.totalBatchesExecuted (state r')
      = RelayerState.totalBatchesExecuted (state r) + 1
      /\ RelayerState.totalIntentsProcessed (state r')
         = RelayerState.totalIntentsProcessed (state r) + Z.of_nat (length batch)
      /\ deref r' (RelayerState.lastBatch (state r'))
         = Some (LastBatchObj
                   {| LastBatch.txHash := Some hash;
                      LastBatch.batchSize := Z.of_nat (length batch);
                      LastBatch.totalValue := formatEther rt (totalValue batch);
                      LastBatch.executedAt := Some now |})
  | None => books r' = books r
  end.
Proof.
  intros Hk. cbv zeta. unfold executeBatch_resume. rewrite Hk.
  destruct (settlement batch ledger) as [hash|].
  - unfold alloc, syncState, deref.
    destruct (intentPool r) as [|i pool] eqn:Hpool; simpl; rewrite Hpool; simpl;
      repeat split;
      rewrite <- !app_assoc, nth_error_app2, Nat.sub_diag by lia; reflexivity.
  - simpl. destruct (batch ++ intentPool r); reflexivity.
Qed.

Lemma step_books (r : AegisRelayer) (e : Event) :
  RelayerState.totalBatchesExecuted (state (step rt r e))
  = RelayerState.totalBatchesExecuted (state r) + confirmedBy r e
  /\ RelayerState.totalIntentsProcessed (state (step rt r e))
     = RelayerState.totalIntentsProcessed (state r)
       + Z.of_nat (length (settledBy r e)).
Proof.
  assert (Hsame : forall r' : AegisRelayer, books r' = books r ->
            RelayerState.totalBatchesExecuted (state r')
            = RelayerState.totalBatchesExecuted (state r) + 0
            /\ RelayerState.totalIntentsProcessed (state r')
               = RelayerState.totalIntentsProcessed (state r) + Z.of_nat 0).
  { intros r' Hb. unfold books in Hb. injection Hb as _ Hb Hp.
    rewrite Hb, Hp. simpl. lia. }
  destruct e as [intent now|fee now|k ledger now| |now|]; unfold step.
  - apply Hsame, handleIntent_books.
  - apply Hsame, onBlock_books.
  - unfold confirmedBy, settledBy.
    destruct (nth_error (inFlight r) k) as [batch|] eqn:Hk.
    + pose proof (resume_books k ledger now r batch Hk) as Hr. cbv zeta in Hr.
      destruct (settlement batch ledger) as [hash|].
      * destruct Hr as (Hb & Hp & _). split; assumption.
      * apply Hsame, Hr.
    + rewrite (resume_none rt k ledger now r Hk). apply Hsame. reflexivity.
  - apply Hsame. unfold onTimeout. destruct (timers r); reflexivity.
  - apply Hsame. reflexivity.
  - apply Hsame. reflexivity.
Qed.

(** X2: the two counters count what was settled: over any run of events,
    [totalBatchesExecuted] grows by the number of confirmed batches and
    [totalIntentsProcessed] by the number of intents in them; nothing else
    moves them, a failed batch included. *)
Theorem counters_count_settlements (events : list Event) (r : AegisRelayer) :
  RelayerState.totalBatchesExecuted (state (dispatch rt events r))
  = RelayerState.totalBatchesExecuted (state r) + confirmedDuring rt events r
  /\ RelayerState.totalIntentsProcessed (state (dispatch rt events r))
     = RelayerState.totalIntentsProcessed (state r)
       + Z.of_nat (length (settledDuring rt events r)).
Proof.
  revert r. induction events as [|e events IH]; intros r.
  - simpl. lia.
  - change (dispatch rt (e :: events) r) with (dispatch rt events (step rt r e)).
    destruct (IH (step rt r e)) as [Hb Hp].
    destruct (step_books r e) as [Hb1 Hp1].
    rewrite Hb, Hp, Hb1, Hp1. simpl confirmedDuring. simpl settledDuring.
    rewrite length_app. lia.
Qed.

Lemma confirmedBy_settledBy (r : AegisRelayer) (e : Event) :
  batchesNonEmpty r ->
  0 <= confirmedBy r e <= Z.of_nat (length (settledBy r e)).
Proof.
  intros Hb. destruct e as [intent now|fee now|k ledger now| |now|]; simpl; try lia.
  destruct (nth_error (inFlight r) k) as [batch|] eqn:Hk; [|simpl; lia].
  destruct (settlement batch ledger); [|simpl; lia].
  assert (Hne : batch <> []).
  { apply (proj1 (Forall_forall _ _) Hb). apply (nth_error_In _ _ Hk). }
  destruct batch; [contradiction|]. simpl length. lia.
Qed.

Lemma step_countersSound (r : AegisRelayer) (e : Event) :
  batchesNonEmpty r -> countersSound r -> countersSound (step rt r e).
Proof.
  unfold countersSound. intros Hb Hc.
  destruct (step_books r e) as [-> ->].
  pose proof (confirmedBy_settledBy r e Hb). lia.
Qed.

Lemma step_lastBatchSound (r : AegisRelayer) (e : Event) :
  batchesNonEmpty r -> countersSound r -> lastBatchSound r ->
  lastBatchSound (step rt r e).
Proof.
  intros Hb Hc Hl.
  assert (Hframe : books (step rt r e) = books r -> lastBatchSound (step rt r e)).
  { intros Hbooks. apply (lastBatchSound_frame r); [apply step_extends|exact Hbooks|exact Hl]. }
  destruct e as [intent now|fee now|k ledger now| |now|].
  - apply Hframe, handleIntent_books.
  - apply Hframe, onBlock_books.
  - destruct (nth_error (inFlight r) k) as [batch|] eqn:Hk.
    + pose proof (resume_books k ledger now r batch Hk) as Hr. cbv zeta in Hr.
      destruct (settlement batch ledger) as [hash|]; [|apply Hframe, Hr].
      destruct Hr as (Hbatches & _ & Hderef).
      unfold lastBatchSound, step. eexists. split; [exact Hderef|].
      right. rewrite Hbatches. simpl.
      assert (Hne : batch <> []).
      { apply (proj1 (Forall_forall _ _) Hb). apply (nth_error_In _ _ Hk). }
      destruct batch; [contradiction|]. simpl length.
      unfold countersSound in Hc. repeat split; try discriminate; lia.
    + apply Hframe. unfold step. rewrite (resume_none rt k ledger now r Hk).
      reflexivity.
  - apply Hframe. unfold step, onTimeout. destruct (timers r); reflexivity.
  - apply Hframe. reflexivity.
  - apply Hframe. reflexivity.
Qed.

Lemma reachable_books (r : AegisRelayer) :
  reachable rt r -> countersSound r /\ lastBatchSound r.
Proof.
  intros (cfg & net0 & t0 & events & ->).
  assert (H0 : batchesNonEmpty (newRelayer cfg net0 t0)
               /\ countersSound (newRelayer cfg net0 t0)
               /\ lastBatchSound (newRelayer cfg net0 t0)).
  { split; [constructor|]. split; [unfold countersSound; simpl; lia|].
    exists noBatchYet. split; [reflexivity|]. left. split; reflexivity. }
  assert (Hm0 : mirrored (newRelayer cfg net0 t0)) by reflexivity.
  assert (Hs0 : statusSound (newRelayer cfg net0 t0))
    by (split; [discriminate|reflexivity]).
  revert H0 Hm0 Hs0. generalize (newRelayer cfg net0 t0).
  induction events as [|e events IH]; intros r (Hb & Hc & Hl) Hm Hs.
  - split; assumption.
  - change (dispatch rt (e :: events) r) with (dispatch rt events (step rt r e)).
    destruct (step_sound rt r e Hm Hs Hb) as (Hm' & Hs' & Hb').
    apply IH; [|exact Hm'|exact Hs'].
    split; [exact Hb'|]. split.
    + apply step_countersSound; assumption.
    + apply step_lastBatchSound; assumption.
Qed.

(** X6: in every reachable state the counters are in order: no more batches
    were confirmed than intents were settled, and neither is negative. *)
Theorem batches_never_outnumber_intents (r : AegisRelayer)
    (Hreach : reachable rt r) :
  0 <= RelayerState.totalBatchesExecuted (state r)
       <= RelayerState.totalIntentsProcessed (state r).
Proof. apply (reachable_books r Hreach). Qed.

(** X7: in every reachable state [state.lastBatch] is the summary of the field
    initialiser (no hash, size 0, no time) exactly as long as no batch was
    confirmed; once one was, it has a hash, a time and a positive size. *)
Theorem last_batch_summary_follows_counter (r : AegisRelayer)
    (Hreach : reachable rt r) :
  exists b : LastBatch.t,
    deref r (RelayerState.lastBatch (state r)) = Some (LastBatchObj b)
    /\ ((RelayerState.totalBatchesExecuted (state r) = 0 /\ b = noBatchYet)
        \/ (0 < RelayerState.totalBatchesExecuted (state r)
            /\ LastBatch.txHash b <> None
            /\ LastBatch.executedAt b <> None
            /\ 0 < LastBatch.batchSize b)).
Proof. apply (reachable_books r Hreach). Qed.

End Counters.

(* ------------------------------------------------------------------------- *)
(** ** The guard, the triggers and the predictor inside the relayer          *)
(* ------------------------------------------------------------------------- *)

(** X8: two calls of [executeBatch] in a row drain once: the second one meets
    the flag that the first one set, or an empty pool, and returns. *)
Theorem executeBatch_twice (t1 t2 : Z) (r : AegisRelayer) :
  executeBatch t2 (executeBatch t1 r) = executeBatch t1 r.
Proof.
  destruct (isExecuting r) eqn:Hflag.
  - rewrite (executeBatch_busy t1 r Hflag). apply executeBatch_busy, Hflag.
  - destruct (intentPool r) as [|i pool] eqn:Hpool.
    + assert (Hnoop : forall t, executeBatch t r = r)
        by (intros t; unfold executeBatch; rewrite Hflag, Hpool; reflexivity).
      rewrite !Hnoop. reflexivity.
    + apply executeBatch_busy.
      apply (executeBatch_drains t1 r Hflag). rewrite Hpool. discriminate.
Qed.

Section Triggers.

Variable rt : Runtime.

Lemma reachable_ind (P : AegisRelayer -> Prop) :
  (forall cfg net0 t0, P (newRelayer cfg net0 t0)) ->
  (forall r e, reachable rt r -> P r -> P (step rt r e)) ->
  forall r, reachable rt r -> P r.
Proof.
  intros Hnew Hstep r (cfg & net0 & t0 & events & ->).
  induction events as [|e events IH] using rev_ind.
  - apply Hnew.
  - unfold dispatch. rewrite fold_left_app. simpl.
    apply Hstep; [|exact IH].
    exists cfg, net0, t0, events. reflexivity.
Qed.

Lemma executeBatch_flag (now : Z) (r : AegisRelayer) :
  (isExecuting r = true -> inFlight r <> []) ->
  isExecuting (executeBatch now r) = true -> inFlight (executeBatch now r) <> [].
Proof.
  intros Hr. unfold executeBatch.
  destruct (isExecuting r || _); [exact Hr|].
  simpl. intros _ Habs. apply (app_cons_not_nil _ _ _ (eq_sym Habs)).
Qed.

(** X9: in every reachable state the flag [isExecuting] is only set while an
    activation of [executeBatch] is suspended: the relayer is never left
    with the flag set and nothing in flight. *)
Theorem flag_held_only_while_in_flight (r : AegisRelayer)
    (Hreach : reachable rt r) :
  isExecuting r = true -> inFlight r <> [].
Proof.
  revert r Hreach.
  apply (reachable_ind (fun r => isExecuting r = true -> inFlight r <> [])).
  - intros cfg net0 t0. discriminate.
  - intros r e _ IH.
    destruct e as [intent now|fee now|k ledger now| |now|]; unfold step.
    + unfold handleIntent. destruct (reachesThreshold _ _); [|exact IH].
      apply executeBatch_flag. exact IH.
    + unfold onBlock. destruct fee as [baseFee|]; [|exact IH].
      destruct (baseFee =? 0); [exact IH|].
      destruct (shouldExecuteBatch rt baseFee _) as [executeAI score].
      destruct (isReady _); [|exact IH].
      destruct (executeAI && _); [|exact IH].
      apply executeBatch_flag. exact IH.
    + destruct (nth_error (inFlight r) k) as [batch|] eqn:Hk.
      * rewrite (resume_clears_flag rt r k batch ledger now Hk). discriminate.
      * rewrite (resume_none rt k ledger now r Hk). exact IH.
    + unfold onTimeout. destruct (timers r); [exact IH|discriminate].
    + exact IH.
    + exact IH.
Qed.

Lemma handleIntent_unparsable (intent : Intent.t) (now : Z) (r : AegisRelayer) :
  Config.batchSizeThreshold (config r) = None ->
  intentPool (handleIntent intent now r) = intentPool r ++ [intent]
  /\ inFlight (handleIntent intent now r) = inFlight r
  /\ isExecuting (handleIntent intent now r) = isExecuting r
  /\ config (handleIntent intent now r) = config r.
Proof.
  intros Hnan. unfold handleIntent.
  change (config (syncState now (set_intentPool (intentPool r ++ [intent]) r)))
    with (config r).
  rewrite Hnan. repeat split.
Qed.

(** X10: a threshold that [parseInt] could not read is [NaN], and
    [length >= NaN] is false: however many intents arrive, none is ever
    batched by size. They all stay in the pool, in order. *)
Theorem unparsable_threshold_never_fires
    (intents : list (Intent.t * Z)) (r : AegisRelayer)
    (Hnan : Config.batchSizeThreshold (config r) = None) :
  intentPool (dispatch rt (arrivals intents) r) = intentPool r ++ map fst intents
  /\ inFlight (dispatch rt (arrivals intents) r) = inFlight r
  /\ isExecuting (dispatch rt (arrivals intents) r) = isExecuting r.
Proof.
  revert r Hnan. induction intents as [|[intent now] intents IH]; intros r Hnan.
  - simpl. rewrite app_nil_r. repeat split.
  - destruct (handleIntent_unparsable intent now r Hnan) as (Hp & Hf & Hx & Hc).
    change (dispatch rt (arrivals ((intent, now) :: intents)) r)
      with (dispatch rt (arrivals intents) (handleIntent intent now r)).
    destruct (IH (handleIntent intent now r)) as (Hp' & Hf' & Hx').
    { rewrite Hc. exact Hnan. }
    rewrite Hp', Hf', Hx', Hp, Hf, Hx, <- app_assoc. repeat split.
Qed.

Lemma executeBatch_ai (now : Z) (r : AegisRelayer) :
  gasAI (executeBatch now r) = gasAI r
  /\ currentAiScore (executeBatch now r) = currentAiScore r.
Proof. unfold executeBatch. destruct (isExecuting r || _); split; reflexivity. Qed.

Lemma shouldExecuteBatch_ready (fee : Z) (p : AIGasPredictor) :
  fst (shouldExecuteBatch rt fee p) = true -> isReady p = true.
Proof.
  unfold shouldExecuteBatch, isReady.
  destruct (isTrained p); [reflexivity|]. simpl. discriminate.
Qed.

(** X11: the AI trigger of the block listener. A block with a non-zero base fee
    is first absorbed by the predictor; the pool is then drained into a
    batch exactly when the predictor answers [true], the pool holds an
    intent and no execution holds the flag. In every other case the pool,
    the batches in flight and the flag are left as they are. *)
Theorem ai_trigger (fee now : Z) (r : AegisRelayer) (Hfee : fee <> 0) :
  let ai := addBlockDataAndTrain rt fee (gasAI r) in
  let r' := onBlock rt (Some fee) now r in
  gasAI r' = ai
  /\ currentAiScore r' = snd (shouldExecuteBatch rt fee ai)
  /\ if fst (shouldExecuteBatch rt fee ai) && negb (isExecuting r)
        && negb (length (intentPool r) =? 0)%nat
     then intentPool r' = []
          /\ inFlight r' = inFlight r ++ [intentPool r]
          /\ isExecuting r' = true
          /\ RelayerState.status (state r') = EXECUTING
     else intentPool r' = intentPool r
          /\ inFlight r' = inFlight r
          /\ isExecuting r' = isExecuting r.
Proof.
  cbv zeta. unfold onBlock. apply Z.eqb_neq in Hfee. rewrite Hfee.
  pose proof (shouldExecuteBatch_ready fee (addBlockDataAndTrain rt fee (gasAI r)))
    as Hready.
  destruct (shouldExecuteBatch rt fee (addBlockDataAndTrain rt fee (gasAI r)))
    as [executeAI score].
  simpl fst in *. simpl snd.
  set (r1 := set_gas _ score _ r).
  destruct executeAI.
  - rewrite (Hready eq_refl).
    change (intentPool r1) with (intentPool r).
    destruct (length (intentPool r) =? 0)%nat eqn:Hlen; simpl negb.
    + rewrite ?andb_false_r. simpl. rewrite ?andb_false_r. repeat split.
    + rewrite andb_true_r. simpl andb. cbv iota.
      destruct (executeBatch_ai now r1) as [-> ->].
      split; [reflexivity|]. split; [reflexivity|].
      destruct (isExecuting r) eqn:Hflag; simpl negb; cbv iota.
      * rewrite (executeBatch_busy now r1 Hflag). repeat split. exact Hflag.
      * assert (Hne : intentPool r1 <> []).
        { change (intentPool r1) with (intentPool r).
          destruct (intentPool r); [discriminate|discriminate]. }
        destruct (executeBatch_drains now r1 Hflag Hne) as (Hp & Hf & Hx & Hs & _).
        repeat split; assumption.
  - simpl andb. destruct (isReady _); repeat split.
Qed.

Lemma executeBatch_gasAI (now : Z) (r : AegisRelayer) :
  gasAI (executeBatch now r) = gasAI r.
Proof. apply executeBatch_ai. Qed.

Lemma step_gasAI (r : AegisRelayer) (e : Event) :
  gasAI (step rt r e) = absorbAll rt (baseFees [e]) (gasAI r).
Proof.
  destruct e as [intent now|fee now|k ledger now| |now|]; unfold step; simpl baseFees.
  - unfold handleIntent. destruct (reachesThreshold _ _); [|reflexivity].
    apply executeBatch_gasAI.
  - unfold onBlock. destruct fee as [baseFee|]; [|reflexivity].
    destruct (baseFee =? 0); [reflexivity|]. simpl.
    destruct (shouldExecuteBatch rt baseFee _) as [executeAI score].
    destruct (isReady _); [|reflexivity].
    destruct (executeAI && _); [|reflexivity].
    apply executeBatch_gasAI.
  - destruct (nth_error (inFlight r) k) as [batch|] eqn:Hk.
    + unfold executeBatch_resume. rewrite Hk.
      apply (finally_timer (fun r' => gasAI r' = gasAI r)).
      * destruct (settlement batch ledger); reflexivity.
      * intros n. destruct (settlement batch ledger); reflexivity.
    + rewrite (resume_none rt k ledger now r Hk). reflexivity.
  - unfold onTimeout. destruct (timers r); reflexivity.
  - reflexivity.
  - reflexivity.
Qed.

Lemma dispatch_gasAI (events : list Event) (r : AegisRelayer) :
  gasAI (dispatch rt events r) = absorbAll rt (baseFees events) (gasAI r).
Proof.
  revert r. induction events as [|e events IH]; intros r.
  - reflexivity.
  - change (dispatch rt (e :: events) r) with (dispatch rt events (step rt r e)).
    rewrite IH, step_gasAI.
    replace (baseFees (e :: events)) with (baseFees [e] ++ baseFees events)
      by (unfold baseFees; simpl; rewrite app_nil_r; reflexivity).
    rewrite absorbAll_app. reflexivity.
Qed.

(** X12: what the relayer feeds its predictor: the non-zero base fees of the
    blocks, in order, and nothing else. After any run of events from
    construction, the predictor is ready exactly when ten such blocks were
    seen, and its window holds the last ten of their fees. Blocks without
    a base fee, or with base fee [0], never train it. *)
Theorem predictor_sees_priced_blocks
    (cfg : Config.t) (net0 : SimpleNeuralNetwork) (t0 : Z) (events : list Event) :
  let r := dispatch rt events (newRelayer cfg net0 t0) in
  gasAI r = absorbAll rt (baseFees events) (newPredictor net0)
  /\ isReady (gasAI r) = (windowSize <=? length (baseFees events))%nat
  /\ historicalFees (gasAI r)
     = skipn (length (baseFees events) - windowSize)
         (map (gweiOfWei rt) (baseFees events)).
Proof.
  cbv zeta. rewrite dispatch_gasAI.
  change (gasAI (newRelayer cfg net0 t0)) with (newPredictor net0).
  split; [reflexivity|]. split.
  - apply isReady_absorbAll.
  - apply absorbAll_window.
Qed.

End Triggers.

Section Attempts.

Variable rt : Runtime.

Lemma resume_confirmed (k : nat) (ledger : Ledger.t) (now : Z) (r : AegisRelayer)
    (batch : list Intent.t) (hash : string) :
  nth_error (inFlight r) k = Some batch ->
  settlement batch ledger = Some hash ->
  let r' := executeBatch_resume rt k ledger now r in
  RelayerState.status (state r') = poolStatus (intentPool r)
  /\ timers r' = match intentPool r with [] => timers r | _ :: _ => S (timers r) end.
Proof.
  intros Hk Hok. cbv zeta. unfold executeBatch_resume. rewrite Hk, Hok.
  unfold alloc, syncState.
  destruct (intentPool r) as [|i pool] eqn:Hpool; simpl; rewrite Hpool; simpl;
    split; reflexivity.
Qed.

(** X13: an attempt that no other activation overlaps and that the vault
    confirms: from a free flag, no suspended activation and a non-empty
    pool, [executeBatch] drains; the events [during] are handled while the
    attempt is in flight, none of them a timer. Afterwards the pool holds
    exactly the intents that arrived in between, however many they are;
    nothing is in flight and the flag is free. No batch is started for
    them: the size trigger is only evaluated when an intent arrives, and
    the timer that [finally] sets starts nothing. *)
Theorem confirmed_attempt_leaves_arrivals
    (r : AegisRelayer) (t0 t1 : Z) (during : list Event) (ledger : Ledger.t)
    (hash : string)
    (Hfree : isExecuting r = false) (Hnone : inFlight r = [])
    (Hpool : intentPool r <> [])
    (Hquiet : forallb quiet during = true)
    (Hok : settlement (intentPool r) ledger = Some hash) :
  let r' := dispatch rt (during ++ [Settled 0 ledger t1]) (executeBatch t0 r) in
  intentPool r' = arrived during
  /\ inFlight r' = []
  /\ isExecuting r' = false
  /\ RelayerState.status (state r') = poolStatus (arrived during)
  /\ timers r' = match arrived during with [] => timers r | _ :: _ => S (timers r) end
  /\ inFlight (dispatch rt [Timeout] r') = [].
Proof.
  cbv zeta.
  destruct (executeBatch_drains t0 r Hfree Hpool) as (Hp & Hf & He & _ & Ht).
  unfold dispatch. rewrite fold_left_app. simpl fold_left.
  fold (dispatch rt during (executeBatch t0 r)).
  destruct (quiet_events rt during (executeBatch t0 r) He Hquiet) as (Hp' & Hf' & _).
  assert (Hti : timers (dispatch rt during (executeBatch t0 r)) = timers r).
  { rewrite <- Ht. clear - Hquiet. revert Hquiet.
    generalize (executeBatch t0 r). induction during as [|e during IH]; intros r0 Hq.
    - reflexivity.
    - simpl in Hq. apply andb_true_iff in Hq as [He Hrest].
      change (dispatch rt (e :: during) r0) with (dispatch rt during (step rt r0 e)).
      rewrite (IH _ Hrest).
      destruct e as [intent now|fee now| | |now|]; try discriminate He; unfold step.
      + unfold handleIntent. destruct (reachesThreshold _ _); [|reflexivity].
        unfold executeBatch. destruct (isExecuting _ || _); reflexivity.
      + unfold onBlock. destruct fee as [baseFee|]; [|reflexivity].
        destruct (baseFee =? 0); [reflexivity|].
        destruct (shouldExecuteBatch rt baseFee _) as [executeAI score].
        destruct (isReady _); [|reflexivity].
        destruct (executeAI && _); [|reflexivity].
        unfold executeBatch. destruct (isExecuting _ || _); reflexivity.
      + reflexivity.
      + reflexivity. }
  set (r1 := dispatch rt during (executeBatch t0 r)) in *.
  rewrite Hp, app_nil_l in Hp'. rewrite Hf, Hnone, app_nil_l in Hf'.
  assert (Hk : nth_error (inFlight r1) 0 = Some (intentPool r))
    by (rewrite Hf'; reflexivity).
  destruct (resume_cases rt 0 ledger t1 r1 (intentPool r) Hk) as [Hfl Hpl].
  rewrite Hok in Hpl.
  destruct (resume_confirmed 0 ledger t1 r1 (intentPool r) hash Hk Hok) as [Hs Htm].
  pose proof (resume_clears_flag rt r1 0 (intentPool r) ledger t1 Hk) as Hx.
  set (r2 := executeBatch_resume rt 0 ledger t1 r1) in *.
  rewrite Hpl, Hfl, Hf', Hx, Hs, Htm, Hp', Hti.
  split; [reflexivity|]. split; [reflexivity|]. split; [reflexivity|].
  split; [reflexivity|]. split; [reflexivity|].
  unfold onTimeout. destruct (timers r2); [|simpl]; rewrite Hfl, Hf'; reflexivity.
Qed.

End Attempts.

(* ------------------------------------------------------------------------- *)
(** ** config.ts: loading                                                    *)
(* ------------------------------------------------------------------------- *)

Lemma falsy_empty (v : string) : falsy (Some v) = true <-> v = EmptyString.
Proof.
  destruct v; simpl; split; intros H; try reflexivity; discriminate.
Qed.

Lemma requireEnv_spec (env : Env) (name fallback : string) :
  fallback <> EmptyString ->
  (env name = Some EmptyString /\ requireEnv env name (Some fallback) = None)
  \/ (env name <> Some EmptyString
      /\ requireEnv env name (Some fallback) = Some (orDefault (env name) fallback)
      /\ orDefault (env name) fallback <> EmptyString).
Proof.
  intros Hfb. unfold requireEnv, nullish, orDefault.
  destruct (env name) as [v|].
  - destruct v as [|ch v].
    + left. split; reflexivity.
    + right. split; [discriminate|]. split; [reflexivity|discriminate].
  - right. split; [discriminate|].
    destruct fallback as [|ch fb]; [contradiction|].
    split; [reflexivity|discriminate].
Qed.

Section ConfigProperties.

Local Open Scope string_scope.

Variable parseInt : string -> option Z.

(** X15: the module [config] fails to load exactly when one of [RPC_URL],
    [RELAYER_PRIVATE_KEY] and [VAULT_ADDRESS] is set to the empty string:
    [??] keeps an empty string, so the fallback is not used and [!val]
    throws. In every other environment each of the three settings is the
    value of its variable if set and its fallback if not, and is not
    empty; the threshold of the relayer is what [parseInt] reads from
    [BATCH_SIZE_THRESHOLD], or from ["5"] without that variable; and the
    other settings are read the same way, each with its own fallback. *)
Theorem config_loads_unless_a_required_variable_is_empty (env : Env) :
  (loadConfig parseInt env = None
   <-> (env "RPC_URL" = Some EmptyString
        \/ env "RELAYER_PRIVATE_KEY" = Some EmptyString
        \/ env "VAULT_ADDRESS" = Some EmptyString))
  /\ forall c : Settings.t,
       loadConfig parseInt env = Some c ->
       Settings.rpcUrl c = orDefault (env "RPC_URL") "http://localhost:8545"
       /\ Settings.rpcUrl c <> EmptyString
       /\ Settings.relayerPrivateKey c <> EmptyString
       /\ Settings.vaultAddress c <> EmptyString
       /\ Config.batchSizeThreshold (relayerConfig c)
          = parseInt (orDefault (env "BATCH_SIZE_THRESHOLD") "5")
       /\ Settings.relayerPrivateKey c
          = orDefault (env "RELAYER_PRIVATE_KEY")
              "0x59c6995e998f97a5a0044966f0945389dc9e86dae88c7a8412f4603b6b78690d"
       /\ Settings.vaultAddress c
          = orDefault (env "VAULT_ADDRESS")
              "0x0000000000000000000000000000000000000000"
       /\ Settings.port c = parseInt (orDefault (env "PORT") "4000")
       /\ Settings.batchSizeThreshold c
          = parseInt (orDefault (env "BATCH_SIZE_THRESHOLD") "5")
       /\ Settings.batchTimeoutMs c
          = parseInt (orDefault (env "BATCH_TIMEOUT_MS") "15000")
       /\ Settings.startBlock c = parseInt (orDefault (env "START_BLOCK") "0")
       /\ Settings.corsOrigin c
          = orDefault (env "CORS_ORIGIN") "http://localhost:3000".
Proof.
  unfold loadConfig.
  destruct (requireEnv_spec env "RPC_URL" "http://localhost:8545")
    as [[E1 ->]|(N1 & -> & V1)]; [discriminate| |].
  { split; [split; [intros _; left; exact E1|reflexivity]|discriminate]. }
  destruct (requireEnv_spec env "RELAYER_PRIVATE_KEY"
              "0x59c6995e998f97a5a0044966f0945389dc9e86dae88c7a8412f4603b6b78690d")
    as [[E2 ->]|(N2 & -> & V2)]; [discriminate| |].
  { split; [split; [intros _; right; left; exact E2|reflexivity]|discriminate]. }
  destruct (requireEnv_spec env "VAULT_ADDRESS"
              "0x0000000000000000000000000000000000000000")
    as [[E3 ->]|(N3 & -> & V3)]; [discriminate| |].
  { split; [split; [intros _; right; right; exact E3|reflexivity]|discriminate]. }
  split.
  - split; [discriminate|]. intros [E|[E|E]]; contradiction.
  - intros c Hc. injection Hc as <-. cbn [Settings.rpcUrl Settings.relayerPrivateKey
      Settings.vaultAddress Settings.port Settings.batchSizeThreshold
      Settings.batchTimeoutMs Settings.startBlock Settings.corsOrigin
      relayerConfig Config.batchSizeThreshold].
    split; [reflexivity|]. split; [exact V1|]. split; [exact V2|].
    split; [exact V3|]. repeat split.
Qed.

End ConfigProperties.

(* ------------------------------------------------------------------------- *)
(** ** server.ts: the two handlers                                           *)
(* ------------------------------------------------------------------------- *)

Section ServerProperties.

Variable rt : Runtime.
Variable parseEther : JsValue -> option Z.
Variable toFixed1 : float -> string.
Variable numberToString : option Z -> string.

Lemma pooledOf_syncState (now : Z) (r : AegisRelayer) :
  pooledOf (syncState now r) (state (syncState now r)) = intentPool r.
Proof. unfold pooledOf. rewrite syncState_pooledIntents. reflexivity. Qed.

Lemma aiStateOf_syncState (now : Z) (r : AegisRelayer) :
  aiStateOf (syncState now r) (state (syncState now r))
  = {| AiState.isReady := isReady (gasAI r);
       AiState.currentGasGwei := currentGasGwei r;
       AiState.confidenceScore := currentAiScore r;
       AiState.threshold := 0.7 |}.
Proof.
  unfold aiStateOf, syncState, alloc, deref. simpl.
  rewrite nth_error_app2, Nat.sub_diag by (rewrite length_app; simpl; lia).
  reflexivity.
Qed.

Lemma lastBatchOf_syncState (now : Z) (r : AegisRelayer) (b : LastBatch.t) :
  deref r (RelayerState.lastBatch (state r)) = Some (LastBatchObj b) ->
  lastBatchOf (syncState now r) (state (syncState now r)) = b.
Proof.
  intros Hb. unfold lastBatchOf.
  change (RelayerState.lastBatch (state (syncState now r)))
    with (RelayerState.lastBatch (state r)).
  destruct (RelayerState.lastBatch (state r)) as [|n] eqn:Href; [discriminate|].
  rewrite (deref_extends r (syncState now r) (ObjRef n) (syncState_extends now r)).
  - rewrite Hb. reflexivity.
  - simpl in *. apply nth_error_Some. congruence.
Qed.

(** X16: the answer of [GET /api/status], in any reachable state: the count and
    the list are those of the live pool, in its order; the predictor
    fields are the live ones; the statistics are the counters and the
    whole seconds since construction; [IDLE] is only reported with a count
    of [0]; and the last batch has a hash exactly when a batch has been
    confirmed. *)
Theorem status_endpoint_reports_live_state (r : AegisRelayer) (now : Z)
    (Hreach : reachable rt r) :
  let reply := fst (apiStatus rt toFixed1 numberToString now r) in
  StatusReply.pooledIntents reply = length (intentPool r)
  /\ StatusReply.intents reply = map (intentView rt) (intentPool r)
  /\ StatusReply.aiReady reply = isReady (gasAI r)
  /\ StatusReply.currentGasGwei reply = currentGasGwei r
  /\ StatusReply.aiConfidence reply = currentAiScore r
  /\ StatusReply.stats reply
     = {| Stats.totalBatchesExecuted := RelayerState.totalBatchesExecuted (state r);
          Stats.totalIntentsProcessed := RelayerState.totalIntentsProcessed (state r);
          Stats.uptimeSec := (now - startedAt r) / 1000 |}
  /\ (StatusReply.status reply = IDLE -> StatusReply.pooledIntents reply = 0%nat)
  /\ (LastBatch.txHash (StatusReply.lastBatch reply) = None
      <-> RelayerState.totalBatchesExecuted (state r) = 0).
Proof.
  destruct (reachable_books rt r Hreach) as [Hc (b & Hb & Hcases)].
  cbv zeta. unfold apiStatus, getStatus. cbv zeta.
  cbn [fst StatusReply.pooledIntents StatusReply.intents StatusReply.aiReady
       StatusReply.currentGasGwei StatusReply.aiConfidence StatusReply.stats
       StatusReply.status StatusReply.lastBatch].
  rewrite pooledOf_syncState, aiStateOf_syncState, (lastBatchOf_syncState now r b Hb).
  cbn [AiState.isReady AiState.currentGasGwei AiState.confidenceScore].
  split; [reflexivity|]. split; [reflexivity|]. split; [reflexivity|].
  split; [reflexivity|]. split; [reflexivity|]. split; [reflexivity|].
  split.
  - intros Hidle. destruct (syncState_statusSound now r) as [_ Hs].
    change (intentPool (syncState now r)) with (intentPool r) in Hs.
    rewrite (Hs Hidle). reflexivity.
  - destruct Hcases as [[Hzero ->]|(Hpos & Hhash & _)].
    + split; [intros _; exact Hzero|reflexivity].
    + split; [contradiction|lia].
Qed.





End ServerProperties.

(* ------------------------------------------------------------------------- *)
(** ** binary64 arithmetic of the sigmoid                                     *)
(* ------------------------------------------------------------------------- *)

Module UnitInterval.

Import Binary64.

Definition one : spec_float := S754_finite false 4503599627370496 (-52).

(** At least one: [+Infinity], or positive with exponent from [-52]. *)
Definition ge_one (x : spec_float) : Prop :=
  match x with
  | S754_infinity false => True
  | S754_finite false _ e => -52 <= e
  | _ => False
  end.

(** Between zero and one: [+0], or positive and not above [2^52 * 2^-52]. *)
Definition within_unit (x : spec_float) : Prop :=
  match x with
  | S754_zero false => True
  | S754_finite false m e => e < -52 \/ (e = -52 /\ Zpos m <= 2 ^ 52)
  | _ => False
  end.

Lemma SFadd_one_ge (y : spec_float) :
  valid_binary y = true -> finite_positive y ->
  ge_one (SFadd prec emax one y).
Proof.
  intros Hv Hy.
  destruct y as [| | |[] my ey]; try contradiction.
  simpl.
  destruct (bounded_facts my ey Hv) as (Hmin & _ & _).
  pose proof (shl_align_spec 4503599627370496 (-52) (Z.min (-52) ey)) as Hh.
  pose proof (shl_align_spec my ey (Z.min (-52) ey)) as Hm.
  destruct (shl_align 4503599627370496 (-52) _) as [vh zh].
  destruct (shl_align my ey _) as [vm zm].
  destruct Hh as (Hzh & Hvh & _). destruct Hm as (Hzm & Hvm & _).
  simpl fst. simpl Z.add.
  set (ez := Z.min (-52) ey) in *.
  pose proof (binary_round_positive false (vh + vm) ez) as Hround.
  cbv zeta in Hround.
  assert (Hez : emin <= ez)
    by (revert Hmin; unfold ez, SpecFloat.emin, prec, emax; lia).
  specialize (Hround Hez).
  assert (HD : 1 <= Zpos (digits2_pos (vh + vm)) + ez).
  { destruct (digits2_pos_bounds (vh + vm)) as [_ Hhi].
    assert (Hlow : 2 ^ (0 - ez) <= Zpos (vh + vm)).
    { rewrite Pos2Z.inj_add, Hvh.
      replace (Z.min (-52) ez) with ez in Hzh by (unfold ez; lia).
      rewrite Hzh.
      change 4503599627370496 with (2 ^ 52).
      rewrite <- Z.pow_add_r by (unfold ez; lia).
      replace (52 + (-52 - ez)) with (0 - ez) by lia. lia. }
    assert (Hlt : 2 ^ (0 - ez) < 2 ^ Zpos (digits2_pos (vh + vm))) by lia.
    apply Z.pow_lt_mono_r_iff in Hlt; lia. }
  destruct (binary_round prec emax false (vh + vm) ez) as [| | |s m' e'];
    try contradiction.
  + destruct Hround as [-> _]. exact I.
  + destruct Hround as (-> & Hexp & _).
    simpl. revert Hexp HD. unfold fexp, SpecFloat.emin, prec, emax. lia.
Qed.

Lemma shiftl_pow2 (s : Z) : 0 <= s -> Z.shiftl 4503599627370496 s = 2 ^ (52 + s).
Proof.
  intros Hs. rewrite Z.shiftl_mul_pow2 by exact Hs.
  change 4503599627370496 with (2 ^ 52). rewrite <- Z.pow_add_r by lia. reflexivity.
Qed.

Lemma Zdigits2_le (q k : Z) : 0 < q -> 0 <= k -> q < 2 ^ k -> Zdigits2 q <= k.
Proof.
  intros Hq Hk Hlt. destruct (Zdigits2_bounds q Hq) as [Hd [Hlo _]].
  assert (H : 2 ^ (Zdigits2 q - 1) < 2 ^ k) by lia.
  apply Z.pow_lt_mono_r_iff in H; lia.
Qed.

(** The quotient [2^53 * 2^e] of [1] by a power of two is exact. *)
Lemma round_pow2_exact (e : Z) :
  emin <= e + 1 -> e + 1 <= emax - prec ->
  binary_round_aux prec emax false 9007199254740992 e loc_Exact
  = S754_finite false 4503599627370496 (e + 1).
Proof.
  intros Hlo Hhi. unfold binary_round_aux, shr_fexp.
  change (Zdigits2 9007199254740992) with 54.
  assert (H1 : fexp prec emax (54 + e) - e = 1)
    by (revert Hlo; unfold fexp, SpecFloat.emin, prec, emax; lia).
  rewrite H1. simpl shr. cbv iota beta.
  change (round_nearest_even _ _) with 4503599627370496.
  change (Zdigits2 4503599627370496) with 53.
  assert (H2 : fexp prec emax (53 + (e + 1)) - (e + 1) = 0)
    by (revert Hlo; unfold fexp, SpecFloat.emin, prec, emax; lia).
  rewrite H2. simpl shr. cbv iota beta. simpl shr_m.
  destruct (Z.leb_spec (e + 1) (emax - prec)); [reflexivity|lia].
Qed.

Lemma SFdiv_one_unit (y : spec_float) :
  valid_binary y = true -> ge_one y ->
  valid_binary (SFdiv prec emax one y) = true ->
  within_unit (SFdiv prec emax one y).
Proof.
  intros Hv Hy Hres.
  destruct y as [|[]| |[] m ex]; try contradiction; [exact I|].
  simpl in Hy.
  destruct (bounded_facts m ex Hv) as (Hmin & Hd & Hn).
  assert (Hdig : Zpos (digits2_pos m) = prec)
    by (apply Hn; revert Hy; unfold SpecFloat.emin, prec, emax; lia).
  destruct (digits2_pos_bounds m) as [Hlo Hhi]. rewrite Hdig in Hlo, Hhi.
  change (2 ^ (prec - 1)) with (2 ^ 52) in Hlo. change (2 ^ prec) with (2 ^ 53) in Hhi.
  assert (Hex : ex <= emax - prec).
  { unfold valid_binary, bounded in Hv. apply andb_true_iff in Hv as [_ Hle].
    apply Z.leb_le in Hle. exact Hle. }
  unfold SFdiv, one, SFdiv_core_binary in Hres |- *. cbv zeta in Hres |- *.
  change (Zdigits2 4503599627370496) with 53 in Hres |- *.
  change (Zdigits2 (Zpos m)) with (Zpos (digits2_pos m)) in Hres |- *.
  rewrite Hdig in Hres |- *.
  change (xorb false false) with false in Hres |- *.
  set (e' := Z.min (fexp prec emax (53 + -52 - (prec + ex))) (-52 - ex)) in *.
  assert (He' : emin <= e' /\ e' <= -105 - ex + 2 /\ (e' = -105 - ex \/ e' = emin)
                /\ 51 <= -52 - ex - e' <= 53).
  { revert Hy Hex. unfold e', fexp, SpecFloat.emin, prec, emax.
    lia. }
  destruct He' as (Hemin & Heup & Hecase & Hs).
  destruct (-52 - ex - e') as [|ps|ps] eqn:Hseq; try lia.
  rewrite shiftl_pow2 in Hres |- * by lia.
  pose proof (Z_div_mod (2 ^ (52 + Zpos ps)) (Zpos m) eq_refl) as Hdiv.
  destruct (Z.div_eucl (2 ^ (52 + Zpos ps)) (Zpos m)) as [q r].
  destruct Hdiv as [Hqr Hr].
  rewrite Z.pow_add_r in Hqr by lia.
  assert (Hps : 0 < 2 ^ Zpos ps) by (apply Z.pow_pos_nonneg; lia).
  assert (Hps53 : 2 ^ Zpos ps <= 2 ^ 53) by (apply Z.pow_le_mono_r; lia).
  assert (Hps51 : 2 ^ 51 <= 2 ^ Zpos ps) by (apply Z.pow_le_mono_r; lia).
  assert (Hq1 : 1 <= q).
  { assert (H52 : 0 < 2 ^ 52) by (apply Z.pow_pos_nonneg; lia).
    change (2 ^ 53) with (2 * 2 ^ 52) in Hhi. change (2 ^ 51) with (2 ^ 2 * 2 ^ 49) in Hps51.
    assert (0 < 2 ^ 49) by (apply Z.pow_pos_nonneg; lia). nia. }
  assert (Hqs : q <= 2 ^ Zpos ps).
  { assert (H52 : 0 < 2 ^ 52) by (apply Z.pow_pos_nonneg; lia). nia. }
  destruct (Z.eq_dec q (2 ^ 53)) as [Hq53|Hqne].
  - assert (Hps' : Zpos ps = 53).
    { assert (H : 2 ^ 53 <= 2 ^ Zpos ps) by lia.
      apply Z.pow_le_mono_r_iff in H; lia. }
    assert (Hm52 : Zpos m = 2 ^ 52 /\ r = 0).
    { rewrite Hps', Hq53 in Hqr.
      assert (H53 : 0 < 2 ^ 53) by (apply Z.pow_pos_nonneg; lia). nia. }
    destruct Hm52 as [Hm52 ->].
    change (2 ^ 52) with (Zpos 4503599627370496) in Hm52.
    injection Hm52 as ->.
    change (new_location (Zpos 4503599627370496) 0) with loc_Exact.
    rewrite Hq53. change (2 ^ 53) with 9007199254740992.
    rewrite round_pow2_exact
      by (revert Hemin Heup Hex Hy; unfold SpecFloat.emin, prec, emax; lia).
    simpl. destruct (Z.eq_dec (e' + 1) (-52)) as [He|He].
    + right. split; [exact He|]. apply Z.leb_le. reflexivity.
    + left. lia.
  - assert (Hq53 : q < 2 ^ 53) by lia.
    assert (Hq0 : 0 < q) by lia.
    pose proof (Zdigits2_le q 53 Hq0 ltac:(lia) Hq53) as Hdq.
    rewrite binary_round_aux_core in Hres |- *.
    set (l := new_location (Zpos m) r) in *.
    destruct (round_core_upper q e' l Hq0 Hemin) as [Hle Hup].
    pose proof (round_core_nonneg q e' l ltac:(lia)) as Hnn.
    assert (Hup53 : fst (round_core q e' l) * 2 ^ (snd (round_core q e' l) - e') <= 2 ^ 53).
    { apply Z.le_trans with (2 ^ Zdigits2 q); [exact Hup|].
      apply Z.pow_le_mono_r; lia. }
    clear Hup.
    set (e2 := snd (round_core q e' l)) in *.
    destruct (fst (round_core q e' l)) as [|p|p]; [exact I| |lia].
    assert (Hpow : 0 < 2 ^ (e2 - e')) by (apply Z.pow_pos_nonneg; lia).
    assert (He2 : e2 - e' <= 53).
    { assert (H : 2 ^ (e2 - e') <= 2 ^ 53) by nia.
      apply Z.pow_le_mono_r_iff in H; lia. }
    destruct (Z.leb_spec e2 (emax - prec)) as [Hfin|Hover].
    + simpl.
      destruct (bounded_facts p e2 Hres) as (_ & _ & Hnormal).
      destruct (Z.le_gt_cases e2 emin) as [Hsub|Hnorm].
      { left. revert Hsub. unfold SpecFloat.emin, prec, emax. lia. }
      specialize (Hnormal Hnorm).
      destruct (digits2_pos_bounds p) as [Hlop _].
      rewrite Hnormal in Hlop. change (2 ^ (prec - 1)) with (2 ^ 52) in Hlop.
      assert (H1 : 2 ^ (52 + (e2 - e')) <= 2 ^ 53).
      { rewrite Z.pow_add_r by lia. nia. }
      apply Z.pow_le_mono_r_iff in H1; try lia.
      destruct (Z.eq_dec e2 (-52)) as [He52|];
        [|left; revert Hy Hecase; unfold SpecFloat.emin, prec, emax; lia].
      right. split; [exact He52|].
      assert (Hd1 : e2 - e' = 1)
        by (revert Hy Hecase; unfold SpecFloat.emin, prec, emax; lia).
      rewrite Hd1 in Hup53. change (2 ^ 1) with 2 in Hup53.
      change (2 ^ 53) with (2 * 2 ^ 52) in Hup53. lia.
    + exfalso. revert Hover He2 Hecase Hy. unfold SpecFloat.emin, prec, emax. lia.
Qed.

Lemma within_unit_bounds (x : spec_float) :
  within_unit x -> SFleb (S754_zero false) x = true /\ SFleb x one = true.
Proof.
  destruct x as [[]|[]| |[] m e]; try contradiction; intros Hx.
  - split; reflexivity.
  - split; [reflexivity|].
    destruct Hx as [He|[-> Hm]].
    + apply SFleb_lower_exponent. exact He.
    + apply SFleb_same_exponent. exact Hm.
Qed.

Lemma Prim2SF_one : Prim2SF 1 = one /\ Prim2SF 0 = S754_zero false.
Proof. vm_compute. split; reflexivity. Qed.

(** [1 / (1 + e)] for [e] not negative: [NaN] if [e] is, otherwise between
    zero and one. *)
Lemma reciprocal_shape (e : float) :
  (e <? 0)%float = false ->
  Prim2SF (1 / (1 + e)) = S754_nan \/ within_unit (Prim2SF (1 / (1 + e))).
Proof.
  intros He. rewrite ltb_spec in He.
  destruct Prim2SF_one as [H1 H0]. rewrite H0 in He.
  pose proof (Prim2SF_valid (1 / (1 + e))) as Hvq.
  pose proof (Prim2SF_valid (1 + e)) as Hvs.
  pose proof (Prim2SF_valid e) as Hve.
  rewrite div_spec, add_spec, H1 in Hvq |- *. rewrite add_spec, H1 in Hvs.
  destruct (Prim2SF e) as [s|[]| |[] m ex] eqn:Hpe; try discriminate He.
  - right.
    replace (SFdiv prec emax one (SFadd prec emax one (S754_zero s))) with one
      by (destruct s; vm_compute; reflexivity).
    right. split; [reflexivity|]. apply Z.leb_le. reflexivity.
  - right. exact I.
  - left. reflexivity.
  - right. apply SFdiv_one_unit; [exact Hvs| |exact Hvq].
    apply SFadd_one_ge; [exact Hve|exact I].
Qed.

End UnitInterval.

(* ------------------------------------------------------------------------- *)
(** ** The confidence score                                                   *)
(* ------------------------------------------------------------------------- *)

Lemma or_zero_in_unit_interval (v : float) :
  Prim2SF v = S754_nan \/ UnitInterval.within_unit (Prim2SF v) ->
  (0 <=? Js.or v 0)%float = true /\ (Js.or v 0 <=? 1)%float = true.
Proof.
  intros Hv. unfold Js.or.
  destruct (Js.truthy v) eqn:Htruthy; [|split; reflexivity].
  destruct Hv as [Hnan|Hunit].
  - exfalso. unfold Js.truthy, Js.is_nan in Htruthy.
    rewrite eqb_spec, Hnan in Htruthy. discriminate.
  - destruct UnitInterval.Prim2SF_one as [H1 H0].
    rewrite !leb_spec, H1, H0. apply UnitInterval.within_unit_bounds. exact Hunit.
Qed.

Lemma square_not_negative (y : float) : (y * y <? 0)%float = false.
Proof.
  rewrite ltb_spec, mul_spec.
  destruct UnitInterval.Prim2SF_one as [_ ->].
  assert (Hsigned : forall x, Binary64.signed false x -> SFltb x (S754_zero false) = false).
  { intros [[]|[]| |[] m e]; simpl; intros H; try discriminate; reflexivity. }
  destruct (Prim2SF y) as [[]|[]| |s m e]; try reflexivity.
  unfold SF64mul, SFmul. replace (xorb s s) with false by (destruct s; reflexivity).
  apply Hsigned. apply (Binary64.binary_round_aux_signed false). lia.
Qed.

Lemma Sample_exp_not_negative (x : float) : (Sample.exp x <? 0)%float = false.
Proof.
  unfold Sample.exp.
  change (Nat.iter 20 ?f ?z) with (f (Nat.iter 19 f z)).
  apply square_not_negative.
Qed.

Section ScoreProperties.

Variable rt : Runtime.

Hypothesis Math_exp_not_negative : forall x : float, (Math_exp rt x <? 0)%float = false.

Lemma sigmoid_shape (x : float) :
  Prim2SF (sigmoid rt x) = S754_nan \/ UnitInterval.within_unit (Prim2SF (sigmoid rt x)).
Proof. apply UnitInterval.reciprocal_shape, Math_exp_not_negative. Qed.

Lemma forward_head_shape (nIn nOut : nat) (inputs : list float)
    (weights : list (list float)) (bias : list float) :
  let v := Js.idx (forward rt nIn nOut inputs weights bias) 0 in
  Prim2SF v = S754_nan \/ UnitInterval.within_unit (Prim2SF v).
Proof.
  cbv zeta. unfold forward. destruct nOut as [|nOut].
  - left. reflexivity.
  - simpl seq. simpl map. unfold Js.idx at 1. simpl nth. apply sigmoid_shape.
Qed.

(** X19: provided [Math.exp] never returns a negative number, the confidence
    score that [shouldExecuteBatch] returns is a number between 0 and 1,
    whatever the predictor holds: a [NaN] out of the network is turned
    into [0] by [|| 0], and the sigmoid stays within the interval in
    binary64 arithmetic. The decision is [score > 0.7]. *)
Theorem score_between_zero_and_one (fee : Z) (p : AIGasPredictor) :
  let answer := shouldExecuteBatch rt fee p in
  (0 <=? snd answer)%float = true
  /\ (snd answer <=? 1)%float = true
  /\ fst answer = (0.7 <? snd answer)%float.
Proof.
  cbv zeta. unfold shouldExecuteBatch.
  destruct (negb (isTrained p) || _); [repeat split|].
  cbv zeta. simpl fst. simpl snd.
  destruct (or_zero_in_unit_interval
              (Js.idx (run rt (net p) (normalize (historicalFees p))) 0))
    as [Hlo Hhi].
  { unfold run. apply forward_head_shape. }
  repeat split; assumption.
Qed.

End ScoreProperties.

(* ------------------------------------------------------------------------- *)
(** ** NaN in the network                                                     *)
(* ------------------------------------------------------------------------- *)

Lemma is_nan_true_iff (x : float) :
  Js.is_nan x = true <-> Prim2SF x = S754_nan.
Proof.
  unfold Js.is_nan. rewrite eqb_spec.
  destruct (Prim2SF x) as [s|s| |s m e]; simpl.
  - split; discriminate.
  - destruct s; split; discriminate.
  - split; reflexivity.
  - unfold SFeqb, SFcompare.
    destruct s; rewrite Z.compare_refl;
      fold (Pos.compare m m); rewrite ?Pos.compare_refl;
      try (rewrite Pos.compare_cont_refl); simpl; split; discriminate.
Qed.

Lemma is_nan_add_l (a b : float) : Js.is_nan a = true -> Js.is_nan (a + b) = true.
Proof.
  rewrite !is_nan_true_iff, add_spec. intros ->. reflexivity.
Qed.

Lemma is_nan_add_r (a b : float) : Js.is_nan b = true -> Js.is_nan (a + b) = true.
Proof.
  rewrite !is_nan_true_iff, add_spec. intros ->.
  destruct (Prim2SF a) as [|[]| |]; reflexivity.
Qed.

Lemma is_nan_sub_l (a b : float) : Js.is_nan a = true -> Js.is_nan (a - b) = true.
Proof.
  rewrite !is_nan_true_iff, sub_spec. intros ->. reflexivity.
Qed.

Lemma is_nan_mul_l (a b : float) : Js.is_nan a = true -> Js.is_nan (a * b) = true.
Proof.
  rewrite !is_nan_true_iff, mul_spec. intros ->. reflexivity.
Qed.

Lemma is_nan_mul_r (a b : float) : Js.is_nan b = true -> Js.is_nan (a * b) = true.
Proof.
  rewrite !is_nan_true_iff, mul_spec. intros ->.
  destruct (Prim2SF a) as [|[]| |]; reflexivity.
Qed.

Lemma is_nan_div_r (a b : float) : Js.is_nan b = true -> Js.is_nan (a / b) = true.
Proof.
  rewrite !is_nan_true_iff, div_spec. intros ->.
  destruct (Prim2SF a) as [|[]| |]; reflexivity.
Qed.

Lemma is_nan_opp (a : float) : Js.is_nan a = true -> Js.is_nan (- a) = true.
Proof.
  rewrite !is_nan_true_iff, opp_spec. intros ->. reflexivity.
Qed.

Lemma is_nan_unique (a : float) : Js.is_nan a = true -> a = nan.
Proof.
  rewrite is_nan_true_iff. intros Ha.
  rewrite <- (SF2Prim_Prim2SF a), Ha. reflexivity.
Qed.

Lemma idx_map_seq (f : nat -> float) (n : nat) :
  (1 <= n)%nat -> Js.idx (map f (seq 0 n)) 0 = f 0%nat.
Proof. destruct n as [|n]; [lia|]. intros _. reflexivity. Qed.

Section Poison.

Variable rt : Runtime.

Lemma train_outputSize (inputs expected : list float) (n : SimpleNeuralNetwork) :
  outputSize (train rt inputs expected n) = outputSize n.
Proof. reflexivity. Qed.

Lemma train_biasOutput (inputs expected : list float) (n : SimpleNeuralNetwork) :
  (1 <= outputSize n)%nat ->
  exists out : float,
    Js.idx (biasOutput (train rt inputs expected n)) 0
    = (Js.idx (biasOutput n) 0
       + learningRate * ((Js.idx expected 0 - out) * sigmoidDerivative out))%float.
Proof.
  intros Hout. unfold train. cbv zeta. simpl biasOutput.
  rewrite idx_map_seq by exact Hout.
  rewrite idx_map_seq by exact Hout.
  eexists. reflexivity.
Qed.

(** One training step keeps a [NaN] bias [NaN]. *)
Lemma train_poisoned (inputs expected : list float) (n : SimpleNeuralNetwork) :
  poisoned n -> poisoned (train rt inputs expected n).
Proof.
  intros [Hout Hnan]. split; [exact Hout|].
  destruct (train_biasOutput inputs expected n Hout) as [out ->].
  apply is_nan_add_l. exact Hnan.
Qed.

(** One training step towards a [NaN] label makes the bias [NaN]. *)
Lemma train_nan_label (inputs expected : list float) (n : SimpleNeuralNetwork) :
  (1 <= outputSize n)%nat -> Js.is_nan (Js.idx expected 0) = true ->
  poisoned (train rt inputs expected n).
Proof.
  intros Hout Hnan. split; [exact Hout|].
  destruct (train_biasOutput inputs expected n Hout) as [out ->].
  apply is_nan_add_r, is_nan_mul_r, is_nan_mul_l, is_nan_sub_l. exact Hnan.
Qed.

Lemma iter_train_outputSize (k : nat) (inputs expected : list float)
    (n : SimpleNeuralNetwork) :
  outputSize (Nat.iter k (train rt inputs expected) n) = outputSize n.
Proof. induction k as [|k IH]; [reflexivity|]. simpl. exact IH. Qed.

Lemma iter_train_poisoned (k : nat) (inputs expected : list float)
    (n : SimpleNeuralNetwork) :
  poisoned n -> poisoned (Nat.iter k (train rt inputs expected) n).
Proof.
  intros Hn. induction k as [|k IH]; [exact Hn|].
  simpl. apply train_poisoned. exact IH.
Qed.

Lemma trainModel_poisoned (p : AIGasPredictor) :
  poisoned (net p) -> poisoned (net (trainModel rt p)).
Proof.
  intros Hp. unfold trainModel. cbn [net].
  exact (iter_train_poisoned 200 _ _ (net p) Hp).
Qed.

Lemma trainModel_nan_label (p : AIGasPredictor) :
  (1 <= outputSize (net p))%nat ->
  Js.is_nan (targetScore (historicalFees p)) = true ->
  poisoned (net (trainModel rt p)).
Proof.
  intros Hout Hnan. unfold trainModel. cbn [net].
  rewrite (Nat.iter_succ 199).
  apply train_nan_label; [|exact Hnan].
  rewrite (iter_train_outputSize 199). exact Hout.
Qed.

Lemma addBlockDataAndTrain_poisoned (w : Z) (p : AIGasPredictor) :
  poisoned (net p) -> poisoned (net (addBlockDataAndTrain rt w p)).
Proof.
  intros Hp. unfold addBlockDataAndTrain. cbv zeta.
  destruct (Nat.eqb _ windowSize); [|exact Hp].
  apply trainModel_poisoned. exact Hp.
Qed.

Lemma absorbAll_poisoned (samples : list Z) (p : AIGasPredictor) :
  poisoned (net p) -> poisoned (net (absorbAll rt samples p)).
Proof.
  revert p. induction samples as [|w samples IH]; intros p Hp; [exact Hp|].
  simpl. apply IH, addBlockDataAndTrain_poisoned, Hp.
Qed.

Hypothesis Math_exp_nan : Js.is_nan (Math_exp rt nan) = true.

Lemma sigmoid_nan (x : float) : Js.is_nan x = true -> Js.is_nan (sigmoid rt x) = true.
Proof.
  intros Hx. unfold sigmoid.
  apply is_nan_div_r, is_nan_add_r.
  rewrite (is_nan_unique (- x) (is_nan_opp x Hx)). exact Math_exp_nan.
Qed.

Lemma weighted_sum_nan (inputs : list float) (weights : list (list float))
    (j : nat) (units : list nat) (start : float) :
  Js.is_nan start = true ->
  Js.is_nan (fold_left
               (fun sum i => (sum + Js.idx inputs i * Js.idx2 weights i j)%float)
               units start) = true.
Proof.
  revert start. induction units as [|i units IH]; intros start Hs; [exact Hs|].
  simpl. apply IH, is_nan_add_l, Hs.
Qed.

Lemma run_poisoned (n : SimpleNeuralNetwork) (inputs : list float) :
  poisoned n -> Js.is_nan (Js.idx (run rt n inputs) 0) = true.
Proof.
  intros [Hout Hnan]. unfold run, forward.
  rewrite idx_map_seq by exact Hout.
  apply sigmoid_nan, weighted_sum_nan, Hnan.
Qed.

Lemma shouldExecuteBatch_poisoned (fee : Z) (p : AIGasPredictor) :
  poisoned (net p) -> shouldExecuteBatch rt fee p = (false, 0%float).
Proof.
  intros Hp. unfold shouldExecuteBatch.
  destruct (negb (isTrained p) || _); [reflexivity|]. cbv zeta.
  pose proof (run_poisoned (net p) (normalize (historicalFees p)) Hp) as Hnan.
  unfold Js.or, Js.truthy. rewrite Hnan. reflexivity.
Qed.

(** X21: a [NaN] label is the end of the predictor. If [trainModel] runs on a
    window whose label is [NaN] (the window of ten zeros is one), the 200
    steps leave [NaN] in the output bias; every later training step keeps
    it, whatever the samples; and, [Math.exp(NaN)] being [NaN], the score
    is [0] and the answer [false] from then on. *)
Theorem nan_label_kills_predictor
    (p : AIGasPredictor) (samples : list Z) (fee : Z)
    (Hout : (1 <= outputSize (net p))%nat)
    (Hlabel : Js.is_nan (targetScore (historicalFees p)) = true) :
  Js.is_nan (Js.idx (biasOutput (net (absorbAll rt samples (trainModel rt p)))) 0) = true
  /\ shouldExecuteBatch rt fee (absorbAll rt samples (trainModel rt p))
     = (false, 0%float).
Proof.
  assert (Hp : poisoned (net (absorbAll rt samples (trainModel rt p))))
    by (apply absorbAll_poisoned, trainModel_nan_label; assumption).
  split; [apply Hp|]. apply shouldExecuteBatch_poisoned, Hp.
Qed.

End Poison.

(* ------------------------------------------------------------------------- *)
(** ** Runs of the relayer                                                    *)
(* ------------------------------------------------------------------------- *)

(** C1 as stated does not hold while a batch is in flight. With a threshold
    of 2, [a] and [b] are drained into a batch; [c] and [d] arrive before
    that batch settles. With [d] the pool has reached the threshold, yet it
    is not drained and [d] is in no batch. *)
Lemma threshold_reached_while_executing :
  let r := handleIntent Sample.c 3
             (handleIntent Sample.b 2
                (handleIntent Sample.a 1 (Sample.relayer 2))) in
  let r' := handleIntent Sample.d 4 r in
  reachesThreshold (length (intentPool r ++ [Sample.d]))
    (Config.batchSizeThreshold (config r)) = true
  /\ intentPool r' = [Sample.c; Sample.d]
  /\ inFlight r' = [[Sample.a; Sample.b]]
  /\ ~ (intentPool r' = []
        /\ exists batch, In batch (inFlight r') /\ In Sample.d batch).
Proof.
  cbv zeta. repeat split.
  intros [Hempty _]. vm_compute in Hempty. discriminate Hempty.
Qed.

Lemma threshold_trigger_witness :
  let r := handleIntent Sample.a 1 (Sample.relayer 2) in
  let r' := handleIntent Sample.b 2 r in
  reachesThreshold (length (intentPool r ++ [Sample.b]))
    (Config.batchSizeThreshold (config r)) = true
  /\ intentPool r' = []
  /\ inFlight r' = [[Sample.a; Sample.b]]
  /\ isExecuting r' = true
  /\ RelayerState.status (state r') = EXECUTING.
Proof.
  cbv zeta. split; [reflexivity|].
  exact (threshold_trigger (handleIntent Sample.a 1 (Sample.relayer 2))
           Sample.b 2 eq_refl).
Defined.

(** C2: two overlapping attempts. After [firstFailure] the pool is [a; b]
    and a timer is pending. [c] arrives: the pool [a; b; c] is drained into a
    second attempt. During that attempt [d] arrives, the timer of the first
    failure fires and clears the flag, and [e] arrives: [d; e] is drained
    into a third attempt. The second attempt then fails: the pool is
    [a; b; c], and the intents [d] and [e] that arrived during the attempt
    are not behind them. *)
Theorem stale_timer_breaks_restore (rt : Runtime) :
  let before := dispatch rt Sample.firstFailure (Sample.relayer 2) in
  let attempt := dispatch rt [Sample.arrive Sample.c] before in
  let during :=
    dispatch rt [Sample.arrive Sample.d; Timeout; Sample.arrive Sample.e] attempt in
  let after := dispatch rt [Settled 0 Sample.rejected 1020] during in
  intentPool before = [Sample.a; Sample.b]
  /\ intentPool attempt = []
  /\ inFlight attempt = [[Sample.a; Sample.b; Sample.c]]
  /\ inFlight during = [[Sample.a; Sample.b; Sample.c]; [Sample.d; Sample.e]]
  /\ intentPool after = [Sample.a; Sample.b; Sample.c]
  /\ RelayerState.status (state after) = ERROR
  /\ intentPool after <> [Sample.a; Sample.b; Sample.c] ++ [Sample.d; Sample.e].
Proof.
  cbv zeta. repeat split.
  intros Heq. vm_compute in Heq. discriminate Heq.
Qed.

(** C3: no delay after a failure. [firstFailure] leaves the status [ERROR],
    the flag cleared and the timer pending; the next intent, with the timer
    still pending, starts a new execution. *)
Theorem no_cooldown_after_failure (rt : Runtime) :
  let failed := dispatch rt Sample.firstFailure (Sample.relayer 2) in
  let next := dispatch rt [Sample.arrive Sample.c] failed in
  RelayerState.status (state failed) = ERROR
  /\ isExecuting failed = false
  /\ timers failed = 1%nat
  /\ timers next = 1%nat
  /\ isExecuting next = true
  /\ RelayerState.status (state next) = EXECUTING
  /\ inFlight next = [[Sample.a; Sample.b; Sample.c]].
Proof. cbv zeta. repeat split. Qed.

(** The scenario of the specification: threshold 5, five intents of one
    unit, the fifth triggers the drain, the batch of 5 units is confirmed. *)
Lemma successful_batch_accounting_witness :
  let arrivals := map Sample.arrive [Sample.a; Sample.b; Sample.c; Sample.d; Sample.e] in
  let r := dispatch Sample.runtime arrivals (Sample.relayer 5) in
  let r' := executeBatch_resume Sample.runtime 0 (Sample.confirmed "0xabc") 1010 r in
  (intentPool r = [] /\ RelayerState.status (state r) = EXECUTING)
  /\ RelayerState.totalBatchesExecuted (state r') = 1
  /\ RelayerState.totalIntentsProcessed (state r') = 5
  /\ deref r' (RelayerState.lastBatch (state r'))
     = Some (LastBatchObj
               {| LastBatch.txHash := Some "0xabc"%string;
                  LastBatch.batchSize := 5;
                  LastBatch.totalValue := "5.0";
                  LastBatch.executedAt := Some 1010 |})
  /\ RelayerState.status (state r') = IDLE
  /\ intentPool r' = [].
Proof.
  cbv zeta. split; [split; reflexivity|].
  exact (successful_batch_accounting Sample.runtime
           (dispatch Sample.runtime
              (map Sample.arrive [Sample.a; Sample.b; Sample.c; Sample.d; Sample.e])
              (Sample.relayer 5))
           0 [Sample.a; Sample.b; Sample.c; Sample.d; Sample.e]
           (Sample.confirmed "0xabc") 1010 "0xabc" eq_refl eq_refl).
Defined.

Lemma predictor_cold_until_window_full_witness :
  let samples := firstn 9 Sample.fallingFees in
  let more := skipn 9 Sample.fallingFees in
  (length samples < windowSize)%nat
  /\ shouldExecuteBatch Sample.runtime 1
       (absorbAll Sample.runtime samples (newPredictor Sample.net0))
     = (false, 0%float)
  /\ isReady (absorbAll Sample.runtime samples (newPredictor Sample.net0)) = false
  /\ isReady (absorbAll Sample.runtime (samples ++ more) (newPredictor Sample.net0))
     = true.
Proof.
  cbv zeta.
  assert (Hshort : (length (firstn 9 Sample.fallingFees) < windowSize)%nat)
    by (vm_compute; lia).
  destruct (predictor_cold_until_window_full Sample.runtime Sample.net0
              (firstn 9 Sample.fallingFees) Hshort) as (Hscore & Hready & _).
  split; [exact Hshort|]. split; [exact (Hscore 1)|]. split.
  - rewrite <- (app_nil_r (firstn 9 Sample.fallingFees)). exact (Hready []).
  - exact (Hready (skipn 9 Sample.fallingFees)).
Defined.

Lemma window_bounded_and_fifo_witness :
  let p := absorbAll Sample.runtime Sample.fallingFees (newPredictor Sample.net0) in
  length (historicalFees p) = windowSize
  /\ historicalFees (addBlockDataAndTrain Sample.runtime (11 * 10 ^ 9) p)
     = [9; 8; 7; 6; 5; 4; 3; 2; 1; 11]%float.
Proof.
  cbv zeta.
  assert (Hfull : length (historicalFees
                            (absorbAll Sample.runtime Sample.fallingFees
                               (newPredictor Sample.net0))) = windowSize)
    by (vm_compute; reflexivity).
  split; [exact Hfull|].
  destruct (window_bounded_and_fifo Sample.runtime Sample.net0 Sample.fallingFees
              (11 * 10 ^ 9)) as (_ & Hwindow & Hevict).
  rewrite (Hevict Hfull), Hwindow. vm_compute. reflexivity.
Defined.

Lemma snapshot_is_point_in_time_witness :
  let r := dispatch Sample.runtime [Sample.arrive Sample.a] (Sample.relayer 5) in
  let snap := fst (getStatus 1005 r) in
  let r1 := snd (getStatus 1005 r) in
  reachable Sample.runtime r
  /\ RelayerState.status snap = POOLING
  /\ Snapshot.pooledIntents (contents r1 snap) = Some (IntentArray [Sample.a])
  /\ contents (dispatch Sample.runtime
                 (map Sample.arrive [Sample.b; Sample.c; Sample.d; Sample.e]) r1) snap
     = contents r1 snap.
Proof.
  cbv zeta.
  assert (Hreach : reachable Sample.runtime
                     (dispatch Sample.runtime [Sample.arrive Sample.a] (Sample.relayer 5))).
  { exists {| Config.batchSizeThreshold := Some 5 |}, Sample.net0, 1000,
      [Sample.arrive Sample.a]. reflexivity. }
  destruct (snapshot_is_point_in_time Sample.runtime _ 1005 Hreach)
    as (Hstatus & _ & Hpool & Hstable).
  split; [exact Hreach|]. split; [exact Hstatus|]. split; [exact Hpool|].
  apply Hstable.
Defined.

Lemma label_follows_trend_witness :
  let below := [10; 9; 8; 7; 6; 5; 4; 3; 2; 1]%float in
  let above := [1; 2; 3; 4; 5; 6; 7; 8; 9; 10]%float in
  map (gweiOfWei Sample.runtime) Sample.fallingFees = below
  /\ map (gweiOfWei Sample.runtime) (rev Sample.fallingFees) = above
  /\ (Js.idx below (windowSize - 1) <? windowAverage below)%float = true
  /\ (Js.idx above (windowSize - 1) <? windowAverage above)%float = false
  /\ (targetScore above <=? 0.5)%float = true
  /\ (0.5 <=? targetScore below)%float = true.
Proof.
  cbv zeta.
  split; [vm_compute; reflexivity|]. split; [vm_compute; reflexivity|].
  split; [reflexivity|]. split; [reflexivity|].
  exact (proj2 (proj2 (label_follows_trend Sample.runtime Sample.net0))
           [10; 9; 8; 7; 6; 5; 4; 3; 2; 1]%float
           [1; 2; 3; 4; 5; 6; 7; 8; 9; 10]%float
           eq_refl eq_refl eq_refl eq_refl eq_refl eq_refl eq_refl).
Defined.


(* ------------------------------------------------------------------------- *)
(** ** Runs that meet the hypotheses                                          *)
(* ------------------------------------------------------------------------- *)

(** After [firstFailure] the pool is [a; b] again, and the state says so. *)
Lemma reported_pool_is_the_pool_witness :
  let r := dispatch Sample.runtime Sample.firstFailure (Sample.relayer 2) in
  reachable Sample.runtime r
  /\ deref r (RelayerState.pooledIntents (state r))
     = Some (IntentArray [Sample.a; Sample.b]).
Proof.
  cbv zeta.
  assert (Hreach : reachable Sample.runtime
                     (dispatch Sample.runtime Sample.firstFailure (Sample.relayer 2))).
  { exists {| Config.batchSizeThreshold := Some 2 |}, Sample.net0, 1000,
      Sample.firstFailure. reflexivity. }
  split; [exact Hreach|].
  exact (reported_pool_is_the_pool Sample.runtime _ Hreach).
Defined.

Lemma status_is_sound_witness :
  let r := dispatch Sample.runtime [StatusRequest 1001] (Sample.relayer 2) in
  reachable Sample.runtime r
  /\ RelayerState.status (state r) = IDLE
  /\ intentPool r = [].
Proof.
  cbv zeta.
  assert (Hreach : reachable Sample.runtime
                     (dispatch Sample.runtime [StatusRequest 1001] (Sample.relayer 2))).
  { exists {| Config.batchSizeThreshold := Some 2 |}, Sample.net0, 1000,
      [StatusRequest 1001]. reflexivity. }
  split; [exact Hreach|]. split; [reflexivity|].
  exact (proj2 (status_is_sound Sample.runtime _ Hreach) eq_refl).
Defined.

Lemma no_empty_batch_in_flight_witness :
  let r := dispatch Sample.runtime [Sample.arrive Sample.a; Sample.arrive Sample.b]
             (Sample.relayer 2) in
  reachable Sample.runtime r
  /\ In [Sample.a; Sample.b] (inFlight r)
  /\ [Sample.a; Sample.b] <> [].
Proof.
  cbv zeta.
  assert (Hreach : reachable Sample.runtime
                     (dispatch Sample.runtime
                        [Sample.arrive Sample.a; Sample.arrive Sample.b]
                        (Sample.relayer 2))).
  { exists {| Config.batchSizeThreshold := Some 2 |}, Sample.net0, 1000,
      [Sample.arrive Sample.a; Sample.arrive Sample.b]. reflexivity. }
  assert (Hin : In [Sample.a; Sample.b]
                  (inFlight (dispatch Sample.runtime
                               [Sample.arrive Sample.a; Sample.arrive Sample.b]
                               (Sample.relayer 2))))
    by (vm_compute; left; reflexivity).
  split; [exact Hreach|]. split; [exact Hin|].
  exact (no_empty_batch_in_flight Sample.runtime _ Hreach _ Hin).
Defined.

(** The scenario of the specification, with the batch confirmed. *)
Lemma batches_never_outnumber_intents_witness :
  let r := dispatch Sample.runtime
             (map Sample.arrive [Sample.a; Sample.b; Sample.c; Sample.d; Sample.e]
              ++ [Settled 0 (Sample.confirmed "0xabc") 1010])
             (Sample.relayer 5) in
  reachable Sample.runtime r
  /\ RelayerState.totalBatchesExecuted (state r) = 1
  /\ RelayerState.totalIntentsProcessed (state r) = 5
  /\ 0 <= RelayerState.totalBatchesExecuted (state r)
          <= RelayerState.totalIntentsProcessed (state r).
Proof.
  cbv zeta.
  assert (Hreach : reachable Sample.runtime
                     (dispatch Sample.runtime
                        (map Sample.arrive
                           [Sample.a; Sample.b; Sample.c; Sample.d; Sample.e]
                         ++ [Settled 0 (Sample.confirmed "0xabc") 1010])
                        (Sample.relayer 5))).
  { exists {| Config.batchSizeThreshold := Some 5 |}, Sample.net0, 1000,
      (map Sample.arrive [Sample.a; Sample.b; Sample.c; Sample.d; Sample.e]
       ++ [Settled 0 (Sample.confirmed "0xabc") 1010]). reflexivity. }
  split; [exact Hreach|]. split; [reflexivity|]. split; [reflexivity|].
  exact (batches_never_outnumber_intents Sample.runtime _ Hreach).
Defined.

Lemma last_batch_summary_follows_counter_witness :
  let r := dispatch Sample.runtime
             (map Sample.arrive [Sample.a; Sample.b; Sample.c; Sample.d; Sample.e]
              ++ [Settled 0 (Sample.confirmed "0xabc") 1010])
             (Sample.relayer 5) in
  reachable Sample.runtime r
  /\ exists b : LastBatch.t,
       deref r (RelayerState.lastBatch (state r)) = Some (LastBatchObj b)
       /\ ((RelayerState.totalBatchesExecuted (state r) = 0 /\ b = noBatchYet)
           \/ (0 < RelayerState.totalBatchesExecuted (state r)
               /\ LastBatch.txHash b <> None
               /\ LastBatch.executedAt b <> None
               /\ 0 < LastBatch.batchSize b)).
Proof.
  cbv zeta.
  assert (Hreach : reachable Sample.runtime
                     (dispatch Sample.runtime
                        (map Sample.arrive
                           [Sample.a; Sample.b; Sample.c; Sample.d; Sample.e]
                         ++ [Settled 0 (Sample.confirmed "0xabc") 1010])
                        (Sample.relayer 5))).
  { exists {| Config.batchSizeThreshold := Some 5 |}, Sample.net0, 1000,
      (map Sample.arrive [Sample.a; Sample.b; Sample.c; Sample.d; Sample.e]
       ++ [Settled 0 (Sample.confirmed "0xabc") 1010]). reflexivity. }
  split; [exact Hreach|].
  exact (last_batch_summary_follows_counter Sample.runtime _ Hreach).
Defined.

Lemma flag_held_only_while_in_flight_witness :
  let r := dispatch Sample.runtime [Sample.arrive Sample.a; Sample.arrive Sample.b]
             (Sample.relayer 2) in
  reachable Sample.runtime r
  /\ isExecuting r = true
  /\ inFlight r <> [].
Proof.
  cbv zeta.
  assert (Hreach : reachable Sample.runtime
                     (dispatch Sample.runtime
                        [Sample.arrive Sample.a; Sample.arrive Sample.b]
                        (Sample.relayer 2))).
  { exists {| Config.batchSizeThreshold := Some 2 |}, Sample.net0, 1000,
      [Sample.arrive Sample.a; Sample.arrive Sample.b]. reflexivity. }
  split; [exact Hreach|]. split; [reflexivity|].
  exact (flag_held_only_while_in_flight Sample.runtime _ Hreach eq_refl).
Defined.

(** [BATCH_SIZE_THRESHOLD=five]: three intents arrive, none is batched. *)
Lemma unparsable_threshold_never_fires_witness :
  let r := newRelayer {| Config.batchSizeThreshold := None |} Sample.net0 1000 in
  let r' := dispatch Sample.runtime
              (arrivals [(Sample.a, 1001); (Sample.b, 1002); (Sample.c, 1003)]) r in
  Config.batchSizeThreshold (config r) = None
  /\ intentPool r' = [Sample.a; Sample.b; Sample.c]
  /\ inFlight r' = []
  /\ isExecuting r' = false.
Proof.
  cbv zeta. split; [reflexivity|].
  exact (unparsable_threshold_never_fires Sample.runtime
           [(Sample.a, 1001); (Sample.b, 1002); (Sample.c, 1003)]
           (newRelayer {| Config.batchSizeThreshold := None |} Sample.net0 1000)
           eq_refl).
Defined.

(** One intent is pooled, far from the threshold of 5; nine blocks with
    falling fees have been seen. The tenth block fills the window, the
    predictor trained on the sample runtime answers [true], and the pool
    is drained. *)
Lemma ai_trigger_witness :
  let r := dispatch Sample.runtime
             (Sample.arrive Sample.a
              :: map (fun fee => Block (Some fee) 1002) (firstn 9 Sample.fallingFees))
             (Sample.relayer 5) in
  let r' := onBlock Sample.runtime (Some (1 * 10 ^ 9)) 1003 r in
  1 * 10 ^ 9 <> 0
  /\ intentPool r = [Sample.a]
  /\ intentPool r' = []
  /\ inFlight r' = [[Sample.a]]
  /\ isExecuting r' = true
  /\ RelayerState.status (state r') = EXECUTING.
Proof.
  cbv zeta.
  set (r := dispatch Sample.runtime
              (Sample.arrive Sample.a
               :: map (fun fee => Block (Some fee) 1002) (firstn 9 Sample.fallingFees))
              (Sample.relayer 5)).
  assert (Hfee : 1 * 10 ^ 9 <> 0) by discriminate.
  pose proof (ai_trigger Sample.runtime (1 * 10 ^ 9) 1003 r Hfee) as Htrigger.
  cbv zeta in Htrigger. destruct Htrigger as (_ & _ & Htrigger).
  assert (Hfires :
            fst (shouldExecuteBatch Sample.runtime (1 * 10 ^ 9)
                   (addBlockDataAndTrain Sample.runtime (1 * 10 ^ 9) (gasAI r)))
            && negb (isExecuting r) && negb (length (intentPool r) =? 0)%nat = true)
    by (vm_compute; reflexivity).
  rewrite Hfires in Htrigger. destruct Htrigger as (Hp & Hf & Hx & Hs).
  split; [exact Hfee|]. split; [reflexivity|]. split; [exact Hp|].
  split; [rewrite Hf; reflexivity|]. split; [exact Hx|exact Hs].
Defined.

(** [a] is drained on its own; [b] and [c] arrive while the batch is in
    flight; the vault confirms. [b] and [c] wait in the pool. *)
Lemma confirmed_attempt_leaves_arrivals_witness :
  let r := dispatch Sample.runtime [Sample.arrive Sample.a] (Sample.relayer 2) in
  let during := [Sample.arrive Sample.b; Sample.arrive Sample.c] in
  let r' := dispatch Sample.runtime
              (during ++ [Settled 0 (Sample.confirmed "0xabc") 1010])
              (executeBatch 1001 r) in
  (isExecuting r = false /\ inFlight r = [] /\ intentPool r <> []
   /\ forallb quiet during = true
   /\ settlement (intentPool r) (Sample.confirmed "0xabc") = Some "0xabc"%string)
  /\ intentPool r' = [Sample.b; Sample.c]
  /\ inFlight r' = []
  /\ isExecuting r' = false
  /\ RelayerState.status (state r') = POOLING.
Proof.
  cbv zeta.
  set (r := dispatch Sample.runtime [Sample.arrive Sample.a] (Sample.relayer 2)).
  assert (Hpool : intentPool r <> []) by discriminate.
  destruct (confirmed_attempt_leaves_arrivals Sample.runtime r 1001 1010
              [Sample.arrive Sample.b; Sample.arrive Sample.c]
              (Sample.confirmed "0xabc") "0xabc"
              eq_refl eq_refl Hpool eq_refl eq_refl)
    as (Hp & Hf & Hx & Hs & _).
  split; [repeat split; exact Hpool|].
  split; [exact Hp|]. split; [exact Hf|]. split; [exact Hx|exact Hs].
Defined.

(** The same attempt against an empty vault: the pool is [a; b; c]. *)
Lemma failed_attempt_restores_pool_witness :
  let r := dispatch Sample.runtime [Sample.arrive Sample.a] (Sample.relayer 2) in
  let during := [Sample.arrive Sample.b; Sample.arrive Sample.c] in
  let r' := dispatch Sample.runtime (during ++ [Settled 0 Sample.emptyVault 1010])
              (executeBatch 1001 r) in
  (isExecuting r = false /\ inFlight r = [] /\ intentPool r <> []
   /\ forallb quiet during = true
   /\ settlement (intentPool r) Sample.emptyVault = None)
  /\ intentPool r' = [Sample.a; Sample.b; Sample.c]
  /\ RelayerState.status (state r') = ERROR.
Proof.
  cbv zeta.
  set (r := dispatch Sample.runtime [Sample.arrive Sample.a] (Sample.relayer 2)).
  assert (Hpool : intentPool r <> []) by discriminate.
  destruct (failed_attempt_restores_pool Sample.runtime r 1001 1010
              [Sample.arrive Sample.b; Sample.arrive Sample.c] Sample.emptyVault
              eq_refl eq_refl Hpool eq_refl eq_refl)
    as (Hp & Hs).
  split; [repeat split; exact Hpool|].
  split; [exact Hp|exact Hs].
Defined.

Lemma status_endpoint_reports_live_state_witness :
  let r := dispatch Sample.runtime Sample.firstFailure (Sample.relayer 2) in
  let reply :=
    fst (apiStatus Sample.runtime Sample.toFixed
           (fun threshold => match threshold with
                             | Some t => Sample.decimal t
                             | None => "NaN"%string
                             end)
           1020 r) in
  reachable Sample.runtime r
  /\ StatusReply.status reply = ERROR
  /\ StatusReply.pooledIntents reply = 2%nat
  /\ StatusReply.intents reply = map (intentView Sample.runtime) [Sample.a; Sample.b]
  /\ StatusReply.stats reply
     = {| Stats.totalBatchesExecuted := 0;
          Stats.totalIntentsProcessed := 0;
          Stats.uptimeSec := 0 |}
  /\ LastBatch.txHash (StatusReply.lastBatch reply) = None.
Proof.
  cbv zeta.
  set (r := dispatch Sample.runtime Sample.firstFailure (Sample.relayer 2)).
  assert (Hreach : reachable Sample.runtime r).
  { exists {| Config.batchSizeThreshold := Some 2 |}, Sample.net0, 1000,
      Sample.firstFailure. reflexivity. }
  destruct (status_endpoint_reports_live_state Sample.runtime Sample.toFixed
              (fun threshold => match threshold with
                                | Some t => Sample.decimal t
                                | None => "NaN"%string
                                end)
              r 1020 Hreach)
    as (Hn & Hi & _ & _ & _ & Hst & _ & Hlast).
  split; [exact Hreach|]. split; [reflexivity|]. split; [exact Hn|].
  split; [exact Hi|]. split; [exact Hst|]. apply Hlast. reflexivity.
Defined.



(** A body whose receiver is the empty array is answered with [ok: true],
    and the object on the pool is no [Intent]. *)
Example array_receiver_is_accepted :
  let r := dispatch Sample.runtime [Sample.arrive Sample.a] (Sample.relayer 2) in
  let parse := fun v : JsValue =>
                 match v with JString _ => Some (10 ^ 18) | _ => None end in
  let body := JObject [("receiver", JArray []); ("amount", JString "1")]%string in
  simulateIntent parse body 1001 1002 1003 r
  = Untyped (Injected "Intent injected into pool") (syncState 1001 r)
      {| RawIntent.sender := JString demoSender;
         RawIntent.receiver := JArray [];
         RawIntent.amount := 10 ^ 18;
         RawIntent.intentIndex := 1;
         RawIntent.receivedAt := 1002;
         RawIntent.txHash := zeroHash;
         RawIntent.blockNumber := 0 |}.
Proof. vm_compute. reflexivity. Qed.

(** A body that is [null], and one whose amount [parseEther] rejects, are
    answered with 500 and leave the pool as it was. *)
Example rejected_before_the_push :
  let r := dispatch Sample.runtime [Sample.arrive Sample.a] (Sample.relayer 2) in
  let parse := fun v : JsValue =>
                 match v with JString _ => Some (10 ^ 18) | _ => None end in
  simulateIntent parse JNull 1001 1002 1003 r
  = Handled (Refused 500 "Internal server error") r
  /\ simulateIntent parse
       (JObject [("receiver", JString "0xB"); ("amount", JNumber 1)]%string)
       1001 1002 1003 r
     = Handled (Refused 500 "Internal server error") (syncState 1001 r).
Proof. split; vm_compute; reflexivity. Qed.

Lemma score_between_zero_and_one_witness :
  (forall x : float, (Math_exp Sample.runtime x <? 0)%float = false)
  /\ let answer :=
       shouldExecuteBatch Sample.runtime 0
         (absorbAll Sample.runtime Sample.fallingFees (newPredictor Sample.net0)) in
     (0 <=? snd answer)%float = true
     /\ (snd answer <=? 1)%float = true
     /\ fst answer = (0.7 <? snd answer)%float.
Proof.
  split; [exact Sample_exp_not_negative|].
  exact (score_between_zero_and_one Sample.runtime Sample_exp_not_negative 0
           (absorbAll Sample.runtime Sample.fallingFees (newPredictor Sample.net0))).
Defined.

Lemma targetScore_in_range_witness :
  let fees := [9; 8; 8; 8; 8; 8; 8; 8; 8; 7]%float in
  ((0 <? windowAverage fees)%float = true
   /\ (windowAverage fees <? infinity)%float = true
   /\ Js.is_nan (Js.idx fees (windowSize - 1)) = false)
  /\ (0.01 <=? targetScore fees)%float = true
  /\ (targetScore fees <=? 0.99)%float = true.
Proof.
  cbv zeta. split; [repeat split|].
  exact (targetScore_in_range [9; 8; 8; 8; 8; 8; 8; 8; 8; 7]%float
           eq_refl eq_refl eq_refl).
Defined.

(** The window of ten zeros, then ten ordinary samples. *)
Lemma nan_label_kills_predictor_witness :
  let p := {| net := Sample.net0; isTrained := false;
              historicalFees := repeat 0%float 10 |} in
  (Js.is_nan (Math_exp Sample.runtime nan) = true
   /\ (1 <= outputSize (net p))%nat
   /\ Js.is_nan (targetScore (historicalFees p)) = true)
  /\ shouldExecuteBatch Sample.runtime 0
       (absorbAll Sample.runtime Sample.fallingFees (trainModel Sample.runtime p))
     = (false, 0%float).
Proof.
  cbv zeta.
  assert (Hexp : Js.is_nan (Math_exp Sample.runtime nan) = true)
    by (vm_compute; reflexivity).
  assert (Hout : (1 <= outputSize (net {| net := Sample.net0; isTrained := false;
                                          historicalFees := repeat 0%float 10 |}))%nat)
    by (simpl; lia).
  assert (Hlabel : Js.is_nan (targetScore (repeat 0%float 10)) = true)
    by (vm_compute; reflexivity).
  split; [split; [exact Hexp|split; [exact Hout|exact Hlabel]]|].
  exact (proj2 (nan_label_kills_predictor Sample.runtime Hexp
                  {| net := Sample.net0; isTrained := false;
                     historicalFees := repeat 0%float 10 |}
                  Sample.fallingFees 0 Hout Hlabel)).
Defined.
